(** * VTOL Live Viewer client: replay engine and entity registry

    A shallow embedding of [src/viewer/app.ts]: the packet store filled by
    [handleReplayChunk], the replay clock and the tick [runReplay], the undo
    table [replaceRPCHandlers], the [MessageHandler] calls and the spawn
    resolver [handleEntitySpawn]; and of the helpers of the text overlay
    ([elmOverlap], [hashCode]) and of the unit trail ([run], [reset]).

    Conventions of the embedding.
    - A JavaScript [number] that measures time is a finite double, held
      as the rational it equals ([Q]).  Comparisons and [Math.floor] are
      exact; [+], [-], [*] and [/] round to the nearest double, ties to
      even ([round64]).  NaN and the infinities are not represented: a
      tick at an undefined speed, where the clock becomes NaN, is
      [Unmodelled], and the arithmetic is that of JavaScript as long as
      its results stay below 2^1024 in absolute value.  Entity ids, unit
      ids, counters and the speed index are integers ([Z]).
    - A JavaScript string is the [string] of its UTF-16 code units, each
      below 256.
    - [console.warn] and [console.error] append to the field [console];
      [console.log] is not recorded.
    - What a call does is an [Outcome]: it returns, or it throws and
      leaves the state it had reached, or it depends on code that is not
      part of these sources.
    - [Date.now()] is an argument [now] of the function that reads it. *)

From Stdlib Require Import QArith Qround Lqa.
From stdpp Require Import gmap list.
From Stdlib Require Import String Ascii.

Local Open Scope Z_scope.
Local Open Scope string_scope.
Local Open Scope list_scope.

(** ** Numbers *)

Definition Qleb (x y : Q) : bool := Qle_bool x y.
Definition Qltb (x y : Q) : bool := negb (Qle_bool y x).

(** The integer nearest to [n / d], for [0 <= n] and [0 < d]; of two
    that are equally near, the even one. *)
Definition roundHalfEven (n d : Z) : Z :=
  let q := (n / d)%Z in
  let r := (n mod d)%Z in
  match (2 * r ?= d)%Z with
  | Lt => q
  | Gt => (q + 1)%Z
  | Eq => if Z.even q then q else (q + 1)%Z
  end.

(** The double nearest to a rational, ties to even: 53 significant
    bits, and multiples of 2^-1074 below the normal range.  The result
    is in lowest terms.  Beyond the largest double, where JavaScript has
    Infinity, it goes on with 53 bits; see [finite64]. *)
Definition round64 (x : Q) : Q :=
  let n := Z.abs (Qnum x) in
  let d := Zpos (Qden x) in
  if (n =? 0)%Z then 0%Q
  else
    let k := (Z.log2 n - Z.log2 d)%Z in
    let below := if (0 <=? k)%Z then (n <? d * 2 ^ k)%Z
                 else (n * 2 ^ (- k) <? d)%Z in
    let e0 := if below then (k - 1)%Z else k in
    let e := Z.max (e0 - 52) (-1074) in
    let m := if (0 <=? e)%Z then roundHalfEven n (d * 2 ^ e)
             else roundHalfEven (n * 2 ^ (- e)) d in
    let v := if (0 <=? e)%Z then inject_Z (m * 2 ^ e)
             else Qred (Qmake m (Z.to_pos (2 ^ (- e)))) in
    if (Qnum x <? 0)%Z then Qopp v else v.

(** The double nearest to [x]; [None] when that is an infinity. *)
Definition finite64 (x : Q) : option Q :=
  let r := round64 x in
  if (Qle_bool (inject_Z (2 ^ 1024)) r
      || Qle_bool r (inject_Z (- 2 ^ 1024)))%bool
  then None else Some r.

(** [x + y] on doubles.  A zero operand leaves the other one as it is. *)
Definition f64add (x y : Q) : Q :=
  if Qeq_bool y 0 then x
  else if Qeq_bool x 0 then y
  else round64 (x + y).

(** [x - y] on doubles *)
Definition f64sub (x y : Q) : Q := f64add x (- y).

(** [x * y] on doubles *)
Definition f64mul (x y : Q) : Q := round64 (x * y).

(** [x / y] on doubles, for a divisor other than 0: the source divides
    by 1000, by 60 and by the length of a batch that has a first
    element. *)
Definition f64div (x y : Q) : Q := round64 (x / y).

(** [Math.floor(t / 1000)] *)
Definition secondOf (t : Q) : Z := Qfloor (f64div t 1000).

(** ** Strings *)

(** [String.prototype.toLowerCase] on one code unit below 256: the
    letters A to Z and the capital letters of Latin-1 (U+00C0 to
    U+00DE without the multiplication sign) lie 32 below their small
    letters. *)
Definition lowerCodeUnit (c : ascii) : ascii :=
  let n := nat_of_ascii c in
  if ((Nat.leb 65 n && Nat.leb n 90)
      || (Nat.leb 192 n && Nat.leb n 222 && negb (Nat.eqb n 215)))%bool
  then ascii_of_nat (n + 32) else c.

Fixpoint toLowerCase (s : string) : string :=
  match s with
  | EmptyString => EmptyString
  | String c r => String (lowerCodeUnit c) (toLowerCase r)
  end.

(** The white space and line terminators below 256, which [trim] strips
    and [ToNumber] skips: tab, line feed, vertical tab, form feed,
    carriage return, space and no-break space. *)
Definition isSpace (c : ascii) : bool :=
  let n := nat_of_ascii c in
  (Nat.eqb n 32 || (Nat.leb 9 n && Nat.leb n 13) || Nat.eqb n 160)%bool.

Fixpoint trimStart (s : string) : string :=
  match s with
  | EmptyString => EmptyString
  | String c r => if isSpace c then trimStart r else s
  end.

Fixpoint trimEnd (s : string) : string :=
  match s with
  | EmptyString => EmptyString
  | String c r =>
      match trimEnd r with
      | EmptyString => if isSpace c then EmptyString else String c EmptyString
      | r' => String c r'
      end
  end.

(** [String.prototype.trim] *)
Definition trim (s : string) : string := trimEnd (trimStart s).

(** [path.startsWith(p)] *)
Definition startsWith (s p : string) : bool := String.prefix p s.

(** [path.includes(sub)] *)
Fixpoint includes (s sub : string) : bool :=
  (String.prefix sub s ||
   match s with
   | EmptyString => false
   | String _ r => includes r sub
   end)%bool.

(** *** [ToNumber] on strings *)

(** The value of a digit in a base up to 16. *)
Definition digitOf (base : Z) (c : ascii) : option Z :=
  let n := Z.of_nat (nat_of_ascii c) in
  let v := if ((48 <=? n)%Z && (n <=? 57)%Z)%bool then Some (n - 48)%Z
           else if ((97 <=? n)%Z && (n <=? 102)%Z)%bool then Some (n - 87)%Z
           else if ((65 <=? n)%Z && (n <=? 70)%Z)%bool then Some (n - 55)%Z
           else None in
  match v with
  | Some d => if (d <? base)%Z then Some d else None
  | None => None
  end.

(** The digits at the front of [s]: their value on top of [acc], their
    number on top of [count], and what follows them. *)
Fixpoint takeDigits (base : Z) (s : string) (acc count : Z)
  : Z * Z * string :=
  match s with
  | String c r =>
      match digitOf base c with
      | Some d => takeDigits base r (acc * base + d)%Z (count + 1)%Z
      | None => (acc, count, s)
      end
  | EmptyString => (acc, count, s)
  end.

Definition isEmpty (s : string) : bool :=
  match s with EmptyString => true | _ => false end.

(** A [0x], [0o] or [0b] literal, after its prefix. *)
Definition nonDecimalLiteral (base : Z) (s : string) : option Q :=
  let '(v, n, rest) := takeDigits base s 0 0 in
  if ((0 <? n)%Z && isEmpty rest)%bool then finite64 (inject_Z v) else None.

(** The exponent part of a decimal literal, or its end. *)
Definition exponentPart (s : string) : option Z :=
  match s with
  | EmptyString => Some 0
  | String c r =>
      if (Ascii.eqb c "e" || Ascii.eqb c "E")%bool then
        let '(neg, r') :=
          match r with
          | String "-" r'' => (true, r'')
          | String "+" r'' => (false, r'')
          | _ => (false, r)
          end in
        let '(ev, ne, rest) := takeDigits 10 r' 0 0 in
        if ((0 <? ne)%Z && isEmpty rest)%bool
        then Some (if neg then - ev else ev)%Z else None
      else None
  end.

(** An unsigned decimal literal: digits, an optional fraction and an
    optional exponent, with a digit before or after the point.  A
    literal too large for a double is an infinity ([None]); one too
    small is 0. *)
Definition decimalLiteral (s : string) : option Q :=
  let '(ip, ni, r1) := takeDigits 10 s 0 0 in
  let '(m, nf, r2) :=
    match r1 with
    | String "." r => takeDigits 10 r ip 0
    | _ => (ip, 0, r1)
    end in
  if (ni + nf =? 0)%Z then None
  else
    match exponentPart r2 with
    | None => None
    | Some ev =>
        let e := (ev - nf)%Z in
        if (m =? 0)%Z then Some 0%Q
        else if (400 <? e)%Z then None
        else if (e <? - (400 + ni + nf))%Z then Some 0%Q
        else if (0 <=? e)%Z then finite64 (inject_Z (m * 10 ^ e))
        else finite64 (Qmake m (Z.to_pos (10 ^ (- e))))
    end.

Definition signedLiteral (s : string) : option Q :=
  let '(neg, r) :=
    match s with
    | String "-" r' => (true, r')
    | String "+" r' => (false, r')
    | _ => (false, s)
    end in
  if String.eqb r "Infinity" then None
  else match decimalLiteral r with
       | Some v => Some (if neg then Qopp v else v)
       | None => None
       end.

(** [ToNumber] on a string, when the result is finite: [None] for NaN
    and for the infinities.  White space around the literal is skipped,
    and the empty literal is 0. *)
Definition stringToNumber (s : string) : option Q :=
  match trim s with
  | EmptyString => Some 0%Q
  | String "0" (String c r) as t =>
      if (Ascii.eqb c "x" || Ascii.eqb c "X")%bool
      then nonDecimalLiteral 16 r
      else if (Ascii.eqb c "o" || Ascii.eqb c "O")%bool
      then nonDecimalLiteral 8 r
      else if (Ascii.eqb c "b" || Ascii.eqb c "B")%bool
      then nonDecimalLiteral 2 r
      else signedLiteral t
  | t => signedLiteral t
  end.

(** ** Packets *)

Record Vector3 := { vx : Q; vy : Q; vz : Q }.

(** A serialised RPC argument.  The methods modelled below take numbers
    (entity and unit ids), strings, booleans and vectors; a vector is a
    plain object, as [JSON.parse] makes it. *)
Inductive Arg :=
| ANum (n : Z)
| AStr (s : string)
| ABool (b : bool)
| AVec (v : Vector3).

(** [RPCPacket] of the common library: the class of the handler, the id of
    the handler instance (absent for a singleton), the method, its
    arguments, and an optional timestamp. *)
Record RPCPacket := {
  className : string;
  method : string;
  args : list Arg;
  id : option string;
  timestamp : option Q
}.

Definition withTimestamp (t : Q) (p : RPCPacket) : RPCPacket :=
  {| className := className p; method := method p; args := args p;
     id := id p; timestamp := Some t |}.

(** [packet.timestamp ?? Date.now()] *)
Definition timestampOr (now : Q) (p : RPCPacket) : Q :=
  match timestamp p with Some t => t | None => now end.

(** [ToNumber] on a boolean *)
Definition boolToNumber (b : bool) : Z := if b then 1 else 0.

(** [n == s] for a number and a string: the string is converted. *)
Definition numberEqString (n : Z) (s : string) : bool :=
  match stringToNumber s with
  | Some q => Qeq_bool q (inject_Z n)
  | None => false
  end.

(** The loose equality [a == b] of two argument slots ([None] is
    [undefined]).  Values of one type compare by value.  A string
    against a number is converted to a number, and a boolean against
    either is first 0 or 1.  A vector against a primitive is its string
    ["[object Object]"].  Two vectors are two objects: the code compares
    an argument of one packet with an argument of another. *)
Definition looseEq (a b : option Arg) : bool :=
  match a, b with
  | None, None => true
  | Some x, Some y =>
      match x, y with
      | ANum m, ANum n => Z.eqb m n
      | AStr s, AStr t => String.eqb s t
      | ABool p, ABool q => Bool.eqb p q
      | ANum n, AStr s => numberEqString n s
      | AStr s, ANum n => numberEqString n s
      | ANum n, ABool q => Z.eqb n (boolToNumber q)
      | ABool p, ANum n => Z.eqb (boolToNumber p) n
      | AStr s, ABool q => numberEqString (boolToNumber q) s
      | ABool p, AStr s => numberEqString (boolToNumber p) s
      | AVec _, AStr s => String.eqb s "[object Object]"
      | AStr s, AVec _ => String.eqb s "[object Object]"
      | AVec _, _ => false
      | _, AVec _ => false
      end
  | _, _ => false
  end.

(** ** Entities and spawn rules *)

(** What [spawn] and [setUnitId] give an [Entity]: the arguments of the
    spawn call and the unit id; [eclass] names the class that was
    instantiated. *)
Record Entity := {
  eid : Z;
  ownerId : string;
  path : string;
  position : Vector3;
  rotation : Vector3;
  isActive : bool;
  unitId : option Z;
  eclass : string
}.

Definition setUnitId (u : Z) (e : Entity) : Entity :=
  {| eid := eid e; ownerId := ownerId e; path := path e;
     position := position e; rotation := rotation e;
     isActive := isActive e; unitId := Some u; eclass := eclass e |}.

(** The static [spawnFor] of an entity class: an array of paths or a
    regular expression, of which only [test] is used. *)
Inductive SpawnFor :=
| SpawnList (paths : list string)
| SpawnPattern (test : string -> bool).

Record EntityClass := { ecName : string; spawnFor : SpawnFor }.

Definition AIAirVehicle : EntityClass :=
  {| ecName := "AIAirVehicle";
     spawnFor := SpawnList
       [ "Units/Allied/ABomberAI"; "Units/Enemy/AIUCAV"; "Units/Enemy/ASF-30";
         "Units/Enemy/ASF-33"; "Units/Enemy/ASF-58"; "Units/Allied/AV-42CAI";
         "Units/Allied/E-4"; "Units/Enemy/AEW-50"; "Units/Enemy/EBomberAI";
         "Units/Allied/F-45A AI"; "Units/Allied/FA-26A";
         "Units/Allied/FA-26B AI"; "Units/Enemy/GAV-25"; "Units/Allied/KC-49";
         "Units/Allied/MQ-31"; "Units/Enemy/T-55 AI-E"; "Units/Allied/T-55 AI" ] |}.

(** The test of one spawnable in the loop of [handleEntitySpawn]. *)
Definition spawnMatch (c : EntityClass) (path : string) : bool :=
  match spawnFor c with
  | SpawnList paths =>
      existsb (String.eqb (toLowerCase (trim path))) (map toLowerCase paths)
  | SpawnPattern test => test (trim path)
  end.

(** The loop of [handleEntitySpawn]: the first spawnable that matches. *)
Fixpoint resolveEntityClass (spawnables : list EntityClass) (path : string)
  : option EntityClass :=
  match spawnables with
  | [] => None
  | c :: rest =>
      if spawnMatch c path then Some c else resolveEntityClass rest path
  end.

(** ** The application state *)

Inductive ApplicationRunningState :=
| welcome | lobbySelect | replaySelect | running | lobbyEnd.

Inductive LogEntry :=
| WarnExcessiveDt (dt : Q)
| ErrNoSpawnPacket (id : option Arg)
| WarnNoEntityHandler (path : string)
| ErrChunkNoTimestamp (chunk : Z)
| WarnNoReplayChunkCallback
| ErrReplayPacket0NoTimestamp
| ErrDispatch (p : RPCPacket).

Definition REPLAY_SPEEDS : list Q :=
  [ -8; -4; -2; -1; -(1#2); 0; 1#2; 1; 2; 4; 8; 16; 32 ]%Q.

(** The fields of [Application] the replay engine and the registry use.
    [expectedReplayChunks] is the field of [client]; [removed] lists the
    entities whose [remove()] ran, in order; [rpcInstances] holds the ids
    of the [MessageHandler] instances registered with [RPCController];
    [client] is the id of the [Client] made for the [assign-id] message,
    absent before it. *)
Record Application := {
  replayPackets : list RPCPacket;
  groupedReplayPackets : gmap Z (list RPCPacket);
  onReplayChunk : bool;
  isReplay : bool;
  replayStartTime : Q;
  currentReplayChunkReceive : Z;
  replayCurrentTime : Q;
  prevReplayTime : Q;
  replaySpeed : Z;
  entities : list Entity;
  messageHandler : option string;
  state : ApplicationRunningState;
  spawnables : list EntityClass;
  gameList : list string;
  expectedReplayChunks : Z;
  console : list LogEntry;
  removed : list Entity;
  rpcInstances : list string;
  client : option string
}.

(** The state of [new Application()], given the spawnables. *)
Definition newApplication (classes : list EntityClass) : Application :=
  {| replayPackets := []; groupedReplayPackets := ∅; onReplayChunk := false;
     isReplay := false; replayStartTime := 0; currentReplayChunkReceive := 0;
     replayCurrentTime := 0; prevReplayTime := 0; replaySpeed := 7;
     entities := []; messageHandler := None; state := welcome;
     spawnables := classes; gameList := []; expectedReplayChunks := 0;
     console := []; removed := []; rpcInstances := []; client := None |}.

(** Field updates ([this.f = v]). *)

Definition setReplayPackets (v : list RPCPacket) (a : Application)
  : Application :=
  {| replayPackets := v; groupedReplayPackets := groupedReplayPackets a;
     onReplayChunk := onReplayChunk a; isReplay := isReplay a;
     replayStartTime := replayStartTime a;
     currentReplayChunkReceive := currentReplayChunkReceive a;
     replayCurrentTime := replayCurrentTime a;
     prevReplayTime := prevReplayTime a; replaySpeed := replaySpeed a;
     entities := entities a; messageHandler := messageHandler a;
     state := state a; spawnables := spawnables a; gameList := gameList a;
     expectedReplayChunks := expectedReplayChunks a; console := console a;
     removed := removed a; rpcInstances := rpcInstances a;
     client := client a |}.

Definition setGroupedReplayPackets (v : gmap Z (list RPCPacket)) (a : Application)
  : Application :=
  {| replayPackets := replayPackets a; groupedReplayPackets := v;
     onReplayChunk := onReplayChunk a; isReplay := isReplay a;
     replayStartTime := replayStartTime a;
     currentReplayChunkReceive := currentReplayChunkReceive a;
     replayCurrentTime := replayCurrentTime a;
     prevReplayTime := prevReplayTime a; replaySpeed := replaySpeed a;
     entities := entities a; messageHandler := messageHandler a;
     state := state a; spawnables := spawnables a; gameList := gameList a;
     expectedReplayChunks := expectedReplayChunks a; console := console a;
     removed := removed a; rpcInstances := rpcInstances a;
     client := client a |}.

Definition setOnReplayChunk (v : bool) (a : Application) : Application :=
  {| replayPackets := replayPackets a;
     groupedReplayPackets := groupedReplayPackets a; onReplayChunk := v;
     isReplay := isReplay a; replayStartTime := replayStartTime a;
     currentReplayChunkReceive := currentReplayChunkReceive a;
     replayCurrentTime := replayCurrentTime a;
     prevReplayTime := prevReplayTime a; replaySpeed := replaySpeed a;
     entities := entities a; messageHandler := messageHandler a;
     state := state a; spawnables := spawnables a; gameList := gameList a;
     expectedReplayChunks := expectedReplayChunks a; console := console a;
     removed := removed a; rpcInstances := rpcInstances a;
     client := client a |}.

Definition setIsReplay (v : bool) (a : Application) : Application :=
  {| replayPackets := replayPackets a;
     groupedReplayPackets := groupedReplayPackets a;
     onReplayChunk := onReplayChunk a; isReplay := v;
     replayStartTime := replayStartTime a;
     currentReplayChunkReceive := currentReplayChunkReceive a;
     replayCurrentTime := replayCurrentTime a;
     prevReplayTime := prevReplayTime a; replaySpeed := replaySpeed a;
     entities := entities a; messageHandler := messageHandler a;
     state := state a; spawnables := spawnables a; gameList := gameList a;
     expectedReplayChunks := expectedReplayChunks a; console := console a;
     removed := removed a; rpcInstances := rpcInstances a;
     client := client a |}.

Definition setReplayStartTime (v : Q) (a : Application) : Application :=
  {| replayPackets := replayPackets a;
     groupedReplayPackets := groupedReplayPackets a;
     onReplayChunk := onReplayChunk a; isReplay := isReplay a;
     replayStartTime := v;
     currentReplayChunkReceive := currentReplayChunkReceive a;
     replayCurrentTime := replayCurrentTime a;
     prevReplayTime := prevReplayTime a; replaySpeed := replaySpeed a;
     entities := entities a; messageHandler := messageHandler a;
     state := state a; spawnables := spawnables a; gameList := gameList a;
     expectedReplayChunks := expectedReplayChunks a; console := console a;
     removed := removed a; rpcInstances := rpcInstances a;
     client := client a |}.

Definition setCurrentReplayChunkReceive (v : Z) (a : Application)
  : Application :=
  {| replayPackets := replayPackets a;
     groupedReplayPackets := groupedReplayPackets a;
     onReplayChunk := onReplayChunk a; isReplay := isReplay a;
     replayStartTime := replayStartTime a; currentReplayChunkReceive := v;
     replayCurrentTime := replayCurrentTime a;
     prevReplayTime := prevReplayTime a; replaySpeed := replaySpeed a;
     entities := entities a; messageHandler := messageHandler a;
     state := state a; spawnables := spawnables a; gameList := gameList a;
     expectedReplayChunks := expectedReplayChunks a; console := console a;
     removed := removed a; rpcInstances := rpcInstances a;
     client := client a |}.

Definition setReplayCurrentTime (v : Q) (a : Application) : Application :=
  {| replayPackets := replayPackets a;
     groupedReplayPackets := groupedReplayPackets a;
     onReplayChunk := onReplayChunk a; isReplay := isReplay a;
     replayStartTime := replayStartTime a;
     currentReplayChunkReceive := currentReplayChunkReceive a;
     replayCurrentTime := v; prevReplayTime := prevReplayTime a;
     replaySpeed := replaySpeed a; entities := entities a;
     messageHandler := messageHandler a; state := state a;
     spawnables := spawnables a; gameList := gameList a;
     expectedReplayChunks := expectedReplayChunks a; console := console a;
     removed := removed a; rpcInstances := rpcInstances a;
     client := client a |}.

Definition setPrevReplayTime (v : Q) (a : Application) : Application :=
  {| replayPackets := replayPackets a;
     groupedReplayPackets := groupedReplayPackets a;
     onReplayChunk := onReplayChunk a; isReplay := isReplay a;
     replayStartTime := replayStartTime a;
     currentReplayChunkReceive := currentReplayChunkReceive a;
     replayCurrentTime := replayCurrentTime a; prevReplayTime := v;
     replaySpeed := replaySpeed a; entities := entities a;
     messageHandler := messageHandler a; state := state a;
     spawnables := spawnables a; gameList := gameList a;
     expectedReplayChunks := expectedReplayChunks a; console := console a;
     removed := removed a; rpcInstances := rpcInstances a;
     client := client a |}.

Definition setReplaySpeed (v : Z) (a : Application) : Application :=
  {| replayPackets := replayPackets a;
     groupedReplayPackets := groupedReplayPackets a;
     onReplayChunk := onReplayChunk a; isReplay := isReplay a;
     replayStartTime := replayStartTime a;
     currentReplayChunkReceive := currentReplayChunkReceive a;
     replayCurrentTime := replayCurrentTime a;
     prevReplayTime := prevReplayTime a; replaySpeed := v;
     entities := entities a; messageHandler := messageHandler a;
     state := state a; spawnables := spawnables a; gameList := gameList a;
     expectedReplayChunks := expectedReplayChunks a; console := console a;
     removed := removed a; rpcInstances := rpcInstances a;
     client := client a |}.

Definition setEntities (v : list Entity) (a : Application) : Application :=
  {| replayPackets := replayPackets a;
     groupedReplayPackets := groupedReplayPackets a;
     onReplayChunk := onReplayChunk a; isReplay := isReplay a;
     replayStartTime := replayStartTime a;
     currentReplayChunkReceive := currentReplayChunkReceive a;
     replayCurrentTime := replayCurrentTime a;
     prevReplayTime := prevReplayTime a; replaySpeed := replaySpeed a;
     entities := v; messageHandler := messageHandler a; state := state a;
     spawnables := spawnables a; gameList := gameList a;
     expectedReplayChunks := expectedReplayChunks a; console := console a;
     removed := removed a; rpcInstances := rpcInstances a;
     client := client a |}.

Definition setMessageHandler (v : option string) (a : Application)
  : Application :=
  {| replayPackets := replayPackets a;
     groupedReplayPackets := groupedReplayPackets a;
     onReplayChunk := onReplayChunk a; isReplay := isReplay a;
     replayStartTime := replayStartTime a;
     currentReplayChunkReceive := currentReplayChunkReceive a;
     replayCurrentTime := replayCurrentTime a;
     prevReplayTime := prevReplayTime a; replaySpeed := replaySpeed a;
     entities := entities a; messageHandler := v; state := state a;
     spawnables := spawnables a; gameList := gameList a;
     expectedReplayChunks := expectedReplayChunks a; console := console a;
     removed := removed a; rpcInstances := rpcInstances a;
     client := client a |}.

Definition setState (v : ApplicationRunningState) (a : Application)
  : Application :=
  {| replayPackets := replayPackets a;
     groupedReplayPackets := groupedReplayPackets a;
     onReplayChunk := onReplayChunk a; isReplay := isReplay a;
     replayStartTime := replayStartTime a;
     currentReplayChunkReceive := currentReplayChunkReceive a;
     replayCurrentTime := replayCurrentTime a;
     prevReplayTime := prevReplayTime a; replaySpeed := replaySpeed a;
     entities := entities a; messageHandler := messageHandler a;
     state := v; spawnables := spawnables a; gameList := gameList a;
     expectedReplayChunks := expectedReplayChunks a; console := console a;
     removed := removed a; rpcInstances := rpcInstances a;
     client := client a |}.

Definition setGameList (v : list string) (a : Application) : Application :=
  {| replayPackets := replayPackets a;
     groupedReplayPackets := groupedReplayPackets a;
     onReplayChunk := onReplayChunk a; isReplay := isReplay a;
     replayStartTime := replayStartTime a;
     currentReplayChunkReceive := currentReplayChunkReceive a;
     replayCurrentTime := replayCurrentTime a;
     prevReplayTime := prevReplayTime a; replaySpeed := replaySpeed a;
     entities := entities a; messageHandler := messageHandler a;
     state := state a; spawnables := spawnables a; gameList := v;
     expectedReplayChunks := expectedReplayChunks a; console := console a;
     removed := removed a; rpcInstances := rpcInstances a;
     client := client a |}.

Definition setExpectedReplayChunks (v : Z) (a : Application) : Application :=
  {| replayPackets := replayPackets a;
     groupedReplayPackets := groupedReplayPackets a;
     onReplayChunk := onReplayChunk a; isReplay := isReplay a;
     replayStartTime := replayStartTime a;
     currentReplayChunkReceive := currentReplayChunkReceive a;
     replayCurrentTime := replayCurrentTime a;
     prevReplayTime := prevReplayTime a; replaySpeed := replaySpeed a;
     entities := entities a; messageHandler := messageHandler a;
     state := state a; spawnables := spawnables a; gameList := gameList a;
     expectedReplayChunks := v; console := console a;
     removed := removed a; rpcInstances := rpcInstances a;
     client := client a |}.

Definition setConsole (v : list LogEntry) (a : Application) : Application :=
  {| replayPackets := replayPackets a;
     groupedReplayPackets := groupedReplayPackets a;
     onReplayChunk := onReplayChunk a; isReplay := isReplay a;
     replayStartTime := replayStartTime a;
     currentReplayChunkReceive := currentReplayChunkReceive a;
     replayCurrentTime := replayCurrentTime a;
     prevReplayTime := prevReplayTime a; replaySpeed := replaySpeed a;
     entities := entities a; messageHandler := messageHandler a;
     state := state a; spawnables := spawnables a; gameList := gameList a;
     expectedReplayChunks := expectedReplayChunks a; console := v;
     removed := removed a; rpcInstances := rpcInstances a;
     client := client a |}.

Definition setRemoved (v : list Entity) (a : Application) : Application :=
  {| replayPackets := replayPackets a;
     groupedReplayPackets := groupedReplayPackets a;
     onReplayChunk := onReplayChunk a; isReplay := isReplay a;
     replayStartTime := replayStartTime a;
     currentReplayChunkReceive := currentReplayChunkReceive a;
     replayCurrentTime := replayCurrentTime a;
     prevReplayTime := prevReplayTime a; replaySpeed := replaySpeed a;
     entities := entities a; messageHandler := messageHandler a;
     state := state a; spawnables := spawnables a; gameList := gameList a;
     expectedReplayChunks := expectedReplayChunks a; console := console a;
     removed := v; rpcInstances := rpcInstances a; client := client a |}.

Definition setRpcInstances (v : list string) (a : Application) : Application :=
  {| replayPackets := replayPackets a;
     groupedReplayPackets := groupedReplayPackets a;
     onReplayChunk := onReplayChunk a; isReplay := isReplay a;
     replayStartTime := replayStartTime a;
     currentReplayChunkReceive := currentReplayChunkReceive a;
     replayCurrentTime := replayCurrentTime a;
     prevReplayTime := prevReplayTime a; replaySpeed := replaySpeed a;
     entities := entities a; messageHandler := messageHandler a;
     state := state a; spawnables := spawnables a; gameList := gameList a;
     expectedReplayChunks := expectedReplayChunks a; console := console a;
     removed := removed a; rpcInstances := v; client := client a |}.

Definition setClient (v : option string) (a : Application) : Application :=
  {| replayPackets := replayPackets a;
     groupedReplayPackets := groupedReplayPackets a;
     onReplayChunk := onReplayChunk a; isReplay := isReplay a;
     replayStartTime := replayStartTime a;
     currentReplayChunkReceive := currentReplayChunkReceive a;
     replayCurrentTime := replayCurrentTime a;
     prevReplayTime := prevReplayTime a; replaySpeed := replaySpeed a;
     entities := entities a; messageHandler := messageHandler a;
     state := state a; spawnables := spawnables a; gameList := gameList a;
     expectedReplayChunks := expectedReplayChunks a; console := console a;
     removed := removed a; rpcInstances := rpcInstances a; client := v |}.

Definition logTo (e : LogEntry) (a : Application) : Application :=
  setConsole (console a ++ [e]) a.

(** ** Outcomes *)

(** What a call does: it returns a value; or it throws, which leaves the
    application in the state the call had reached; or what it does lies
    with code that is not part of these sources (a method of the common
    library or of the entity base class on a value its signature
    excludes) or with a number that is not finite. *)
Inductive Outcome (A : Type) : Type :=
| Returns (v : A)
| Throws (a : Application)
| Unmodelled.

Arguments Returns {A} v.
Arguments Throws {A} a.
Arguments Unmodelled {A}.

(** Sequencing: what follows a call runs when the call returns. *)
Definition andThen {A B : Type} (o : Outcome A) (f : A -> Outcome B)
  : Outcome B :=
  match o with
  | Returns v => f v
  | Throws a => Throws a
  | Unmodelled => Unmodelled
  end.

(** The application an event handler leaves behind, whether it returned
    or threw. *)
Definition stateAfter (o : Outcome Application) : option Application :=
  match o with
  | Returns a => Some a
  | Throws a => Some a
  | Unmodelled => None
  end.

(** What a call returned, seen through [f]; nothing when it did not
    return. *)
Definition returned {A B : Type} (f : A -> B) (o : Outcome A) : option B :=
  match o with
  | Returns v => Some (f v)
  | _ => None
  end.

(** ** Speed control *)

(** The getter [computedReplaySpeed]: [REPLAY_SPEEDS[this.replaySpeed]],
    [None] for [undefined]. *)
Definition computedReplaySpeed (a : Application) : option Q :=
  if (replaySpeed a <? 0)%Z then None
  else REPLAY_SPEEDS !! Z.to_nat (replaySpeed a).

(** [handleKeyDown], without [toggleUI]. *)
Definition handleKeyDown (key : string) (a : Application) : Application :=
  match state a with
  | running =>
      let a1 :=
        if String.eqb key "ArrowLeft"
        then setReplaySpeed (Z.max (replaySpeed a - 1) 0) a else a in
      if String.eqb key "ArrowRight"
      then setReplaySpeed
             (Z.min (replaySpeed a1 + 1) (Z.of_nat (List.length REPLAY_SPEEDS) - 1))
             a1
      else a1
  | _ => a
  end.

(** ** MessageHandler and the entity registry *)

(** [entities[i].id == id], where [id] is the argument as it was passed. *)
Definition idMatches (id : option Arg) (e : Entity) : bool :=
  looseEq (Some (ANum (eid e))) id.

(** The loop of [NetDestroy]: the first entity whose id matches and the
    list after [splice(i, 1)]; [None] when the loop runs to its end. *)
Fixpoint destroyFirst (id : option Arg) (es : list Entity)
  : option (Entity * list Entity) :=
  match es with
  | [] => None
  | e :: rest =>
      if idMatches id e then Some (e, rest)
      else match destroyFirst id rest with
           | Some (x, rest') => Some (x, e :: rest')
           | None => None
           end
  end.

(** [MessageHandler.NetDestroy] *)
Definition NetDestroy (id : option Arg) (a : Application) : Application :=
  match destroyFirst id (entities a) with
  | Some (e, es) => setEntities es (setRemoved (removed a ++ [e]) a)
  | None => a
  end.

(** [addEntity] *)
Definition addEntity (e : Entity) (a : Application) : Application :=
  setEntities (entities a ++ [e]) a.

(** The branch of [handleEntitySpawn] for a path that no spawnable
    matches. *)
Definition unresolvedSpawn (path : string) (a : Application) : Application :=
  if (negb (startsWith path "HPEquips") && negb (includes path "Rearm"))%bool
  then logTo (WarnNoEntityHandler path) a
  else a.

(** [handleEntitySpawn], on arguments of the types of its signature.
    [new EntityClass(this)] followed by [entity.spawn(...)] yields the
    entity with the fields it was given. *)
Definition handleEntitySpawn (id : Z) (owner path : string)
    (pos rot : Vector3) (active : bool) (a : Application) : Application :=
  match resolveEntityClass (spawnables a) path with
  | None => unresolvedSpawn path a
  | Some c =>
      addEntity {| eid := id; ownerId := owner; path := path;
                   position := pos; rotation := rot; isActive := active;
                   unitId := None; eclass := ecName c |} a
  end.

(** [MessageHandler.NetInstantiate] on the arguments of a packet, taken
    as they are.  [new Vector().set(pos)] is code of the common library,
    known here on vectors only.  [handleEntitySpawn] then throws at
    [path.trim()] or at [path.startsWith] unless the path is a string.
    When no spawnable matches, the other arguments are not looked at;
    when one does, [entity.spawn] is code of the entity base class,
    known here on arguments of the types of the signature. *)
Definition NetInstantiate (id ownerId path pos rot active : option Arg)
    (a : Application) : Outcome Application :=
  match pos, rot with
  | Some (AVec p), Some (AVec r) =>
      match path with
      | Some (AStr pth) =>
          match resolveEntityClass (spawnables a) pth with
          | None => Returns (unresolvedSpawn pth a)
          | Some _ =>
              match id, ownerId, active with
              | Some (ANum i), Some (AStr owner), Some (ABool act) =>
                  Returns (handleEntitySpawn i owner pth p r act a)
              | _, _, _ => Unmodelled
              end
          end
      | _ => Throws a
      end
  | _, _ => Unmodelled
  end.

(** [entity.setUnitId(unitId)] on the first entity whose id is
    [entityId]. *)
Fixpoint setFirstUnitId (entityId unit : Z) (es : list Entity) : list Entity :=
  match es with
  | [] => []
  | e :: rest =>
      if (eid e =? entityId)%Z then setUnitId unit e :: rest
      else e :: setFirstUnitId entityId unit rest
  end.

(** [MessageHandler.SetEntityUnitID], on arguments of the types of its
    signature. *)
Definition SetEntityUnitID (entityId unit : Z) (a : Application) : Application :=
  setEntities (setFirstUnitId entityId unit (entities a)) a.

(** [MessageHandler.SetEntityUnitID] on the arguments of a packet.  The
    entity is the first one whose id is loosely equal to the first
    argument; without one nothing happens.  [setUnitId] is code of the
    entity base class, known here on a number. *)
Definition SetEntityUnitIDArgs (entityId unitId : option Arg)
    (a : Application) : Outcome Application :=
  match List.find (idMatches entityId) (entities a) with
  | None => Returns a
  | Some e =>
      match unitId with
      | Some (ANum u) => Returns (SetEntityUnitID (eid e) u a)
      | _ => Unmodelled
      end
  end.

(** [new MessageHandler(id, this)]: the instance registers itself with
    [RPCController] under its id. *)
Definition newMessageHandler (h : string) (a : Application) : Application :=
  setMessageHandler (Some h) (setRpcInstances (rpcInstances a ++ [h]) a).

(** [RPCController.deregister]: one instance under that id leaves. *)
Fixpoint removeOne (h : string) (l : list string) : list string :=
  match l with
  | [] => []
  | x :: r => if String.eqb x h then r else x :: removeOne h r
  end.

(** ** Identity, lobbies and sessions *)

(** The [assign-id] message of [handleWSMessage]:
    [this.client = new Client(packet.id)]. *)
Definition assignId (i : string) (a : Application) : Application :=
  setClient (Some i) a.

(** [CreateLobby]: a lobby is pushed unless one with this id is listed.
    The list holds the ids of the lobbies; the delayed connection of a
    development build is left out. *)
Definition CreateLobby (g : string) (a : Application) : Application :=
  if existsb (String.eqb g) (gameList a) then a
  else setGameList (gameList a ++ [g]) a.

(** [subscribe] called with a game id.  It throws when no game of the
    list has the id, with nothing changed; and at
    [this.client.subscribe] when no [assign-id] has made a client, with
    the entities torn down and the message handler deregistered.  The
    [start()] it calls in a state other than running changes nothing
    until it is resumed ([startResumed]); the map load is left out. *)
Definition subscribe (game : string) (a : Application) : Outcome Application :=
  if existsb (String.eqb game) (gameList a) then
    let a1 := setEntities [] (setRemoved (removed a ++ entities a) a) in
    let a2 := match messageHandler a1 with
              | Some h => setRpcInstances (removeOne h (rpcInstances a1)) a1
              | None => a1
              end in
    match client a2 with
    | None => Throws a2
    | Some _ => Returns (newMessageHandler game a2)
    end
  else Throws a.

(** ** Dispatch *)

(** [args[n]] *)
Definition argAt (n : nat) (p : RPCPacket) : option Arg := args p !! n.

(** The call of the named method of [MessageHandler] with the argument
    list of the packet; a method the class does not have is a dispatch
    error. *)
Definition dispatchMessageHandler (p : RPCPacket) (a : Application)
  : Outcome Application :=
  if String.eqb (method p) "NetInstantiate" then
    NetInstantiate (head (args p)) (argAt 1 p) (argAt 2 p) (argAt 3 p)
      (argAt 4 p) (argAt 5 p) a
  else if String.eqb (method p) "NetDestroy" then
    Returns (NetDestroy (head (args p)) a)
  else if String.eqb (method p) "SetEntityUnitID" then
    SetEntityUnitIDArgs (head (args p)) (argAt 1 p) a
  else Returns (logTo (ErrDispatch p) a).

(** Modelled from the spec: [RPCController.handlePacket] of the common
    library, which is not part of these sources.  Dispatch resolves the
    handler to a registered instance and invokes the named method with
    the argument list of the packet, which it does not validate; a
    packet for an unregistered handler or an unknown method is logged
    and dropped.  What the controller does when the method throws is not
    said, nor what it does with a call of a method declared for sending
    ([@RPC("out")]).  The handlers of this model are the instances of
    [MessageHandler] and the application itself, whose one incoming
    method is [CreateLobby] (on a string; [new VTOLLobby(id)] is code of
    the common library).  A call on another class (an entity, a manager)
    acts on state outside the registry, and entities are destroyed only
    by an explicit despawn or a session switch. *)
Definition handlePacket (p : RPCPacket) (a : Application)
  : Outcome Application :=
  if String.eqb (className p) "MessageHandler" then
    match id p with
    | Some h =>
        if existsb (String.eqb h) (rpcInstances a)
        then match dispatchMessageHandler p a with
             | Returns a' => Returns a'
             | _ => Unmodelled
             end
        else Returns (logTo (ErrDispatch p) a)
    | None => Returns (logTo (ErrDispatch p) a)
    end
  else if String.eqb (className p) "Application" then
    if String.eqb (method p) "CreateLobby" then
      match head (args p) with
      | Some (AStr g) => Returns (CreateLobby g a)
      | _ => Unmodelled
      end
    else if (String.eqb (method p) "requestJoinLobby"
             || String.eqb (method p) "requestJoinPrivateLobby"
             || String.eqb (method p) "genNewAlphaKey")%bool
    then Unmodelled
    else Returns (logTo (ErrDispatch p) a)
  else Returns a.

(** ** Ingestion of replay chunks *)

(** [requestReplay]: it throws at [this.client.replayGame] when no
    [assign-id] has made a client; otherwise the counter restarts and
    the callback is installed.  The promise and [onProgress] are left
    out. *)
Definition requestReplay (a : Application) : Outcome Application :=
  match client a with
  | None => Throws a
  | Some _ => Returns (setOnReplayChunk true (setCurrentReplayChunkReceive 0 a))
  end.

(** The body of the callback [onReplayChunk]. *)
Definition replayChunkCallback (a : Application) : Application :=
  let a1 := setCurrentReplayChunkReceive (currentReplayChunkReceive a + 1) a in
  if (currentReplayChunkReceive a1 =? expectedReplayChunks a1)%Z
  then setOnReplayChunk false a1
  else a1.

Definition msPerChunk : Q := f64mul 30 1000.

(** [this.currentReplayChunkReceive * msPerChunk + tsStep * idx] *)
Definition syntheticTimestamp (chunk : Z) (tsStep : Q) (idx : nat) : Q :=
  f64add (f64mul (inject_Z chunk) msPerChunk)
         (f64mul tsStep (inject_Z (Z.of_nat idx))).

(** The interpolation loop of [handleReplayChunk]. *)
Definition interpolateTimestamps (chunk : Z) (rpcs : list RPCPacket)
  : list RPCPacket :=
  let tsStep := f64div msPerChunk (inject_Z (Z.of_nat (List.length rpcs))) in
  imap (fun idx rpc => withTimestamp (syntheticTimestamp chunk tsStep idx) rpc)
       rpcs.

(** One turn of the grouping loop: the bucket of the second is created
    when absent, and the packet is pushed at its end. *)
Definition groupPacket (now : Q) (g : gmap Z (list RPCPacket)) (rpc : RPCPacket)
  : gmap Z (list RPCPacket) :=
  let sec := secondOf (timestampOr now rpc) in
  <[ sec := default [] (g !! sec) ++ [rpc] ]> g.

(** [this.groupedReplayPackets[Math.floor(t / 1000)] ?? []] *)
Definition bucketAt (g : gmap Z (list RPCPacket)) (t : Q) : list RPCPacket :=
  default [] (g !! secondOf t).

(** The packets of a decoded chunk as the store keeps them: with
    interpolated timestamps when the first packet has none.  The store
    and the buckets hold the packet objects themselves, so both see the
    timestamps written by the interpolation. *)
Definition resolveChunk (chunk : Z) (rpcs : list RPCPacket) : list RPCPacket :=
  match rpcs with
  | [] => []
  | p0 :: _ =>
      match timestamp p0 with
      | None => interpolateTimestamps chunk rpcs
      | Some _ => rpcs
      end
  end.

(** [handleReplayChunk] on the packets [decompressRpcPackets] returned.
    An empty batch throws at [rpcs[0].timestamp], after a [push] of
    nothing. *)
Definition handleReplayChunk (now : Q) (rpcs : list RPCPacket)
    (a : Application) : Outcome Application :=
  match rpcs with
  | [] => Throws a
  | p0 :: _ =>
      let rpcs' := resolveChunk (currentReplayChunkReceive a) rpcs in
      let a1 := setReplayPackets (replayPackets a ++ rpcs') a in
      let a2 := match timestamp p0 with
                | None => logTo (ErrChunkNoTimestamp (currentReplayChunkReceive a)) a1
                | Some _ => a1
                end in
      let a3 := setGroupedReplayPackets
                  (fold_left (groupPacket now) rpcs' (groupedReplayPackets a2))
                  a2 in
      Returns (if onReplayChunk a3 then replayChunkCallback a3
               else logTo WarnNoReplayChunkCallback a3)
  end.

(** [beginReplay].  An empty store throws at
    [replayPackets[0].timestamp], after [isReplay] was set.  The
    [start()] it calls changes nothing until it is resumed
    ([startResumed]); the map load is left out. *)
Definition beginReplay (session : string) (a : Application)
  : Outcome Application :=
  let a1 := setIsReplay true a in
  match replayPackets a1 with
  | [] => Throws a1
  | p0 :: _ =>
      match timestamp p0 with
      | None => Returns (logTo ErrReplayPacket0NoTimestamp a1)
      | Some t =>
          Returns (newMessageHandler session
                     (setReplayCurrentTime t (setReplayStartTime t a1)))
      end
  end.

(** ** The replay tick *)

(** [(packet.timestamp ?? Date.now()) - this.replayStartTime] *)
Definition fromRecordingStart (now : Q) (a : Application) (p : RPCPacket) : Q :=
  f64sub (timestampOr now p) (replayStartTime a).

(** [this.computedReplaySpeed > 0] and [this.computedReplaySpeed < 0];
    both are false on [undefined]. *)
Definition speedPositive (a : Application) : bool :=
  match computedReplaySpeed a with Some s => Qltb 0 s | None => false end.

Definition speedNegative (a : Application) : bool :=
  match computedReplaySpeed a with Some s => Qltb s 0 | None => false end.

(** [packetIsInTimeframe]; the [undefined] it returns at speed 0 is
    falsy and reads [false] here. *)
Definition packetIsInTimeframe (now : Q) (a : Application) (p : RPCPacket)
  : bool :=
  let t := fromRecordingStart now a p in
  if speedPositive a then
    (Qleb t (replayCurrentTime a) && Qltb (prevReplayTime a) t)%bool
  else if speedNegative a then
    (Qleb (replayCurrentTime a) t && Qltb t (prevReplayTime a))%bool
  else false.

(** What an undo handler returns: [boolean | RPCPacket]. *)
Inductive HandlerResult :=
| ResBool (b : bool)
| ResPacket (p : RPCPacket).

(** [ReplaceRPCHandler]; [hClassName] and [hMethod] are its [className]
    and [method].  A handler acts on the application, and throws when it
    calls a method of an absent [messageHandler]. *)
Record ReplaceRPCHandler := {
  hClassName : string;
  hMethod : string;
  handler : Application -> RPCPacket -> Outcome (Application * HandlerResult)
}.

(** The predicate of the [find] over [app.replayPackets]. *)
Definition isSpawnPacketFor (i : option Arg) (p : RPCPacket) : bool :=
  (String.eqb (className p) "MessageHandler"
   && String.eqb (method p) "NetInstantiate"
   && looseEq (head (args p)) i)%bool.

Definition undoNetInstantiate (app : Application) (rpc : RPCPacket)
  : Outcome (Application * HandlerResult) :=
  match messageHandler app with
  | None => Throws app
  | Some _ => Returns (NetDestroy (head (args rpc)) app, ResBool false)
  end.

Definition undoNetDestroy (app : Application) (rpc : RPCPacket)
  : Outcome (Application * HandlerResult) :=
  let i := head (args rpc) in
  match List.find (isSpawnPacketFor i) (replayPackets app) with
  | None => Returns (logTo (ErrNoSpawnPacket i) app, ResBool false)
  | Some spawnPacket => Returns (app, ResPacket spawnPacket)
  end.

Definition replaceRPCHandlers : list ReplaceRPCHandler :=
  [ {| hClassName := "MessageHandler"; hMethod := "NetInstantiate";
       handler := undoNetInstantiate |};
    {| hClassName := "MessageHandler"; hMethod := "NetDestroy";
       handler := undoNetDestroy |} ].

(** [replaceRPCHandlers.find(h => h.className == packet.className &&
    h.method == packet.method)] *)
Definition findReplaceHandler (packet : RPCPacket) : option ReplaceRPCHandler :=
  List.find (fun h => (String.eqb (hClassName h) (className packet)
                       && String.eqb (hMethod h) (method packet))%bool)
            replaceRPCHandlers.

(** The callback of the [forEach] of [runReplay], on the application and
    the array [packets] built so far. *)
Definition replayVisit (now : Q) (st : Application * list RPCPacket)
    (packet : RPCPacket) : Outcome (Application * list RPCPacket) :=
  let (a, packets) := st in
  if negb (packetIsInTimeframe now a packet) then Returns st
  else if speedNegative a then
    match findReplaceHandler packet with
    | Some h =>
        andThen (handler h a packet)
          (fun r =>
             match r with
             | (a', ResBool false) => Returns (a', packets)
             | (a', ResPacket res) => Returns (a', packets ++ [res])
             | (a', ResBool true) => Returns (a', packets ++ [packet])
             end)
    | None => Returns (a, packets ++ [packet])
    end
  else Returns (a, packets ++ [packet]).

Fixpoint replayForEach (now : Q) (candidates : list RPCPacket)
    (st : Application * list RPCPacket)
  : Outcome (Application * list RPCPacket) :=
  match candidates with
  | [] => Returns st
  | packet :: rest =>
      andThen (replayVisit now st packet) (replayForEach now rest)
  end.

(** The [expectedDt] a tick uses: the nominal frame above one second. *)
Definition clampDt (expectedDt : Q) : Q :=
  if Qltb 1000 expectedDt then f64div 1000 60 else expectedDt.

(** [this.replayCurrentTime + expectedDt * this.computedReplaySpeed],
    the virtual time a tick moves to. *)
Definition nextReplayTime (expectedDt speed : Q) (a : Application) : Q :=
  f64add (replayCurrentTime a) (f64mul (clampDt expectedDt) speed).

(** The first part of [runReplay]: the warning and the advance of the
    clock. *)
Definition replayAdvance (expectedDt speed : Q) (a : Application)
  : Application :=
  let a0 := if Qltb 1000 expectedDt
            then logTo (WarnExcessiveDt expectedDt) a else a in
  setReplayCurrentTime (nextReplayTime expectedDt speed a0) a0.

(** [[...currentPacketGroup, ...prevPacketGroup]] *)
Definition replayCandidates (a : Application) : list RPCPacket :=
  bucketAt (groupedReplayPackets a) (replayCurrentTime a)
  ++ bucketAt (groupedReplayPackets a) (prevReplayTime a).

(** The clock advance and the [forEach]: the application after the loop
    and the array [packets] the tick goes on to dispatch.  At an
    [undefined] speed the clock becomes NaN. *)
Definition replayCollect (now expectedDt : Q) (a : Application)
  : Outcome (Application * list RPCPacket) :=
  match computedReplaySpeed a with
  | None => Unmodelled
  | Some speed =>
      let a1 := replayAdvance expectedDt speed a in
      replayForEach now (replayCandidates a1) (a1, [])
  end.

(** [packets.forEach(packet => RPCController.handlePacket(packet))] *)
Fixpoint dispatchAll (packets : list RPCPacket) (a : Application)
  : Outcome Application :=
  match packets with
  | [] => Returns a
  | p :: rest => andThen (handlePacket p a) (dispatchAll rest)
  end.

(** [runReplay]: the application after the tick and the returned
    [expectedDt * speed]. *)
Definition runReplay (now expectedDt : Q) (a : Application)
  : Outcome (Application * Q) :=
  match computedReplaySpeed a with
  | None => Unmodelled
  | Some speed =>
      andThen (replayCollect now expectedDt a)
        (fun r =>
           andThen (dispatchAll (snd r) (fst r))
             (fun a3 =>
                Returns (setPrevReplayTime (replayCurrentTime a3) a3,
                         f64mul (clampDt expectedDt) speed)))
  end.

(** The array [packets] of a tick: what [runReplay] hands to the
    dispatcher, in order, when its loop returns. *)
Definition replayDispatched (now expectedDt : Q) (a : Application)
  : option (list RPCPacket) :=
  match replayCollect now expectedDt a with
  | Returns (_, packets) => Some packets
  | _ => None
  end.

(** [run], the frame: the replay ticks when [isReplay] holds.  [dt] is
    [Date.now() - this.prevFrameTime].  The updates of the entities and
    of the managers act on state outside the registry; the lobbies of
    the game list are taken to be open, so the filter keeps them. *)
Definition run (now dt : Q) (a : Application) : Outcome Application :=
  if isReplay a
  then andThen (runReplay now dt a) (fun r => Returns (fst r))
  else Returns a.

(** [start] is asynchronous: up to [await this.sceneManager.init(...)]
    it changes nothing of this state.  [startResumed] is the rest of
    its body, which runs when the scene is ready: the state becomes
    running and [run()] makes the first frame. *)
Definition startResumed (now dt : Q) (a : Application) : Outcome Application :=
  run now dt (setState running a).

(** The ids of the live entities, in the order of the list. *)
Definition liveIds (a : Application) : list Z := map eid (entities a).

(** The application an event handler leaves behind; [handleReplayChunk]
    always leaves one. *)
Definition settled (a : Application) (o : Outcome Application) : Application :=
  match stateAfter o with Some a' => a' | None => a end.

(** Chunks handled one after the other, each with the clock reading of
    its arrival.  A chunk whose handling throws leaves the application
    as it was, and the next chunk is handled. *)
Fixpoint ingestChunks (chunks : list (Q * list RPCPacket)) (a : Application)
  : Application :=
  match chunks with
  | [] => a
  | (now, rpcs) :: rest =>
      ingestChunks rest (settled a (handleReplayChunk now rpcs a))
  end.

(** The packets these chunks bring into the store, in the order of their
    ingestion, each with the clock reading at the arrival of its chunk. *)
Fixpoint ingestLog (chunks : list (Q * list RPCPacket)) (a : Application)
  : list (Q * RPCPacket) :=
  match chunks with
  | [] => []
  | (now, rpcs) :: rest =>
      map (fun p => (now, p))
          (resolveChunk (currentReplayChunkReceive a) rpcs)
      ++ ingestLog rest (settled a (handleReplayChunk now rpcs a))
  end.


(** The search for the spawn packet in the words of the spec: backward
    in time from the destroy packet.  Among the instantiate packets of
    the store with the same entity id and a timestamp not after that of
    the destroy packet, the latest one; of two with the same timestamp,
    the one stored last. *)
Definition specFindSpawnBackward (now : Q) (store : list RPCPacket)
    (destroy : RPCPacket) : option RPCPacket :=
  fold_left
    (fun best q =>
       if (isSpawnPacketFor (head (args destroy)) q
           && Qleb (timestampOr now q) (timestampOr now destroy))%bool
       then match best with
            | Some b =>
                if Qleb (timestampOr now b) (timestampOr now q)
                then Some q else best
            | None => Some q
            end
       else best)
    store None.

(** ** Events

    What reaches the application from outside: the [assign-id] message,
    a replay request, a decoded replay chunk, the start of a replay, the
    scene getting ready for a [start()] that waits for it, an animation
    frame ([run]), a key press, a live RPC packet and a session switch.
    An event whose handler throws leaves the state the handler had
    reached, and later events act on that state.  Every list of events
    is a history here, also one the program cannot produce: the browser
    makes no frame before a [start()] has been resumed, and none after a
    frame that threw, which never reaches [requestAnimationFrame].  What
    holds after every list of events holds after those of the
    program. *)
Inductive Event :=
| EvAssignId (i : string)
| EvRequestReplay
| EvChunk (now : Q) (rpcs : list RPCPacket)
| EvBeginReplay (session : string)
| EvStartResumed (now dt : Q)
| EvFrame (now dt : Q)
| EvKey (key : string)
| EvPacket (p : RPCPacket)
| EvSubscribe (game : string).

(** The application after an event; [None] when it is [Unmodelled]. *)
Definition step (e : Event) (a : Application) : option Application :=
  match e with
  | EvAssignId i => Some (assignId i a)
  | EvRequestReplay => stateAfter (requestReplay a)
  | EvChunk now rpcs => stateAfter (handleReplayChunk now rpcs a)
  | EvBeginReplay session => stateAfter (beginReplay session a)
  | EvStartResumed now dt => stateAfter (startResumed now dt a)
  | EvFrame now dt => stateAfter (run now dt a)
  | EvKey key => Some (handleKeyDown key a)
  | EvPacket p => stateAfter (handlePacket p a)
  | EvSubscribe game => stateAfter (subscribe game a)
  end.

Fixpoint steps (es : list Event) (a : Application) : option Application :=
  match es with
  | [] => Some a
  | e :: rest =>
      match step e a with
      | None => None
      | Some a' => steps rest a'
      end
  end.

(** Two applications with the same clock, speed, store, message
    handler, registered instances and spawnables. *)
Record SameReplay (a b : Application) : Prop := {
  sameCurrent : replayCurrentTime a = replayCurrentTime b;
  samePrev : prevReplayTime a = prevReplayTime b;
  sameStart : replayStartTime a = replayStartTime b;
  sameSpeed : replaySpeed a = replaySpeed b;
  samePackets : replayPackets a = replayPackets b;
  sameGrouped : groupedReplayPackets a = groupedReplayPackets b;
  sameHandler : messageHandler a = messageHandler b;
  sameInstances : rpcInstances a = rpcInstances b;
  sameSpawnables : spawnables a = spawnables b
}.

(** ** Key presses *)

Definition pressKeys (keys : list string) (a : Application) : Application :=
  fold_left (fun s k => handleKeyDown k s) keys a.

Definition speedInRange (a : Application) : Prop :=
  0 <= replaySpeed a <= Z.of_nat (List.length REPLAY_SPEEDS) - 1.

(** ** Scenarios used by the examples *)

Definition zeroVec : Vector3 := {| vx := 0; vy := 0; vz := 0 |}.

(** A [NetInstantiate] packet for the handler instance ["g"]. *)
Definition instPacket (i : Z) (pth : string) (t : Q) : RPCPacket :=
  {| className := "MessageHandler"; method := "NetInstantiate";
     args := [ANum i; AStr "0"; AStr pth; AVec zeroVec; AVec zeroVec;
              ABool true];
     id := Some "g"; timestamp := Some t |}.

(** A [NetDestroy] packet for the handler instance ["g"]. *)
Definition destroyPacket (i : Z) (t : Q) : RPCPacket :=
  {| className := "MessageHandler"; method := "NetDestroy";
     args := [ANum i]; id := Some "g"; timestamp := Some t |}.

(** A packet for an entity instance, which has no undo handler. *)
Definition updatePacket (t : option Q) : RPCPacket :=
  {| className := "AIAirVehicle"; method := "Spawn"; args := [];
     id := Some "7"; timestamp := t |}.

(** The application with [AIAirVehicle] as its only spawnable: the
    [spawnFor] tables of the other four classes are not in the sources,
    and the scenarios below spawn paths of [AIAirVehicle] only. *)
Definition demoApp : Application := newApplication [AIAirVehicle].

Definition demoEntity (i : Z) : Entity :=
  {| eid := i; ownerId := "0"; path := "Units/Allied/E-4";
     position := zeroVec; rotation := zeroVec; isActive := true;
     unitId := None; eclass := "AIAirVehicle" |}.

(** The application after the [assign-id] message. *)
Definition demoClient : Application := assignId "me" demoApp.

(** A replay of three chunks, requested: the client expects three
    chunks and [requestReplay] has returned. *)
Definition demoReplayApp : Application :=
  settled demoClient (requestReplay (setExpectedReplayChunks 3 demoClient)).

Definition demoChunk : list RPCPacket :=
  [updatePacket None; updatePacket None; updatePacket None].

(** A recording of one chunk: an update at 0 ms and the instantiation of
    entity 7 at 400 ms.  The replay begins and [start()] is resumed, its
    first frame taking no time; and the same with a forward tick of
    900 ms followed by four presses of the left arrow (speed -1). *)
Definition demoStore : list RPCPacket :=
  [updatePacket (Some 0%Q); instPacket 7 "Units/Allied/E-4" 400].

Definition demoStart : list Event :=
  [EvAssignId "me"; EvRequestReplay; EvChunk 0 demoStore; EvBeginReplay "g";
   EvStartResumed 0 0].

Definition fourLeft : list Event :=
  [EvKey "ArrowLeft"; EvKey "ArrowLeft"; EvKey "ArrowLeft"; EvKey "ArrowLeft"].


(** A recording in which entity 5 is destroyed at 1000 ms and an entity
    with the same id is instantiated at 5000 ms.  The replay runs forward
    to 1500 ms and is then turned to speed -1. *)
Definition lateStore : list RPCPacket :=
  [updatePacket (Some 0%Q); destroyPacket 5 1000;
   instPacket 5 "Units/Allied/E-4" 5000].

Definition demoLate : list Event :=
  [EvAssignId "me"; EvRequestReplay; EvChunk 0 lateStore; EvBeginReplay "g";
   EvStartResumed 0 0; EvFrame 0 1000; EvFrame 0 500] ++ fourLeft.

(** A recording in which entity 7 is instantiated at 400 ms and destroyed
    at 600 ms; the replay runs forward for 900 ms in one tick, is turned
    to speed -1 and runs back for 900 ms in one tick. *)
Definition crossStore : list RPCPacket :=
  [updatePacket (Some 0%Q); instPacket 7 "Units/Allied/E-4" 400;
   destroyPacket 7 600].

Definition crossStart : list Event :=
  [EvAssignId "me"; EvRequestReplay; EvChunk 0 crossStore; EvBeginReplay "g";
   EvStartResumed 0 0].

(** ** Further functions of the application *)

(** [getEntityById]: [entities.find(e => e.id == id)] *)
Definition getEntityById (i : Z) (a : Application) : option Entity :=
  List.find (fun e => (eid e =? i)%Z) (entities a).

(** [getEntityByUnitId]: [entities.find(e => e.unitId == unitId)]; an
    entity without a unit id matches no number. *)
Definition getEntityByUnitId (u : Z) (a : Application) : option Entity :=
  List.find (fun e => match unitId e with
                      | Some v => (v =? u)%Z
                      | None => false
                      end)
            (entities a).

(** The binary branch of [handleWSMessage]: a frame whose first six
    bytes spell REPLAY goes to [handleReplayChunk], which drops these
    six bytes before decompressing; any other frame goes to
    [RPCController.handlePacket] whole. *)
Inductive BinaryRoute :=
| ToReplayChunk (payload : list ascii)
| ToHandlePacket (bytes : list ascii).

Definition routeBinary (bytes : list ascii) : BinaryRoute :=
  let headerBytes := firstn (String.length "REPLAY") bytes in
  let header := string_of_list_ascii headerBytes in
  if String.eqb header "REPLAY"
  then ToReplayChunk (skipn (String.length "REPLAY") bytes)
  else ToHandlePacket bytes.

(** Every packet of a bucket that carries a timestamp lies in the bucket
    of its second. *)
Definition bucketsPlaced (g : gmap Z (list RPCPacket)) : Prop :=
  forall s p t,
    In p (default [] (g !! s)) -> timestamp p = Some t -> secondOf t = s.

(** A recording with an instantiation at 1500 ms, replayed at speed 8
    (three presses of the right arrow). *)
Definition skipStore : list RPCPacket :=
  [updatePacket (Some 0%Q); instPacket 7 "Units/Allied/E-4" 1500;
   updatePacket (Some 2500%Q)].

Definition skipEvents : list Event :=
  [EvAssignId "me"; EvRequestReplay; EvChunk 0 skipStore; EvBeginReplay "g";
   EvStartResumed 0 0;
   EvKey "ArrowRight"; EvKey "ArrowRight"; EvKey "ArrowRight"].

(** * The text overlay: geometry and hashing helpers *)

Module TextOverlay.

(** The edges of a [DOMRect] that the overlay code reads. *)
Record DOMRect := { top : Q; bottom : Q; left : Q; right : Q }.

(** [elmOverlap] *)
Definition elmOverlap (domRect1 domRect2 : DOMRect) : bool :=
  negb (Qltb (bottom domRect2) (top domRect1)
        || Qltb (right domRect1) (left domRect2)
        || Qltb (bottom domRect1) (top domRect2)
        || Qltb (right domRect2) (left domRect1))%bool.

(** [isInBounds], on the bounding rectangle of the overlay; [None] is
    an overlay whose rectangle was never measured. *)
Definition isInBounds (boundingRect : option DOMRect) (x y : Q) : bool :=
  match boundingRect with
  | None => false
  | Some r =>
      (Qltb (left r) x && Qltb x (right r)
       && Qltb (top r) y && Qltb y (bottom r))%bool
  end.

(** [x | 0]: the signed 32-bit integer congruent to [x]. *)
Definition toInt32 (x : Z) : Z := (x + 2 ^ 31) mod 2 ^ 32 - 2 ^ 31.

(** The loop of [hashCode] over the UTF-16 code units of the string;
    [hash << 5] wraps to 32 bits, the subtraction and the addition are
    exact, and [hash |= 0] wraps again. *)
Fixpoint hashLoop (hash : Z) (codes : list Z) : Z :=
  match codes with
  | [] => hash
  | chr :: rest =>
      hashLoop (toInt32 (toInt32 (hash * 2 ^ 5) - hash + chr)) rest
  end.

(** [hashCode]; the early return on the empty string yields the same 0
    as the loop. *)
Definition hashCode (codes : list Z) : Z :=
  match codes with
  | [] => 0
  | _ => hashLoop 0 codes
  end.

(** The polynomial [c0 * 31^(n-1) + ... + c(n-1)], unbounded. *)
Definition poly31 (codes : list Z) : Z :=
  fold_left (fun h c => 31 * h + c) codes 0.

End TextOverlay.

(** * The unit trail *)

Module SimpleUnitTrail.

Record UnitTrailPoint := { position : Vector3; time : Q }.

Definition TRAIL_RATE : Q := f64div 1000 5.

(** The lists of a trail, the entity it follows, and whether
    [linePoints] is the very array the static cache holds for the
    entity ([init] assigns the cached array itself). *)
Record Trail := {
  entityId : Z;
  linePoints : list UnitTrailPoint;
  hiddenLinePoints : list UnitTrailPoint;
  hasInit : bool;
  lastTrailTime : Q;
  sharesCache : bool
}.

(** A change of [linePoints] in place shows in the cache when the array
    is shared with it. *)
Definition sync (t : Trail) (cache : gmap Z (list UnitTrailPoint))
  : gmap Z (list UnitTrailPoint) :=
  if sharesCache t then <[ entityId t := linePoints t ]> cache else cache.

(** [remove], without the scene. *)
Definition remove (t : Trail) (cache : gmap Z (list UnitTrailPoint))
  : Trail * gmap Z (list UnitTrailPoint) :=
  let cache' :=
    match linePoints t with
    | [] => cache
    | _ => <[ entityId t := hiddenLinePoints t ++ linePoints t ]> cache
    end in
  ({| entityId := entityId t; linePoints := []; hiddenLinePoints := [];
      hasInit := hasInit t; lastTrailTime := lastTrailTime t;
      sharesCache := false |}, cache').

(** [init], without the scene; [now] is [Application.time]. *)
Definition init (now : Q) (t : Trail) (cache : gmap Z (list UnitTrailPoint))
  : Trail :=
  match cache !! entityId t with
  | Some points =>
      {| entityId := entityId t; linePoints := points;
         hiddenLinePoints := hiddenLinePoints t; hasInit := true;
         lastTrailTime := now; sharesCache := true |}
  | None =>
      {| entityId := entityId t; linePoints := linePoints t;
         hiddenLinePoints := hiddenLinePoints t; hasInit := true;
         lastTrailTime := now; sharesCache := sharesCache t |}
  end.

(** [reset] *)
Definition reset (now : Q) (t : Trail) (cache : gmap Z (list UnitTrailPoint))
  : Trail * gmap Z (list UnitTrailPoint) :=
  let (t', cache') := remove t cache in (init now t' cache', cache').

(** The first trimming loop of [run]: while more points are visible
    than the target, the oldest one moves to the end of the hidden
    ones. *)
Fixpoint hideExcess (target : Z) (hidden line : list UnitTrailPoint)
  : list UnitTrailPoint * list UnitTrailPoint :=
  match line with
  | [] => (hidden, [])
  | deleted :: rest =>
      if (target <? Z.of_nat (List.length line))%Z
      then hideExcess target (hidden ++ [deleted]) rest
      else (hidden, line)
  end.

(** The second trimming loop of [run], on the hidden points in reverse
    (the last hidden point first): while fewer points are visible than
    the target, the last hidden one moves to the front of the line. *)
Fixpoint restoreHidden (target : Z) (hiddenRev line : list UnitTrailPoint)
  : list UnitTrailPoint * list UnitTrailPoint :=
  match hiddenRev with
  | [] => ([], line)
  | restored :: rest =>
      if (Z.of_nat (List.length line) <? target)%Z
      then restoreHidden target rest (restored :: line)
      else (hiddenRev, line)
  end.

(** Both trimming loops, for a target that [parseInt] read as a number
    not below 0.  (Below 0 the first loop does not end: the length of
    the emptied line is still above the target.) *)
Definition trim (target : Z) (hidden line : list UnitTrailPoint)
  : list UnitTrailPoint * list UnitTrailPoint :=
  let (hidden1, line1) := hideExcess target hidden line in
  let (hiddenRev, line2) := restoreHidden target (rev hidden1) line1 in
  (rev hiddenRev, line2).

Definition setLine (line : list UnitTrailPoint) (t : Trail) : Trail :=
  {| entityId := entityId t; linePoints := line;
     hiddenLinePoints := hiddenLinePoints t; hasInit := hasInit t;
     lastTrailTime := lastTrailTime t; sharesCache := sharesCache t |}.

Definition setLastTrailTime (v : Q) (t : Trail) : Trail :=
  {| entityId := entityId t; linePoints := linePoints t;
     hiddenLinePoints := hiddenLinePoints t; hasInit := hasInit t;
     lastTrailTime := v; sharesCache := sharesCache t |}.

(** [extendTrail], without the geometry. *)
Definition extendTrail (now : Q) (pos : Vector3) (t : Trail) : Trail :=
  setLastTrailTime now
    (setLine (linePoints t ++ [{| position := pos; time := now |}]) t).

(** The rewind loop of [run] on the line in reverse (the last point
    first): while the last point lies after [now] and is not the only
    one, [retractTrail] pops it. *)
Fixpoint rewind (now : Q) (lineRev : list UnitTrailPoint)
  : list UnitTrailPoint :=
  match lineRev with
  | [] => []
  | previousPoint :: rest =>
      match rest with
      | [] => lineRev
      | _ => if Qltb now (time previousPoint) then rewind now rest
             else lineRev
      end
  end.

(** [previousPoint.position.set(...)] on the last point. *)
Definition moveLast (pos : Vector3) (lineRev : list UnitTrailPoint)
  : list UnitTrailPoint :=
  match lineRev with
  | [] => []
  | previousPoint :: rest =>
      {| position := pos; time := time previousPoint |} :: rest
  end.

(** The first part of [run], up to the trimming: the trail is extended
    when more than [TRAIL_RATE] has passed, rewound to [now], and its
    last point follows the entity.  A rewind that popped a point has
    set [lastTrailTime]. *)
Definition follow (now : Q) (pos : Vector3) (t : Trail) : Trail :=
  let t1 := if Qltb TRAIL_RATE (f64sub now (lastTrailTime t))
            then extendTrail now pos t else t in
  let lineRev := rev (linePoints t1) in
  let rewound := rewind now lineRev in
  let t2 := if (List.length rewound <? List.length lineRev)%nat
            then setLastTrailTime now t1 else t1 in
  setLine (rev (moveLast pos rewound)) t2.

(** [run], without the geometry.  [target] is what [parseInt] made of
    the setting: [None] for NaN, which no comparison satisfies.  The
    result is [None] when the target is negative, where the first
    trimming loop does not end. *)
Definition run (now : Q) (pos : Vector3) (target : option Z) (t : Trail)
    (cache : gmap Z (list UnitTrailPoint))
  : option (Trail * gmap Z (list UnitTrailPoint)) :=
  if negb (hasInit t) then Some (t, cache)
  else
    let t1 := follow now pos t in
    match target with
    | None => Some (t1, sync t1 cache)
    | Some n =>
        if (n <? 0)%Z then None
        else
          let (hidden, line) :=
            trim n (hiddenLinePoints t1) (linePoints t1) in
          let t2 :=
            {| entityId := entityId t1; linePoints := line;
               hiddenLinePoints := hidden; hasInit := hasInit t1;
               lastTrailTime := lastTrailTime t1;
               sharesCache := sharesCache t1 |} in
          Some (t2, sync t2 cache)
    end.

End SimpleUnitTrail.

(** * Properties *)

(** A fact on the state an evaluation returns follows from the
    evaluation itself. *)
Lemma fmap_Some_eq {A B} (m : option A) (f : A -> B) (x : A) (y : B) :
  m = Some x -> f <$> m = Some y -> f x = y.
Proof. intros -> [= E]. exact E. Qed.

Ltac by_evaluation H f :=
  apply (fmap_Some_eq _ f _ _ H); vm_compute; reflexivity.

(** ** Comparisons and arithmetic *)

Lemma Qleb_le x y : Qleb x y = true <-> (x <= y)%Q.
Proof. apply Qle_bool_iff. Qed.

Lemma Qltb_lt x y : Qltb x y = true <-> (x < y)%Q.
Proof.
  unfold Qltb. rewrite negb_true_iff. split.
  - intros H. apply Qnot_le_lt. intros Hle.
    apply Qle_bool_iff in Hle. congruence.
  - intros H. destruct (Qle_bool y x) eqn:E; [|reflexivity].
    apply Qle_bool_iff in E. exfalso. apply (Qlt_not_le _ _ H E).
Qed.

Lemma Qltb_ge x y : Qltb x y = false <-> (y <= x)%Q.
Proof.
  unfold Qltb. rewrite negb_false_iff. apply Qle_bool_iff.
Qed.

(** A product with 0 is 0, and a sum with 0 is the other operand. *)
Lemma f64mul_0_r x : f64mul x 0 = 0%Q.
Proof.
  unfold f64mul, round64. cbn [Qmult Qnum Qden].
  rewrite Z.mul_0_r. reflexivity.
Qed.

Lemma f64add_0_r x : f64add x 0 = x.
Proof. reflexivity. Qed.

(** ** C7, C8: the speed table *)

Lemma REPLAY_SPEEDS_length : List.length REPLAY_SPEEDS = 13%nat.
Proof. reflexivity. Qed.

Lemma handleKeyDown_range key a :
  speedInRange a -> speedInRange (handleKeyDown key a).
Proof.
  unfold speedInRange, handleKeyDown. rewrite REPLAY_SPEEDS_length.
  intros H. destruct (state a); try exact H.
  destruct (String.eqb key "ArrowLeft"), (String.eqb key "ArrowRight");
    simpl; lia.
Qed.

Lemma pressKeys_range keys : forall a,
  speedInRange a -> speedInRange (pressKeys keys a).
Proof.
  unfold pressKeys.
  induction keys as [|k keys IH]; intros a H; simpl; [exact H|].
  apply IH, handleKeyDown_range, H.
Qed.

(** C8.  Whatever keys are pressed, and however many, the speed index
    stays within [0, tableLength - 1]; at index 0 a decrement leaves it
    at 0, and at the last index an increment leaves it there. *)
Theorem speed_index_clamped (keys : list string) (a : Application) :
  speedInRange a ->
  speedInRange (pressKeys keys a)
  /\ (replaySpeed a = 0 -> replaySpeed (handleKeyDown "ArrowLeft" a) = 0)
  /\ (replaySpeed a = Z.of_nat (List.length REPLAY_SPEEDS) - 1 ->
      replaySpeed (handleKeyDown "ArrowRight" a)
      = Z.of_nat (List.length REPLAY_SPEEDS) - 1).
Proof.
  intros H. split; [apply pressKeys_range, H|].
  unfold handleKeyDown. rewrite REPLAY_SPEEDS_length.
  split; intros E; destruct (state a); simpl; rewrite ?E; try reflexivity.
Qed.

Lemma speed_index_clamped_witness :
  speedInRange (setState running demoApp)
  /\ replaySpeed
       (pressKeys (repeat "ArrowLeft" 20%nat) (setState running demoApp)) = 0
  /\ replaySpeed
       (pressKeys (repeat "ArrowRight" 20%nat) (setState running demoApp)) = 12
  /\ speedInRange
       (pressKeys ["ArrowRight"; "f"; "ArrowLeft"] (setState running demoApp)).
Proof.
  assert (H : speedInRange (setState running demoApp))
    by (unfold speedInRange; simpl; lia).
  split; [exact H|]. split; [reflexivity|]. split; [reflexivity|].
  apply (speed_index_clamped ["ArrowRight"; "f"; "ArrowLeft"] _ H).
Defined.

(** The index reached by key presses always selects a speed. *)
Lemma speed_defined a :
  speedInRange a -> exists s, computedReplaySpeed a = Some s.
Proof.
  unfold speedInRange, computedReplaySpeed. rewrite REPLAY_SPEEDS_length.
  intros H. destruct (Z.ltb_spec (replaySpeed a) 0); [lia|].
  destruct (REPLAY_SPEEDS !! Z.to_nat (replaySpeed a)) eqn:E; eauto.
  apply lookup_ge_None in E. rewrite REPLAY_SPEEDS_length in E. lia.
Qed.

Lemma computedReplaySpeed_ext a b :
  replaySpeed a = replaySpeed b -> computedReplaySpeed a = computedReplaySpeed b.
Proof. unfold computedReplaySpeed. intros ->. reflexivity. Qed.

Lemma replayAdvance_speed dt s a :
  replaySpeed (replayAdvance dt s a) = replaySpeed a.
Proof. unfold replayAdvance. destruct (Qltb 1000 dt); reflexivity. Qed.

Lemma replayAdvance_time dt s a :
  replayCurrentTime (replayAdvance dt s a) = nextReplayTime dt s a.
Proof. unfold replayAdvance. destruct (Qltb 1000 dt); reflexivity. Qed.

Lemma replayAdvance_prev dt s a :
  prevReplayTime (replayAdvance dt s a) = prevReplayTime a.
Proof. unfold replayAdvance. destruct (Qltb 1000 dt); reflexivity. Qed.

Lemma replayAdvance_start dt s a :
  replayStartTime (replayAdvance dt s a) = replayStartTime a.
Proof. unfold replayAdvance. destruct (Qltb 1000 dt); reflexivity. Qed.

Lemma replayAdvance_grouped dt s a :
  groupedReplayPackets (replayAdvance dt s a) = groupedReplayPackets a.
Proof. unfold replayAdvance. destruct (Qltb 1000 dt); reflexivity. Qed.

Lemma replayAdvance_entities dt s a :
  entities (replayAdvance dt s a) = entities a.
Proof. unfold replayAdvance. destruct (Qltb 1000 dt); reflexivity. Qed.

Lemma replayAdvance_packets dt s a :
  replayPackets (replayAdvance dt s a) = replayPackets a.
Proof. unfold replayAdvance. destruct (Qltb 1000 dt); reflexivity. Qed.

(** Candidates outside the time frame leave the loop state as it is. *)
Lemma replayForEach_skip now a : forall cands packets,
  (forall p, In p cands -> packetIsInTimeframe now a p = false) ->
  replayForEach now cands (a, packets) = Returns (a, packets).
Proof.
  induction cands as [|p cands IH]; intros packets H; simpl; [reflexivity|].
  rewrite (H p (or_introl eq_refl)). simpl.
  apply IH. intros q Hq. apply H. right. exact Hq.
Qed.

Lemma paused_not_in_timeframe now a p :
  speedPositive a = false -> speedNegative a = false ->
  packetIsInTimeframe now a p = false.
Proof. unfold packetIsInTimeframe. intros -> ->. reflexivity. Qed.

Lemma zero_speed_only_at_5 (i : nat) (s : Q) :
  REPLAY_SPEEDS !! i = Some s -> ((s == 0)%Q <-> i = 5%nat).
Proof.
  intros H.
  do 13 (destruct i as [|i]; [injection H as <-; split; [intros E; try discriminate E; reflexivity | intros E; try discriminate E; reflexivity]|]).
  destruct i; discriminate H.
Qed.

(** C7, as the code has it.  Speed index 5 of the speed table is the
    paused one: its multiplier is 0, a tick at it leaves the virtual time
    where it was and dispatches nothing.  Index 0 selects -8, the fastest
    reverse, and no index other than 5 selects a zero speed. *)
Theorem paused_speed_index (a : Application) :
  replaySpeed a = 5 ->
  computedReplaySpeed a = Some 0%Q
  /\ (forall now dt, exists a' d,
        runReplay now dt a = Returns (a', d)
        /\ (replayCurrentTime a' == replayCurrentTime a)%Q
        /\ (d == 0)%Q
        /\ replayDispatched now dt a = Some [])
  /\ (forall b, replaySpeed b = 0 -> computedReplaySpeed b = Some (-8)%Q)
  /\ (forall (i : nat) s, REPLAY_SPEEDS !! i = Some s ->
        ((s == 0)%Q <-> i = 5%nat)).
Proof.
  intros H5.
  assert (Hs : computedReplaySpeed a = Some 0%Q)
    by (unfold computedReplaySpeed; rewrite H5; reflexivity).
  split; [exact Hs|]. split.
  - intros now dt.
    assert (Hc : replayCollect now dt a = Returns (replayAdvance dt 0 a, [])).
    { unfold replayCollect. rewrite Hs. apply replayForEach_skip.
      intros p _. apply paused_not_in_timeframe.
      - unfold speedPositive.
        rewrite (computedReplaySpeed_ext _ a (replayAdvance_speed _ _ _)), Hs.
        reflexivity.
      - unfold speedNegative.
        rewrite (computedReplaySpeed_ext _ a (replayAdvance_speed _ _ _)), Hs.
        reflexivity. }
    eexists _, _. unfold runReplay, replayDispatched. rewrite Hs, Hc.
    cbn [andThen fst snd dispatchAll].
    split; [reflexivity|]. split; [|split; [|reflexivity]].
    + cbn [replayCurrentTime setPrevReplayTime].
      rewrite replayAdvance_time. unfold nextReplayTime.
      rewrite f64mul_0_r, f64add_0_r. reflexivity.
    + rewrite f64mul_0_r. reflexivity.
  - split.
    + intros b Hb. unfold computedReplaySpeed. rewrite Hb. reflexivity.
    + apply zero_speed_only_at_5.
Qed.

Lemma paused_speed_index_witness :
  replaySpeed (pressKeys ["ArrowLeft"; "ArrowLeft"] (setState running demoApp))
  = 5
  /\ computedReplaySpeed
       (pressKeys ["ArrowLeft"; "ArrowLeft"] (setState running demoApp))
     = Some 0%Q.
Proof.
  split; [reflexivity|].
  apply (paused_speed_index
           (pressKeys ["ArrowLeft"; "ArrowLeft"] (setState running demoApp))).
  reflexivity.
Defined.

(** C7 as the spec words it fails: at speed index 0 the multiplier is
    not 0. *)
Lemma speed_index_0_not_paused :
  ~ (forall a : Application,
       replaySpeed a = 0 ->
       exists s, computedReplaySpeed a = Some s /\ (s == 0)%Q).
Proof.
  intros H.
  destruct (H (pressKeys (repeat "ArrowLeft" 7%nat) (setState running demoApp))
              eq_refl)
    as (s & Hs & Hz).
  vm_compute in Hs. injection Hs as <-. discriminate Hz.
Qed.

(** ** C10: NetDestroy *)

Lemma idMatches_num n e : idMatches (Some (ANum n)) e = (eid e =? n)%Z.
Proof. reflexivity. Qed.

Lemma destroyFirst_none id es :
  (forall e, In e es -> idMatches id e = false) -> destroyFirst id es = None.
Proof.
  induction es as [|e es IH]; intros H; simpl; [reflexivity|].
  rewrite (H e (or_introl eq_refl)), IH; [reflexivity|].
  intros x Hx. apply H. right. exact Hx.
Qed.

Lemma destroyFirst_split id l1 e l2 :
  (forall x, In x l1 -> idMatches id x = false) ->
  idMatches id e = true ->
  destroyFirst id (l1 ++ e :: l2) = Some (e, l1 ++ l2).
Proof.
  intros H1 He. induction l1 as [|x l1 IH]; simpl.
  - rewrite He. reflexivity.
  - rewrite (H1 x (or_introl eq_refl)), IH; [reflexivity|].
    intros y Hy. apply H1. right. exact Hy.
Qed.

(** What [destroyFirst] finds is the first match, whatever the list. *)
Lemma destroyFirst_Some id es e es' :
  destroyFirst id es = Some (e, es') ->
  exists l1 l2, es = l1 ++ e :: l2 /\ es' = l1 ++ l2
    /\ idMatches id e = true
    /\ (forall x, In x l1 -> idMatches id x = false).
Proof.
  revert es'. induction es as [|x es IH]; intros es' H; simpl in H;
    [discriminate|].
  destruct (idMatches id x) eqn:Ex.
  - injection H as <- <-. exists [], es. repeat split; auto.
    intros y [].
  - destruct (destroyFirst id es) as [[y r]|] eqn:Ed; [|discriminate].
    injection H as <- <-.
    destruct (IH r eq_refl) as (l1 & l2 & -> & -> & Hy & Hn).
    exists (x :: l1), l2. repeat split; auto.
    intros z [<-|Hz]; auto.
Qed.

Lemma registered_instance h a :
  In h (rpcInstances a) -> existsb (String.eqb h) (rpcInstances a) = true.
Proof.
  intros Hr. apply existsb_exists. exists h. split; [exact Hr|].
  apply String.eqb_refl.
Qed.

Lemma handlePacket_NetDestroy p h a :
  className p = "MessageHandler" -> method p = "NetDestroy" ->
  id p = Some h -> In h (rpcInstances a) ->
  handlePacket p a = Returns (NetDestroy (head (args p)) a).
Proof.
  intros Hc Hm Hi Hr. unfold handlePacket, dispatchMessageHandler.
  rewrite Hc, Hm, Hi. cbn -[String.eqb existsb].
  rewrite (registered_instance h a Hr). reflexivity.
Qed.

(** C10.  A [NetDestroy] whose id is loosely equal to the id of no live
    entity leaves the application, and so the live list, exactly as it
    was: nothing is logged and nothing thrown.  When the id of some
    entity is loosely equal to it, the first such entity is torn down
    and leaves the list, every other entity stays in its place, and
    nothing else changes.  A dispatched [NetDestroy] packet does the
    same with its first argument. *)
Theorem NetDestroy_first_match (i : option Arg) (a : Application) :
  ((forall e, In e (entities a) -> looseEq (Some (ANum (eid e))) i = false) ->
   NetDestroy i a = a)
  /\ (forall l1 e l2,
        entities a = l1 ++ e :: l2 ->
        (forall x, In x l1 -> looseEq (Some (ANum (eid x))) i = false) ->
        looseEq (Some (ANum (eid e))) i = true ->
        NetDestroy i a
        = {| replayPackets := replayPackets a;
             groupedReplayPackets := groupedReplayPackets a;
             onReplayChunk := onReplayChunk a; isReplay := isReplay a;
             replayStartTime := replayStartTime a;
             currentReplayChunkReceive := currentReplayChunkReceive a;
             replayCurrentTime := replayCurrentTime a;
             prevReplayTime := prevReplayTime a;
             replaySpeed := replaySpeed a; entities := l1 ++ l2;
             messageHandler := messageHandler a; state := state a;
             spawnables := spawnables a; gameList := gameList a;
             expectedReplayChunks := expectedReplayChunks a;
             console := console a; removed := removed a ++ [e];
             rpcInstances := rpcInstances a; client := client a |})
  /\ (forall p h,
        className p = "MessageHandler" -> method p = "NetDestroy" ->
        id p = Some h -> In h (rpcInstances a) -> head (args p) = i ->
        handlePacket p a = Returns (NetDestroy i a)).
Proof.
  split; [|split].
  - intros H. unfold NetDestroy. rewrite (destroyFirst_none _ _ H).
    reflexivity.
  - intros l1 e l2 E H1 He. unfold NetDestroy.
    rewrite E, (destroyFirst_split _ _ _ _ H1 He). reflexivity.
  - intros p h Hc Hm Hi Hr <-. apply (handlePacket_NetDestroy p h); assumption.
Qed.

Lemma NetDestroy_first_match_witness :
  NetDestroy (Some (ANum 9))
    (setEntities [demoEntity 1; demoEntity 2; demoEntity 2] demoApp)
  = setEntities [demoEntity 1; demoEntity 2; demoEntity 2] demoApp
  /\ entities
       (NetDestroy (Some (ANum 2))
          (setEntities [demoEntity 1; demoEntity 2; demoEntity 2] demoApp))
     = [demoEntity 1; demoEntity 2]
  /\ removed
       (NetDestroy (Some (AStr "2"))
          (setEntities [demoEntity 1; demoEntity 2; demoEntity 2] demoApp))
     = [demoEntity 2].
Proof.
  pose proof (NetDestroy_first_match (Some (ANum 9))
    (setEntities [demoEntity 1; demoEntity 2; demoEntity 2] demoApp))
    as [H9 _].
  pose proof (NetDestroy_first_match (Some (ANum 2))
    (setEntities [demoEntity 1; demoEntity 2; demoEntity 2] demoApp))
    as [_ [H2 _]].
  pose proof (NetDestroy_first_match (Some (AStr "2"))
    (setEntities [demoEntity 1; demoEntity 2; demoEntity 2] demoApp))
    as [_ [Hs _]].
  split; [|split].
  - apply H9. simpl. intros e [<-|[<-|[<-|[]]]]; reflexivity.
  - rewrite (H2 [demoEntity 1] (demoEntity 2) [demoEntity 2]).
    + reflexivity.
    + reflexivity.
    + simpl. intros x [<-|[]]. reflexivity.
    + reflexivity.
  - rewrite (Hs [demoEntity 1] (demoEntity 2) [demoEntity 2]).
    + reflexivity.
    + reflexivity.
    + simpl. intros x [<-|[]]. vm_compute. reflexivity.
    + vm_compute. reflexivity.
Defined.

(** ** C9, C6: spawning *)

Lemma spawnMatch_false c pth :
  match spawnFor c with
  | SpawnList paths => ~ In (toLowerCase (trim pth)) (map toLowerCase paths)
  | SpawnPattern test => test (trim pth) = false
  end ->
  spawnMatch c pth = false.
Proof.
  unfold spawnMatch. destruct (spawnFor c) as [paths|test]; [|auto].
  intros H. destruct (existsb _ _) eqn:E; [|reflexivity].
  exfalso. apply existsb_exists in E as (x & Hx & Ex).
  apply String.eqb_eq in Ex. subst x. exact (H Hx).
Qed.

Lemma resolveEntityClass_None spawnables pth :
  resolveEntityClass spawnables pth = None
  <-> (forall c, In c spawnables -> spawnMatch c pth = false).
Proof.
  induction spawnables as [|c l IH]; simpl.
  - split; [intros _ c []|reflexivity].
  - destruct (spawnMatch c pth) eqn:E.
    + split; [discriminate|]. intros H.
      rewrite (H c (or_introl eq_refl)) in E. discriminate.
    + rewrite IH. split.
      * intros H x [<-|Hx]; auto.
      * intros H x Hx. apply H. right. exact Hx.
Qed.

(** The class a spawn resolves to is the first one that matches. *)
Lemma resolveEntityClass_Some spawnables pth c :
  resolveEntityClass spawnables pth = Some c
  <-> exists l1 l2, spawnables = l1 ++ c :: l2
        /\ spawnMatch c pth = true
        /\ (forall x, In x l1 -> spawnMatch x pth = false).
Proof.
  induction spawnables as [|x l IH]; simpl.
  - split; [discriminate|]. intros (l1 & l2 & E & _). destruct l1; discriminate.
  - destruct (spawnMatch x pth) eqn:Ex.
    + split.
      * intros [= <-]. exists [], l. repeat split; auto. intros y [].
      * intros (l1 & l2 & E & Hc & Hn). destruct l1 as [|y l1].
        -- injection E as -> _. reflexivity.
        -- injection E as -> _.
           rewrite (Hn y (or_introl eq_refl)) in Ex. discriminate.
    + rewrite IH. split.
      * intros (l1 & l2 & -> & Hc & Hn). exists (x :: l1), l2.
        repeat split; auto. intros y [<-|Hy]; auto.
      * intros (l1 & l2 & E & Hc & Hn). destruct l1 as [|y l1].
        -- injection E as -> _. congruence.
        -- injection E as -> ->. exists l1, l2. repeat split; auto.
           intros z Hz. apply Hn. right. exact Hz.
Qed.

(** C9.  Let the path of a spawn request match no spawnable: trimmed
    and in lower case it is none of the lower-cased paths of a class
    with a list, and the pattern of a class with a pattern rejects it
    trimmed.  Then no entity is created and the live list is unchanged.
    A path that starts with "HPEquips" or contains "Rearm" leaves the
    whole application unchanged, so nothing is logged; any other path
    adds the warning that no entity handler was found for it at the end
    of the console, and changes nothing else.  A dispatched
    [NetInstantiate] with this path does the same whatever its id, its
    owner and its activity flag are. *)
Theorem unmatched_spawn_ignored (i : Z) (owner pth : string)
    (pos rot : Vector3) (active : bool) (a : Application) :
  (forall c, In c (spawnables a) ->
     match spawnFor c with
     | SpawnList paths =>
         ~ In (toLowerCase (trim pth)) (map toLowerCase paths)
     | SpawnPattern test => test (trim pth) = false
     end) ->
  entities (handleEntitySpawn i owner pth pos rot active a) = entities a
  /\ (startsWith pth "HPEquips" = true \/ includes pth "Rearm" = true ->
      handleEntitySpawn i owner pth pos rot active a = a)
  /\ (startsWith pth "HPEquips" = false -> includes pth "Rearm" = false ->
      handleEntitySpawn i owner pth pos rot active a
      = {| replayPackets := replayPackets a;
           groupedReplayPackets := groupedReplayPackets a;
           onReplayChunk := onReplayChunk a; isReplay := isReplay a;
           replayStartTime := replayStartTime a;
           currentReplayChunkReceive := currentReplayChunkReceive a;
           replayCurrentTime := replayCurrentTime a;
           prevReplayTime := prevReplayTime a;
           replaySpeed := replaySpeed a; entities := entities a;
           messageHandler := messageHandler a; state := state a;
           spawnables := spawnables a; gameList := gameList a;
           expectedReplayChunks := expectedReplayChunks a;
           console := console a ++ [WarnNoEntityHandler pth];
           removed := removed a; rpcInstances := rpcInstances a;
           client := client a |})
  /\ (forall i' owner' active',
        NetInstantiate i' owner' (Some (AStr pth)) (Some (AVec pos))
          (Some (AVec rot)) active' a
        = Returns (handleEntitySpawn i owner pth pos rot active a)).
Proof.
  intros H.
  assert (Hres : resolveEntityClass (spawnables a) pth = None).
  { apply resolveEntityClass_None. intros c Hc.
    apply spawnMatch_false, H, Hc. }
  unfold NetInstantiate, handleEntitySpawn. rewrite Hres.
  unfold unresolvedSpawn.
  destruct (startsWith pth "HPEquips") eqn:E1,
           (includes pth "Rearm") eqn:E2; simpl;
    repeat split; try reflexivity; try discriminate;
    intros [?|?]; discriminate.
Qed.

Lemma unmatched_spawn_ignored_witness :
  handleEntitySpawn 3 "0" "HPEquips/AFighter/fa26_gun" zeroVec zeroVec true
    demoApp = demoApp
  /\ handleEntitySpawn 4 "0" "Units/Allied/BSTOPRearmPoint" zeroVec zeroVec
       true demoApp = demoApp
  /\ console
       (handleEntitySpawn 5 "0" "Units/Allied/Unknown" zeroVec zeroVec true
          demoApp)
     = [WarnNoEntityHandler "Units/Allied/Unknown"].
Proof.
  assert (N : forall pth,
             existsb (String.eqb (toLowerCase (trim pth)))
               (map toLowerCase
                  ["Units/Allied/ABomberAI"; "Units/Enemy/AIUCAV";
                   "Units/Enemy/ASF-30"; "Units/Enemy/ASF-33";
                   "Units/Enemy/ASF-58"; "Units/Allied/AV-42CAI";
                   "Units/Allied/E-4"; "Units/Enemy/AEW-50";
                   "Units/Enemy/EBomberAI"; "Units/Allied/F-45A AI";
                   "Units/Allied/FA-26A"; "Units/Allied/FA-26B AI";
                   "Units/Enemy/GAV-25"; "Units/Allied/KC-49";
                   "Units/Allied/MQ-31"; "Units/Enemy/T-55 AI-E";
                   "Units/Allied/T-55 AI"]) = false ->
             forall c, In c (spawnables demoApp) ->
             match spawnFor c with
             | SpawnList paths =>
                 ~ In (toLowerCase (trim pth)) (map toLowerCase paths)
             | SpawnPattern test => test (trim pth) = false
             end).
  { intros pth E c [<-|[]]. cbn [spawnFor AIAirVehicle]. intros Hin.
    rewrite (proj2 (existsb_exists _ _)) in E; [discriminate|].
    eexists. split; [exact Hin|apply String.eqb_refl]. }
  split; [|split].
  - apply (unmatched_spawn_ignored 3 "0" "HPEquips/AFighter/fa26_gun"
             zeroVec zeroVec true demoApp
             (N "HPEquips/AFighter/fa26_gun" eq_refl)).
    left. reflexivity.
  - apply (unmatched_spawn_ignored 4 "0" "Units/Allied/BSTOPRearmPoint"
             zeroVec zeroVec true demoApp
             (N "Units/Allied/BSTOPRearmPoint" eq_refl)).
    right. reflexivity.
  - destruct (unmatched_spawn_ignored 5 "0" "Units/Allied/Unknown"
                zeroVec zeroVec true demoApp
                (N "Units/Allied/Unknown" eq_refl))
      as (_ & _ & H & _).
    rewrite H; reflexivity.
Defined.

Lemma NetDestroy_entities i a :
  entities (NetDestroy i a) = entities a
  \/ exists l1 e l2, entities a = l1 ++ e :: l2
       /\ entities (NetDestroy i a) = l1 ++ l2
       /\ idMatches i e = true
       /\ (forall x, In x l1 -> idMatches i x = false).
Proof.
  unfold NetDestroy.
  destruct (destroyFirst i (entities a)) as [[e es]|] eqn:E; [|left; reflexivity].
  right. apply destroyFirst_Some in E as (l1 & l2 & E1 & -> & He & Hn).
  exists l1, e, l2. auto.
Qed.

Lemma NetDestroy_NoDup i a : NoDup (liveIds a) -> NoDup (liveIds (NetDestroy i a)).
Proof.
  unfold liveIds.
  destruct (NetDestroy_entities i a) as [->|(l1 & e & l2 & E & -> & _)];
    [auto|].
  rewrite E, !map_app. simpl. rewrite !NoDup_app, NoDup_cons.
  intros (H1 & H2 & _ & H3). split; [exact H1|]. split; [|exact H3].
  intros x Hx Hx'. apply (H2 x Hx). right. exact Hx'.
Qed.

(** The live list after [subscribe]: empty, or untouched when no lobby
    has the id. *)
Lemma subscribe_entities g a a' :
  subscribe g a = Returns a' \/ subscribe g a = Throws a' ->
  entities a' = [] \/ a' = a.
Proof.
  unfold subscribe.
  destruct (existsb (String.eqb g) (gameList a)).
  - cbn. destruct (messageHandler a) as [h|]; cbn;
      destruct (client a) as [c|];
      intros [H|H]; try discriminate H; injection H as <-; left; reflexivity.
  - intros [H|H]; [discriminate H|]. injection H as <-. right. reflexivity.
Qed.

(** C6, as the code has it.  Despawn and session switch keep the ids of
    the live entities distinct, and so does a spawn whose id is not live.
    The registry does not look for the id of a spawn request among the
    live entities: when the path resolves, the new entity is appended
    after the others and nothing is logged, also when its id is already
    live. *)
Theorem registry_id_uniqueness (a : Application) :
  NoDup (liveIds a) ->
  (forall i, NoDup (liveIds (NetDestroy i a)))
  /\ (forall g a',
        subscribe g a = Returns a' \/ subscribe g a = Throws a' ->
        NoDup (liveIds a'))
  /\ (forall i owner pth pos rot active,
        ~ In i (liveIds a) ->
        NoDup (liveIds (handleEntitySpawn i owner pth pos rot active a)))
  /\ (forall i owner pth pos rot active c,
        resolveEntityClass (spawnables a) pth = Some c ->
        liveIds (handleEntitySpawn i owner pth pos rot active a)
        = liveIds a ++ [i]
        /\ console (handleEntitySpawn i owner pth pos rot active a)
           = console a).
Proof.
  intros Hnd. split; [|split; [|split]].
  - intros i. apply NetDestroy_NoDup, Hnd.
  - intros g a' H. unfold liveIds.
    destruct (subscribe_entities _ _ _ H) as [->| ->]; [constructor|exact Hnd].
  - intros i owner pth pos rot active Hi. unfold handleEntitySpawn, liveIds.
    destruct (resolveEntityClass (spawnables a) pth).
    + simpl. rewrite map_app. simpl.
      apply NoDup_app. split; [exact Hnd|]. split.
      * intros x Hx Hx'. apply list_elem_of_In in Hx, Hx'.
        destruct Hx' as [<-|[]]. apply Hi, Hx.
      * apply NoDup_singleton.
    + unfold unresolvedSpawn. destruct (negb _ && negb _)%bool; exact Hnd.
  - intros i owner pth pos rot active c Hc.
    unfold handleEntitySpawn, liveIds. rewrite Hc. simpl.
    rewrite map_app. split; reflexivity.
Qed.

Lemma registry_id_uniqueness_witness :
  NoDup (liveIds (setEntities [demoEntity 1; demoEntity 2] demoApp))
  /\ NoDup (liveIds (NetDestroy (Some (ANum 1))
              (setEntities [demoEntity 1; demoEntity 2] demoApp)))
  /\ NoDup (liveIds (handleEntitySpawn 3 "0" "Units/Allied/E-4" zeroVec
              zeroVec true
              (setEntities [demoEntity 1; demoEntity 2] demoApp))).
Proof.
  assert (H : NoDup (liveIds (setEntities [demoEntity 1; demoEntity 2] demoApp))).
  { apply NoDup_cons. split.
    - intros Hin. apply list_elem_of_In in Hin. simpl in Hin.
      destruct Hin as [Hin|[]]. discriminate Hin.
    - apply NoDup_singleton. }
  destruct (registry_id_uniqueness _ H) as (H1 & _ & H3 & _).
  split; [exact H|]. split; [apply H1|].
  apply H3. intros Hin. simpl in Hin.
  destruct Hin as [Hin|[Hin|[]]]; discriminate Hin.
Defined.

(** C6 as the spec words it fails: a spawn with the id of a live entity
    yields two live entities with that id, and no warning. *)
Lemma duplicate_spawn_two_live :
  let a1 := handleEntitySpawn 7 "0" "Units/Allied/E-4" zeroVec zeroVec true
              demoApp in
  let a2 := handleEntitySpawn 7 "1" "Units/Allied/KC-49" zeroVec zeroVec true
              a1 in
  NoDup (liveIds a1) /\ liveIds a2 = [7; 7] /\ ~ NoDup (liveIds a2)
  /\ console a2 = [].
Proof.
  split; [|split; [|split]].
  - vm_compute. apply NoDup_singleton.
  - vm_compute. reflexivity.
  - vm_compute. intros H. apply NoDup_cons in H as [H _]. apply H. left.
  - vm_compute. reflexivity.
Qed.

(** ** C3, C4: ingestion of replay chunks *)

(** What handling a batch with a first packet does to the fields. *)
Lemma handleReplayChunk_cons now p0 rest a :
  exists a',
    handleReplayChunk now (p0 :: rest) a = Returns a'
    /\ replayPackets a'
       = replayPackets a
         ++ resolveChunk (currentReplayChunkReceive a) (p0 :: rest)
    /\ groupedReplayPackets a'
       = fold_left (groupPacket now)
           (resolveChunk (currentReplayChunkReceive a) (p0 :: rest))
           (groupedReplayPackets a)
    /\ expectedReplayChunks a' = expectedReplayChunks a
    /\ currentReplayChunkReceive a'
       = (if onReplayChunk a then currentReplayChunkReceive a + 1
          else currentReplayChunkReceive a)
    /\ onReplayChunk a'
       = (onReplayChunk a
          && negb (currentReplayChunkReceive a + 1 =? expectedReplayChunks a)%Z)%bool.
Proof.
  unfold handleReplayChunk. eexists. split; [reflexivity|].
  unfold replayChunkCallback, resolveChunk.
  destruct (timestamp p0), (onReplayChunk a) eqn:Ecb; simpl; rewrite ?Ecb; simpl;
    try destruct (Z.eqb_spec (currentReplayChunkReceive a + 1)
                             (expectedReplayChunks a));
    simpl; rewrite ?Ecb; repeat split; reflexivity.
Qed.

Lemma settled_nil now a : settled a (handleReplayChunk now [] a) = a.
Proof. reflexivity. Qed.

Lemma settled_cons now p0 rest a a' :
  handleReplayChunk now (p0 :: rest) a = Returns a' ->
  settled a (handleReplayChunk now (p0 :: rest) a) = a'.
Proof. intros ->. reflexivity. Qed.






Lemma groupPacket_bucket now g p s :
  default [] (groupPacket now g p !! s)
  = default [] (g !! s)
    ++ (if (secondOf (timestampOr now p) =? s)%Z then [p] else []).
Proof.
  unfold groupPacket.
  destruct (Z.eqb_spec (secondOf (timestampOr now p)) s) as [->|Hne].
  - rewrite lookup_insert_eq. reflexivity.
  - rewrite lookup_insert_ne by exact Hne. rewrite app_nil_r. reflexivity.
Qed.

(** The grouping loop appends to each bucket, in order, the packets of
    the batch that fall in its second. *)
Lemma groupPacket_fold_bucket now rpcs : forall g s,
  default [] (fold_left (groupPacket now) rpcs g !! s)
  = default [] (g !! s)
    ++ List.filter (fun p => (secondOf (timestampOr now p) =? s)%Z) rpcs.
Proof.
  induction rpcs as [|p rpcs IH]; intros g s; simpl.
  - rewrite app_nil_r. reflexivity.
  - rewrite IH, groupPacket_bucket, <- app_assoc.
    destruct (secondOf (timestampOr now p) =? s)%Z; reflexivity.
Qed.





Lemma settled_chunk now rpcs a :
  replayPackets (settled a (handleReplayChunk now rpcs a))
  = replayPackets a ++ resolveChunk (currentReplayChunkReceive a) rpcs
  /\ groupedReplayPackets (settled a (handleReplayChunk now rpcs a))
     = fold_left (groupPacket now)
         (resolveChunk (currentReplayChunkReceive a) rpcs)
         (groupedReplayPackets a).
Proof.
  destruct rpcs as [|p0 rest].
  - rewrite settled_nil. cbn. rewrite app_nil_r. split; reflexivity.
  - destruct (handleReplayChunk_cons now p0 rest a)
      as (a' & E & Hp & Hg & _).
    rewrite (settled_cons _ _ _ _ _ E). split; assumption.
Qed.


Lemma ingestChunks_store chunks : forall a,
  replayPackets (ingestChunks chunks a)
  = replayPackets a ++ map snd (ingestLog chunks a).
Proof.
  induction chunks as [|[now rpcs] chunks IH]; intros a;
    cbn [ingestChunks ingestLog].
  - cbn. rewrite app_nil_r. reflexivity.
  - rewrite IH. destruct (settled_chunk now rpcs a) as [-> _].
    rewrite map_app, map_map, app_assoc. simpl. rewrite map_id.
    reflexivity.
Qed.





(** ** The replay loop *)

Lemma SameReplay_refl a : SameReplay a a.
Proof. constructor; reflexivity. Qed.

Lemma SameReplay_trans a b c : SameReplay a b -> SameReplay b c -> SameReplay a c.
Proof. intros [] []. constructor; congruence. Qed.

Lemma SameReplay_NetDestroy i a : SameReplay a (NetDestroy i a).
Proof.
  unfold NetDestroy. destruct (destroyFirst i (entities a)) as [[e es]|];
    constructor; reflexivity.
Qed.

Lemma SameReplay_logTo e a : SameReplay a (logTo e a).
Proof. constructor; reflexivity. Qed.




Lemma speedPositive_not_negative a : speedPositive a = true -> speedNegative a = false.
Proof.
  unfold speedPositive, speedNegative.
  destruct (computedReplaySpeed a) as [s|]; [|discriminate].
  rewrite Qltb_lt, Qltb_ge. intros H. lra.
Qed.

(** Forward, the loop keeps the candidates of the time frame, each as
    often as it is listed and in the order of the list. *)
Lemma replayForEach_forward now a : forall cands packets,
  speedPositive a = true ->
  replayForEach now cands (a, packets)
  = Returns (a, packets ++ List.filter (packetIsInTimeframe now a) cands).
Proof.
  intros cands packets H. pose proof (speedPositive_not_negative a H) as Hn.
  revert packets. induction cands as [|p cands IH]; intros packets; simpl.
  - rewrite app_nil_r. reflexivity.
  - rewrite Hn. destruct (packetIsInTimeframe now a p); simpl.
    + rewrite IH, <- app_assoc. reflexivity.
    + apply IH.
Qed.

(** The undo table: which packets have an entry, and which. *)
Lemma findReplaceHandler_spec p :
  findReplaceHandler p
  = if (String.eqb (className p) "MessageHandler"
        && String.eqb (method p) "NetInstantiate")%bool
    then Some {| hClassName := "MessageHandler"; hMethod := "NetInstantiate";
                 handler := undoNetInstantiate |}
    else if (String.eqb (className p) "MessageHandler"
             && String.eqb (method p) "NetDestroy")%bool
    then Some {| hClassName := "MessageHandler"; hMethod := "NetDestroy";
                 handler := undoNetDestroy |}
    else None.
Proof.
  unfold findReplaceHandler, replaceRPCHandlers.
  cbn -[String.eqb].
  rewrite (String.eqb_sym "MessageHandler"),
    (String.eqb_sym "NetInstantiate"), (String.eqb_sym "NetDestroy").
  destruct (String.eqb (className p) "MessageHandler");
    cbn -[String.eqb]; [|reflexivity].
  destruct (String.eqb (method p) "NetInstantiate"); [reflexivity|].
  destruct (String.eqb (method p) "NetDestroy"); reflexivity.
Qed.

(** One visit of the loop in reverse, case by case. *)
Lemma replayVisit_reverse now a packets p :
  speedNegative a = true ->
  replayVisit now (a, packets) p
  = if negb (packetIsInTimeframe now a p) then Returns (a, packets)
    else if (String.eqb (className p) "MessageHandler"
             && String.eqb (method p) "NetInstantiate")%bool
    then match messageHandler a with
         | None => Throws a
         | Some _ => Returns (NetDestroy (head (args p)) a, packets)
         end
    else if (String.eqb (className p) "MessageHandler"
             && String.eqb (method p) "NetDestroy")%bool
    then match List.find (isSpawnPacketFor (head (args p)))
                 (replayPackets a) with
         | Some sp => Returns (a, packets ++ [sp])
         | None => Returns (logTo (ErrNoSpawnPacket (head (args p))) a,
                            packets)
         end
    else Returns (a, packets ++ [p]).
Proof.
  intros Hn. unfold replayVisit. rewrite Hn, findReplaceHandler_spec.
  destruct (negb (packetIsInTimeframe now a p)); [reflexivity|].
  destruct (String.eqb (className p) "MessageHandler"
            && String.eqb (method p) "NetInstantiate")%bool.
  - cbn [handler]. unfold undoNetInstantiate.
    destruct (messageHandler a); reflexivity.
  - destruct (String.eqb (className p) "MessageHandler"
              && String.eqb (method p) "NetDestroy")%bool; [|reflexivity].
    cbn [handler]. unfold undoNetDestroy.
    destruct (List.find _ (replayPackets a)); reflexivity.
Qed.




Lemma replayAdvance_computed dt s a :
  computedReplaySpeed (replayAdvance dt s a) = computedReplaySpeed a.
Proof. apply computedReplaySpeed_ext, replayAdvance_speed. Qed.

Lemma replayAdvance_from now dt s a p :
  fromRecordingStart now (replayAdvance dt s a) p = fromRecordingStart now a p.
Proof. unfold fromRecordingStart. rewrite replayAdvance_start. reflexivity. Qed.

Lemma replayAdvance_candidates dt s a :
  replayCandidates (replayAdvance dt s a)
  = bucketAt (groupedReplayPackets a) (nextReplayTime dt s a)
    ++ bucketAt (groupedReplayPackets a) (prevReplayTime a).
Proof.
  unfold replayCandidates.
  rewrite replayAdvance_grouped, replayAdvance_time, replayAdvance_prev.
  reflexivity.
Qed.


(** A fact on the value a call returns follows from its evaluation. *)
Lemma returned_Some {A B} (f : A -> B) (o : Outcome A) (y : B) :
  returned f o = Some y -> exists v, o = Returns v /\ f v = y.
Proof.
  destruct o as [v| |]; cbn; intros [= E]. exists v. split; [reflexivity|exact E].
Qed.

Lemma steps_app es1 : forall es2 a,
  steps (es1 ++ es2) a
  = match steps es1 a with Some a' => steps es2 a' | None => None end.
Proof.
  induction es1 as [|e es1 IH]; intros es2 a; [reflexivity|].
  cbn [app steps]. destruct (step e a); [apply IH|reflexivity].
Qed.



(** ** C5: undoing a destroy *)

Lemma find_first {A} (f : A -> bool) l1 x l2 :
  (forall y, In y l1 -> f y = false) -> f x = true ->
  List.find f (l1 ++ x :: l2) = Some x.
Proof.
  intros H Hx. induction l1 as [|y l1 IH]; cbn [app List.find].
  - rewrite Hx. reflexivity.
  - rewrite (H y (or_introl eq_refl)). apply IH.
    intros z Hz. apply H. right. exact Hz.
Qed.

Lemma find_absent {A} (f : A -> bool) l :
  (forall y, In y l -> f y = false) -> List.find f l = None.
Proof.
  induction l as [|y l IH]; intros H; cbn [List.find]; [reflexivity|].
  rewrite (H y (or_introl eq_refl)). apply IH.
  intros z Hz. apply H. right. exact Hz.
Qed.

(** C5, as the code has it.  In reverse (speed < 0), take a destroy
    packet of [MessageHandler] whose time lies in the traversed interval
    ([virtualTime <= t < previousVirtualTime]).  The loop replaces it by
    the first instantiate packet of the store, in the order of ingestion
    and whatever its timestamp, whose entity id is loosely equal to the
    one of the destroy packet: that packet joins the packets to dispatch
    and the destroy packet does not, and the application is unchanged.
    When the store has no such packet, the error is written to the
    console, the visit adds nothing to the packets to dispatch, and
    nothing else of the application changes. *)
Theorem undo_destroy (now speed : Q) (a : Application)
    (packets : list RPCPacket) (p : RPCPacket) :
  computedReplaySpeed a = Some speed -> (speed < 0)%Q ->
  let t := f64sub match timestamp p with
                  | Some ts => ts
                  | None => now
                  end (replayStartTime a) in
  (replayCurrentTime a <= t)%Q -> (t < prevReplayTime a)%Q ->
  className p = "MessageHandler" -> method p = "NetDestroy" ->
  let spawnOf := fun q =>
    (String.eqb (className q) "MessageHandler"
     && String.eqb (method q) "NetInstantiate"
     && looseEq (head (args q)) (head (args p)))%bool in
  (forall l1 spawnPacket l2,
     replayPackets a = l1 ++ spawnPacket :: l2 ->
     (forall q, In q l1 -> spawnOf q = false) ->
     spawnOf spawnPacket = true ->
     replayVisit now (a, packets) p = Returns (a, packets ++ [spawnPacket]))
  /\ ((forall q, In q (replayPackets a) -> spawnOf q = false) ->
      replayVisit now (a, packets) p
      = Returns
          ({| replayPackets := replayPackets a;
              groupedReplayPackets := groupedReplayPackets a;
              onReplayChunk := onReplayChunk a; isReplay := isReplay a;
              replayStartTime := replayStartTime a;
              currentReplayChunkReceive := currentReplayChunkReceive a;
              replayCurrentTime := replayCurrentTime a;
              prevReplayTime := prevReplayTime a;
              replaySpeed := replaySpeed a; entities := entities a;
              messageHandler := messageHandler a; state := state a;
              spawnables := spawnables a; gameList := gameList a;
              expectedReplayChunks := expectedReplayChunks a;
              console := console a ++ [ErrNoSpawnPacket (head (args p))];
              removed := removed a; rpcInstances := rpcInstances a;
              client := client a |},
           packets)).
Proof.
  intros Hs Hneg t Hlo Hhi Hc Hm spawnOf.
  assert (Hn : speedNegative a = true)
    by (unfold speedNegative; rewrite Hs; apply Qltb_lt, Hneg).
  assert (Ht : packetIsInTimeframe now a p = true).
  { unfold packetIsInTimeframe.
    destruct (speedPositive a) eqn:Ep;
      [apply speedPositive_not_negative in Ep; congruence|].
    rewrite Hn. apply andb_true_iff. split.
    - apply Qleb_le. exact Hlo.
    - apply Qltb_lt. exact Hhi. }
  assert (Hv : replayVisit now (a, packets) p
               = match List.find spawnOf (replayPackets a) with
                 | Some sp => Returns (a, packets ++ [sp])
                 | None => Returns (logTo (ErrNoSpawnPacket (head (args p))) a,
                                    packets)
                 end).
  { rewrite (replayVisit_reverse now a packets p Hn), Ht, Hc, Hm.
    reflexivity. }
  split.
  - intros l1 sp l2 E H1 Hsp. rewrite Hv, E, (find_first _ _ _ _ H1 Hsp).
    reflexivity.
  - intros H. rewrite Hv, (find_absent _ _ H). reflexivity.
Qed.

Lemma undo_destroy_witness :
  exists c,
    steps demoLate demoApp = Some c
    /\ replayVisit 0 (replayAdvance 1000 (-1) c, []) (destroyPacket 5 1000)
       = Returns (replayAdvance 1000 (-1) c,
                  [instPacket 5 "Units/Allied/E-4" 5000])
    /\ replayVisit 0 (replayAdvance 1000 (-1) c, []) (destroyPacket 9 1000)
       = Returns (logTo (ErrNoSpawnPacket (Some (ANum 9)))
                    (replayAdvance 1000 (-1) c), []).
Proof.
  destruct (steps demoLate demoApp) as [c|] eqn:H;
    [|vm_compute in H; discriminate H].
  exists c. split; [reflexivity|].
  assert (Hs : computedReplaySpeed (replayAdvance 1000 (-1) c)
               = Some (-1)%Q)
    by by_evaluation H
         (fun s => computedReplaySpeed (replayAdvance 1000 (-1) s)).
  assert (Hrp : replayPackets (replayAdvance 1000 (-1) c) = lateStore)
    by by_evaluation H (fun s => replayPackets (replayAdvance 1000 (-1) s)).
  assert (Hlo : (replayCurrentTime (replayAdvance 1000 (-1) c)
                 <= f64sub 1000 (replayStartTime (replayAdvance 1000 (-1) c)))%Q).
  { apply Qle_bool_iff.
    by_evaluation H
      (fun s => Qle_bool (replayCurrentTime (replayAdvance 1000 (-1) s))
                  (f64sub 1000
                     (replayStartTime (replayAdvance 1000 (-1) s)))). }
  assert (Hhi : (f64sub 1000 (replayStartTime (replayAdvance 1000 (-1) c))
                 < prevReplayTime (replayAdvance 1000 (-1) c))%Q).
  { apply Qltb_lt.
    by_evaluation H
      (fun s => Qltb (f64sub 1000
                        (replayStartTime (replayAdvance 1000 (-1) s)))
                  (prevReplayTime (replayAdvance 1000 (-1) s))). }
  destruct (undo_destroy 0 (-1) (replayAdvance 1000 (-1) c) []
              (destroyPacket 5 1000) Hs eq_refl Hlo Hhi eq_refl eq_refl)
    as [H5 _].
  destruct (undo_destroy 0 (-1) (replayAdvance 1000 (-1) c) []
              (destroyPacket 9 1000) Hs eq_refl Hlo Hhi eq_refl eq_refl)
    as [_ H9].
  split.
  - apply (H5 [updatePacket (Some 0%Q); destroyPacket 5 1000]
              (instPacket 5 "Units/Allied/E-4" 5000) []).
    + exact Hrp.
    + intros q [<-|[<-|[]]]; reflexivity.
    + reflexivity.
  - apply H9. rewrite Hrp. intros q [<-|[<-|[<-|[]]]]; reflexivity.
Defined.

(** C5 as the spec words it fails: going back in time from the destroy
    packet of entity 5 at 1000 ms there is no instantiate packet, and
    yet the reverse tick over it dispatches the instantiate packet of
    5000 ms, logs no error and leaves an entity 5 live. *)
Lemma undo_destroy_not_backward :
  exists c c' d,
    steps demoLate demoApp = Some c
    /\ specFindSpawnBackward 0 (replayPackets c) (destroyPacket 5 1000) = None
    /\ replayDispatched 0 1000 c
       = Some [instPacket 5 "Units/Allied/E-4" 5000]
    /\ runReplay 0 1000 c = Returns (c', d)
    /\ console c' = []
    /\ liveIds c = [] /\ liveIds c' = [5].
Proof.
  destruct (steps demoLate demoApp) as [c|] eqn:H;
    [|vm_compute in H; discriminate H].
  assert (Hc' : returned (fun r : Application * Q =>
                            (console r.1, liveIds r.1))
                  (runReplay 0 1000 c) = Some ([], [5]))
    by by_evaluation H
         (fun s => returned (fun r : Application * Q =>
                               (console r.1, liveIds r.1))
                     (runReplay 0 1000 s)).
  apply returned_Some in Hc' as ([c' d] & Hr & [= Hcon Hlive]).
  exists c, c', d. split; [reflexivity|].
  split;
    [by_evaluation H
       (fun s => specFindSpawnBackward 0 (replayPackets s)
                   (destroyPacket 5 1000))|].
  split; [by_evaluation H (replayDispatched 0 1000)|].
  split; [exact Hr|].
  split; [exact Hcon|]. split; [by_evaluation H liveIds|exact Hlive].
Qed.

(** ** C2: spawn and despawn symmetry *)

(** C2 at a recording in which entity 7 is instantiated at 400 ms and
    destroyed at 600 ms.  Before the forward playback no entity is
    live.  One forward tick of 900 ms crosses both packets and leaves no
    entity live.  After four presses of the left arrow (speed -1) one
    reverse tick of 900 ms goes back across the same interval, to time
    0, and leaves two entities with id 7 live: in the reverse tick the
    undo of the instantiation runs first, inside the loop, and the
    instantiate packets that undo the destruction are dispatched after
    the loop. *)
Lemma forward_reverse_not_restored :
  exists a0 a1 a2,
    steps crossStart demoApp = Some a0
    /\ step (EvFrame 0 900) a0 = Some a1
    /\ steps (fourLeft ++ [EvFrame 0 900]) a1 = Some a2
    /\ liveIds a0 = []
    /\ (replayCurrentTime a0 == 0)%Q
    /\ computedReplaySpeed a0 = Some 1%Q
    /\ (replayCurrentTime a1 == 900)%Q
    /\ liveIds a1 = []
    /\ computedReplaySpeed a2 = Some (-1)%Q
    /\ (replayCurrentTime a2 == 0)%Q
    /\ liveIds a2 = [7; 7].
Proof.
  destruct (steps crossStart demoApp) as [a0|] eqn:H0;
    [|vm_compute in H0; discriminate H0].
  assert (F1 : (fun s => (Qeq_bool (replayCurrentTime s) 900, liveIds s))
                 <$> step (EvFrame 0 900) a0 = Some (true, []))
    by by_evaluation H0
         (fun x => (fun s => (Qeq_bool (replayCurrentTime s) 900, liveIds s))
                     <$> step (EvFrame 0 900) x).
  destruct (step (EvFrame 0 900) a0) as [a1|] eqn:H1; [|discriminate F1].
  assert (H01 : steps (crossStart ++ [EvFrame 0 900]) demoApp = Some a1).
  { rewrite steps_app, H0. cbn [steps]. rewrite H1. reflexivity. }
  assert (F2 : (fun s => (computedReplaySpeed s,
                          Qeq_bool (replayCurrentTime s) 0, liveIds s))
                 <$> steps (fourLeft ++ [EvFrame 0 900]) a1
               = Some (Some (-1)%Q, true, [7; 7])).
  { apply (fmap_Some_eq _
             (fun x => (fun s => (computedReplaySpeed s,
                                  Qeq_bool (replayCurrentTime s) 0,
                                  liveIds s))
                         <$> steps (fourLeft ++ [EvFrame 0 900]) x) _ _ H01).
    vm_compute. reflexivity. }
  destruct (steps (fourLeft ++ [EvFrame 0 900]) a1) as [a2|] eqn:H2;
    [|discriminate F2].
  exists a0, a1, a2. cbn in F1, F2.
  injection F1 as F1t F1l. injection F2 as F2s F2t F2l.
  split; [reflexivity|]. split; [exact H1|]. split; [exact H2|].
  split; [by_evaluation H0 liveIds|].
  split.
  { apply Qeq_bool_iff.
    by_evaluation H0 (fun s => Qeq_bool (replayCurrentTime s) 0). }
  split; [by_evaluation H0 computedReplaySpeed|].
  split; [apply Qeq_bool_iff, F1t|]. split; [exact F1l|].
  split; [exact F2s|].
  split; [apply Qeq_bool_iff, F2t|exact F2l].
Qed.

(** * Further properties *)

(** ** The store under every event *)

Lemma SameReplay_SetEntityUnitID e u a : SameReplay a (SetEntityUnitID e u a).
Proof. constructor; reflexivity. Qed.

Lemma SameReplay_unresolvedSpawn pth a : SameReplay a (unresolvedSpawn pth a).
Proof.
  unfold unresolvedSpawn.
  destruct (negb (startsWith pth "HPEquips") && negb (includes pth "Rearm"))%bool;
    constructor; reflexivity.
Qed.

Lemma SameReplay_handleEntitySpawn i owner pth pos rot active a :
  SameReplay a (handleEntitySpawn i owner pth pos rot active a).
Proof.
  unfold handleEntitySpawn.
  destruct (resolveEntityClass (spawnables a) pth);
    [constructor; reflexivity|apply SameReplay_unresolvedSpawn].
Qed.

Lemma SameReplay_CreateLobby g a : SameReplay a (CreateLobby g a).
Proof.
  unfold CreateLobby. destruct (existsb _ (gameList a));
    constructor; reflexivity.
Qed.

(** A method of the message handler leaves the clock and the store as
    they are, whether it returns or throws. *)
Lemma SameReplay_dispatchMessageHandler p a :
  match dispatchMessageHandler p a with
  | Returns a' => SameReplay a a'
  | Throws a' => SameReplay a a'
  | Unmodelled => True
  end.
Proof.
  unfold dispatchMessageHandler.
  destruct (String.eqb (method p) "NetInstantiate").
  - unfold NetInstantiate.
    destruct (argAt 3 p) as [[| | |ps]|]; try exact I.
    destruct (argAt 4 p) as [[| | |r]|]; try exact I.
    destruct (argAt 2 p) as [[|pth| |]|]; try apply SameReplay_refl.
    destruct (resolveEntityClass (spawnables a) pth) eqn:E;
      [|apply SameReplay_unresolvedSpawn].
    destruct (head (args p)) as [[i| | |]|]; try exact I.
    destruct (argAt 1 p) as [[|o| |]|]; try exact I.
    destruct (argAt 5 p) as [[| |ac|]|]; try exact I.
    apply SameReplay_handleEntitySpawn.
  - destruct (String.eqb (method p) "NetDestroy");
      [apply SameReplay_NetDestroy|].
    destruct (String.eqb (method p) "SetEntityUnitID");
      [|apply SameReplay_logTo].
    unfold SetEntityUnitIDArgs.
    destruct (List.find _ (entities a)); [|apply SameReplay_refl].
    destruct (argAt 1 p) as [[u| | |]|]; try exact I.
    apply SameReplay_SetEntityUnitID.
Qed.

(** Dispatch touches neither the clock nor the store, and does not
    throw. *)
Lemma SameReplay_handlePacket p a :
  match handlePacket p a with
  | Returns a' => SameReplay a a'
  | Throws _ => False
  | Unmodelled => True
  end.
Proof.
  unfold handlePacket.
  destruct (String.eqb (className p) "MessageHandler").
  - destruct (id p); [|apply SameReplay_logTo].
    destruct (existsb _ (rpcInstances a)); [|apply SameReplay_logTo].
    pose proof (SameReplay_dispatchMessageHandler p a) as H.
    destruct (dispatchMessageHandler p a); [exact H|exact I|exact I].
  - destruct (String.eqb (className p) "Application");
      [|apply SameReplay_refl].
    destruct (String.eqb (method p) "CreateLobby").
    + destruct (head (args p)) as [[|g| |]|]; try exact I.
      apply SameReplay_CreateLobby.
    + destruct (String.eqb (method p) "requestJoinLobby"
                || String.eqb (method p) "requestJoinPrivateLobby"
                || String.eqb (method p) "genNewAlphaKey")%bool;
        [exact I|apply SameReplay_logTo].
Qed.

Lemma SameReplay_dispatchAll P : forall a,
  match dispatchAll P a with
  | Returns a' => SameReplay a a'
  | Throws _ => False
  | Unmodelled => True
  end.
Proof.
  induction P as [|p P IH]; intros a; cbn [dispatchAll];
    [apply SameReplay_refl|].
  pose proof (SameReplay_handlePacket p a) as H.
  destruct (handlePacket p a) as [a1| |]; cbn [andThen];
    [|exact H|exact I].
  specialize (IH a1). destruct (dispatchAll P a1); [|exact IH|exact I].
  apply (SameReplay_trans _ _ _ H IH).
Qed.

Lemma replayVisit_same now a packets p :
  match replayVisit now (a, packets) p with
  | Returns r => SameReplay a r.1
  | Throws a' => SameReplay a a'
  | Unmodelled => True
  end.
Proof.
  destruct (speedNegative a) eqn:Hn.
  - rewrite (replayVisit_reverse now a packets p Hn).
    destruct (negb (packetIsInTimeframe now a p)); [apply SameReplay_refl|].
    destruct (String.eqb (className p) "MessageHandler"
              && String.eqb (method p) "NetInstantiate")%bool.
    + destruct (messageHandler a);
        [apply SameReplay_NetDestroy|apply SameReplay_refl].
    + destruct (String.eqb (className p) "MessageHandler"
                && String.eqb (method p) "NetDestroy")%bool;
        [|apply SameReplay_refl].
      destruct (List.find _ (replayPackets a));
        [apply SameReplay_refl|apply SameReplay_logTo].
  - unfold replayVisit. rewrite Hn.
    destruct (negb (packetIsInTimeframe now a p)); apply SameReplay_refl.
Qed.

Lemma replayForEach_same now : forall cands a packets,
  match replayForEach now cands (a, packets) with
  | Returns r => SameReplay a r.1
  | Throws a' => SameReplay a a'
  | Unmodelled => True
  end.
Proof.
  induction cands as [|p cands IH]; intros a packets; cbn [replayForEach];
    [apply SameReplay_refl|].
  pose proof (replayVisit_same now a packets p) as H.
  destruct (replayVisit now (a, packets) p) as [[a1 pk1]| |];
    cbn [andThen]; [|exact H|exact I].
  specialize (IH a1 pk1).
  destruct (replayForEach now cands (a1, pk1)); [| |exact I];
    apply (SameReplay_trans _ _ _ H IH).
Qed.

(** What a tick is made of, when it returns and when it throws. *)
Lemma runReplay_inv now dt a :
  match runReplay now dt a with
  | Returns r =>
      exists s a2,
        computedReplaySpeed a = Some s
        /\ SameReplay (replayAdvance dt s a) a2
        /\ r = (setPrevReplayTime (replayCurrentTime a2) a2,
                f64mul (clampDt dt) s)
  | Throws a' =>
      exists s,
        computedReplaySpeed a = Some s
        /\ SameReplay (replayAdvance dt s a) a'
  | Unmodelled => True
  end.
Proof.
  unfold runReplay, replayCollect.
  destruct (computedReplaySpeed a) as [s|]; [|exact I].
  pose proof (replayForEach_same now
                (replayCandidates (replayAdvance dt s a))
                (replayAdvance dt s a) []) as H.
  destruct (replayForEach now _ _) as [[a2 pk]|a2|]; cbn [andThen fst snd];
    [|exists s; split; [reflexivity|exact H]|exact I].
  pose proof (SameReplay_dispatchAll pk a2) as H2.
  destruct (dispatchAll pk a2) as [a3| |]; cbn [andThen];
    [|destruct H2|exact I].
  exists s, a3. split; [reflexivity|]. split; [|reflexivity].
  apply (SameReplay_trans _ _ _ H H2).
Qed.

(** X4.  A tick at a defined speed that returns has returned the product
    of the clamped [expectedDt] and the speed, has added it to the
    virtual time, both in the arithmetic of doubles, and has recorded
    the new time as the previous time; it has changed neither the speed
    index, nor the recording start, nor the packet store or its
    buckets.  A tick that throws has advanced the virtual time in the
    same way and has left the previous time as it was. *)
Theorem tick_clock (now dt s : Q) (a : Application) :
  computedReplaySpeed a = Some s ->
  (forall a' d,
     runReplay now dt a = Returns (a', d) ->
     d = f64mul (if Qle_bool dt 1000 then dt else f64div 1000 60) s
     /\ replayCurrentTime a' = f64add (replayCurrentTime a) d
     /\ prevReplayTime a' = replayCurrentTime a'
     /\ replaySpeed a' = replaySpeed a
     /\ replayStartTime a' = replayStartTime a
     /\ replayPackets a' = replayPackets a
     /\ groupedReplayPackets a' = groupedReplayPackets a)
  /\ (forall a',
        runReplay now dt a = Throws a' ->
        replayCurrentTime a'
        = f64add (replayCurrentTime a)
            (f64mul (if Qle_bool dt 1000 then dt else f64div 1000 60) s)
        /\ prevReplayTime a' = prevReplayTime a
        /\ replaySpeed a' = replaySpeed a
        /\ replayPackets a' = replayPackets a).
Proof.
  intros Hs.
  assert (Hclamp : clampDt dt
                   = if Qle_bool dt 1000 then dt else f64div 1000 60).
  { unfold clampDt, Qltb. destruct (Qle_bool dt 1000); reflexivity. }
  pose proof (runReplay_inv now dt a) as H. split.
  - intros a' d Hr. rewrite Hr in H.
    destruct H as (s' & a2 & Hs' & Hsame & [= -> ->]).
    rewrite Hs in Hs'. injection Hs' as <-.
    destruct Hsame as [Hc Hp Hst Hsp Hpk Hg _ _ _].
    cbn [replayCurrentTime prevReplayTime replaySpeed replayStartTime
         replayPackets groupedReplayPackets setPrevReplayTime].
    rewrite <- Hc, <- Hsp, <- Hst, <- Hpk, <- Hg.
    rewrite replayAdvance_time, replayAdvance_speed, replayAdvance_start,
      replayAdvance_grouped, replayAdvance_packets, <- Hclamp.
    repeat split; reflexivity.
  - intros a' Hr. rewrite Hr in H. destruct H as (s' & Hs' & Hsame).
    rewrite Hs in Hs'. injection Hs' as <-.
    destruct Hsame as [Hc Hp _ Hsp Hpk _ _ _ _].
    rewrite <- Hc, <- Hp, <- Hsp, <- Hpk.
    rewrite replayAdvance_time, replayAdvance_prev, replayAdvance_speed,
      replayAdvance_packets, <- Hclamp.
    repeat split; reflexivity.
Qed.

Lemma tick_clock_witness :
  exists a a' d,
    steps demoStart demoApp = Some a
    /\ runReplay 0 900 a = Returns (a', d)
    /\ d = 900%Q
    /\ replayCurrentTime a' = f64add (replayCurrentTime a) 900
    /\ prevReplayTime a' = replayCurrentTime a'.
Proof.
  destruct (steps demoStart demoApp) as [a|] eqn:H;
    [|vm_compute in H; discriminate H].
  assert (Hs : computedReplaySpeed a = Some 1%Q)
    by by_evaluation H computedReplaySpeed.
  assert (F : returned (fun r : Application * Q => r.2) (runReplay 0 900 a)
              = Some 900%Q)
    by by_evaluation H
         (fun x => returned (fun r : Application * Q => r.2)
                     (runReplay 0 900 x)).
  apply returned_Some in F as ([a' d] & Hr & Hd). cbn in Hd. subst d.
  exists a, a', 900%Q. split; [reflexivity|]. split; [exact Hr|].
  destruct (tick_clock 0 900 1 a Hs) as [Ht _].
  destruct (Ht a' 900%Q Hr) as (_ & Hc & Hp & _).
  split; [reflexivity|]. split; [exact Hc|exact Hp].
Defined.

Lemma stateAfter_settled a o a' : stateAfter o = Some a' -> settled a o = a'.
Proof. unfold settled. intros ->. reflexivity. Qed.

Lemma handleKeyDown_store key a :
  replayPackets (handleKeyDown key a) = replayPackets a
  /\ groupedReplayPackets (handleKeyDown key a) = groupedReplayPackets a.
Proof.
  unfold handleKeyDown. destruct (state a); try (split; reflexivity).
  destruct (String.eqb key "ArrowLeft"), (String.eqb key "ArrowRight");
    cbn; repeat match goal with
                | |- context [if ?c then _ else _] => destruct c
                end; split; reflexivity.
Qed.

Lemma run_store now dt a a' :
  stateAfter (run now dt a) = Some a' ->
  replayPackets a' = replayPackets a
  /\ groupedReplayPackets a' = groupedReplayPackets a.
Proof.
  unfold run. destruct (isReplay a); [|intros [= <-]; split; reflexivity].
  pose proof (runReplay_inv now dt a) as H.
  destruct (runReplay now dt a) as [[a1 d]|a1|]; cbn [andThen stateAfter fst];
    [| |discriminate]; intros [= <-].
  - destruct H as (s & a2 & _ & Hsame & [= -> _]).
    cbn [replayPackets groupedReplayPackets setPrevReplayTime].
    rewrite <- (samePackets _ _ Hsame), <- (sameGrouped _ _ Hsame),
      replayAdvance_grouped, replayAdvance_packets. split; reflexivity.
  - destruct H as (s & _ & Hsame).
    rewrite <- (samePackets _ _ Hsame), <- (sameGrouped _ _ Hsame),
      replayAdvance_grouped, replayAdvance_packets. split; reflexivity.
Qed.

(** Only a replay chunk changes the store. *)
Lemma step_store e a a' :
  step e a = Some a' ->
  (replayPackets a' = replayPackets a
   /\ groupedReplayPackets a' = groupedReplayPackets a)
  \/ exists now rpcs,
       e = EvChunk now rpcs /\ a' = settled a (handleReplayChunk now rpcs a).
Proof.
  destruct e as [i| |now rpcs|session|now dt|now dt|key|p|game];
    cbn [step]; intros H.
  - injection H as <-. left. split; reflexivity.
  - left. unfold requestReplay in H.
    destruct (client a); injection H as <-; split; reflexivity.
  - right. exists now, rpcs. split; [reflexivity|].
    symmetry. apply stateAfter_settled, H.
  - left. unfold beginReplay in H. cbn [replayPackets setIsReplay] in H.
    destruct (replayPackets a) as [|p0 rest] eqn:E;
      [injection H as <-; cbn; rewrite E; split; reflexivity|].
    destruct (timestamp p0); injection H as <-; cbn; rewrite E;
      split; reflexivity.
  - left. apply (run_store now dt (setState running a) a' H).
  - left. apply (run_store now dt a a' H).
  - injection H as <-. left. apply handleKeyDown_store.
  - left. pose proof (SameReplay_handlePacket p a) as Hs.
    destruct (handlePacket p a) as [a1| |]; [|destruct Hs|discriminate].
    injection H as <-. destruct Hs. split; congruence.
  - left. unfold subscribe in H.
    destruct (existsb _ (gameList a));
      [|injection H as <-; split; reflexivity].
    cbn in H. destruct (messageHandler a); cbn in H;
      destruct (client a); injection H as <-; split; reflexivity.
Qed.

(** X1.  Whatever events arrive, the store only grows at its end: the
    packets stored before are a prefix of the packets stored after, and
    so is each bucket of its later self. *)
Theorem store_append_only (es : list Event) (a a' : Application) :
  steps es a = Some a' ->
  (exists l, replayPackets a' = replayPackets a ++ l)
  /\ forall s : Z, exists l,
       default [] (groupedReplayPackets a' !! s)
       = default [] (groupedReplayPackets a !! s) ++ l.
Proof.
  revert a. induction es as [|e es IH]; intros a H; cbn [steps] in H.
  - injection H as <-. split; [exists []|intros s; exists []];
      rewrite app_nil_r; reflexivity.
  - destruct (step e a) as [a1|] eqn:E; [|discriminate].
    destruct (IH a1 H) as ([l Hl] & Hb).
    destruct (step_store e a a1 E) as [[Hp Hg]|(now & rpcs & _ & ->)].
    + rewrite <- Hp, <- Hg. split; [eauto|exact Hb].
    + destruct (settled_chunk now rpcs a) as [Hp Hg]. split.
      * exists (resolveChunk (currentReplayChunkReceive a) rpcs ++ l).
        rewrite Hl, Hp, <- app_assoc. reflexivity.
      * intros s. destruct (Hb s) as [k Hk]. rewrite Hk, Hg.
        rewrite groupPacket_fold_bucket, <- app_assoc. eauto.
Qed.

Lemma store_append_only_witness :
  exists a a',
    steps demoStart demoApp = Some a
    /\ steps ([EvFrame 0 900] ++ fourLeft ++ [EvFrame 0 900]) a = Some a'
    /\ exists l, replayPackets a' = replayPackets a ++ l.
Proof.
  destruct (steps demoStart demoApp) as [a|] eqn:H;
    [|vm_compute in H; discriminate H].
  assert (F : (fun _ : Application => true)
                <$> steps ([EvFrame 0 900] ++ fourLeft ++ [EvFrame 0 900]) a
              = Some true)
    by by_evaluation H
         (fun x => (fun _ : Application => true)
                     <$> steps ([EvFrame 0 900] ++ fourLeft
                                ++ [EvFrame 0 900]) x).
  destruct (steps ([EvFrame 0 900] ++ fourLeft ++ [EvFrame 0 900]) a)
    as [a'|] eqn:H'; [|discriminate F].
  exists a, a'. split; [reflexivity|]. split; [exact H'|].
  apply (store_append_only _ _ _ H').
Defined.

(** Every event keeps each stamped packet in the bucket of its second. *)
Lemma groupPacket_fold_placed now rpcs g :
  bucketsPlaced g -> bucketsPlaced (fold_left (groupPacket now) rpcs g).
Proof.
  intros Hg s p t Hin Ht. rewrite groupPacket_fold_bucket in Hin.
  apply in_app_iff in Hin as [Hin|Hin]; [apply (Hg s p t Hin Ht)|].
  apply List.filter_In in Hin as [_ Hs]. apply Z.eqb_eq in Hs.
  unfold timestampOr in Hs. rewrite Ht in Hs. exact Hs.
Qed.

Lemma steps_placed es : forall a a',
  steps es a = Some a' ->
  bucketsPlaced (groupedReplayPackets a) ->
  bucketsPlaced (groupedReplayPackets a').
Proof.
  induction es as [|e es IH]; intros a a' H Hg; cbn [steps] in H.
  - injection H as <-. exact Hg.
  - destruct (step e a) as [a1|] eqn:E; [|discriminate].
    apply (IH a1 a' H).
    destruct (step_store e a a1 E) as [[_ ->]|(now & rpcs & _ & ->)];
      [exact Hg|].
    destruct (settled_chunk now rpcs a) as [_ ->].
    apply groupPacket_fold_placed, Hg.
Qed.

Lemma placed_empty : bucketsPlaced ∅.
Proof. intros s p t Hin. rewrite lookup_empty in Hin. destruct Hin. Qed.

(** X2.  In any state the application reaches, a forward tick consults
    the bucket of the new time and the bucket of the previous time only:
    a stamped packet whose second is neither of the two is not
    dispatched by the tick, wherever its time lies. *)
Theorem forward_tick_skips_seconds (classes : list EntityClass)
    (es : list Event) (a : Application) (now dt s t : Q) (p : RPCPacket) :
  steps es (newApplication classes) = Some a ->
  computedReplaySpeed a = Some s -> (0 < s)%Q ->
  timestamp p = Some t ->
  secondOf t
  <> secondOf (f64add (replayCurrentTime a) (f64mul (clampDt dt) s)) ->
  secondOf t <> secondOf (prevReplayTime a) ->
  exists packets,
    replayDispatched now dt a = Some packets /\ ~ In p packets.
Proof.
  intros Hsteps Hs Hpos Ht Hcur Hprev.
  pose proof (steps_placed es _ _ Hsteps placed_empty) as Hpl.
  unfold replayDispatched, replayCollect. rewrite Hs.
  rewrite replayForEach_forward.
  2:{ unfold speedPositive. rewrite replayAdvance_computed, Hs.
      apply Qltb_lt, Hpos. }
  eexists. split; [reflexivity|]. cbn [app]. intros Hin.
  apply List.filter_In in Hin as [Hin _].
  rewrite replayAdvance_candidates in Hin. unfold bucketAt in Hin.
  apply in_app_iff in Hin as [Hin|Hin].
  - apply Hcur. apply (Hpl _ p t Hin Ht).
  - apply Hprev. apply (Hpl _ p t Hin Ht).
Qed.

Lemma forward_tick_skips_seconds_witness :
  exists a packets,
    steps skipEvents demoApp = Some a
    /\ (prevReplayTime a
        < fromRecordingStart 0 a (instPacket 7 "Units/Allied/E-4" 1500))%Q
    /\ (fromRecordingStart 0 a (instPacket 7 "Units/Allied/E-4" 1500)
        <= f64add (replayCurrentTime a) (f64mul (clampDt 400) 8))%Q
    /\ replayDispatched 0 400 a = Some packets
    /\ ~ In (instPacket 7 "Units/Allied/E-4" 1500) packets.
Proof.
  destruct (steps skipEvents demoApp) as [a|] eqn:H;
    [|vm_compute in H; discriminate H].
  assert (Hs : computedReplaySpeed a = Some 8%Q)
    by by_evaluation H computedReplaySpeed.
  destruct (forward_tick_skips_seconds [AIAirVehicle] skipEvents a 0 400 8
              1500 (instPacket 7 "Units/Allied/E-4" 1500) H Hs eq_refl eq_refl)
    as (packets & Hd & Hn).
  - apply Z.eqb_neq.
    by_evaluation H
      (fun x => (secondOf 1500
                 =? secondOf (f64add (replayCurrentTime x)
                                (f64mul (clampDt 400) 8)))%Z).
  - apply Z.eqb_neq.
    by_evaluation H
      (fun x => (secondOf 1500 =? secondOf (prevReplayTime x))%Z).
  - exists a, packets. split; [reflexivity|]. split.
    { apply Qltb_lt.
      by_evaluation H
        (fun x => Qltb (prevReplayTime x)
                    (fromRecordingStart 0 x
                       (instPacket 7 "Units/Allied/E-4" 1500))). }
    split.
    { apply Qleb_le.
      by_evaluation H
        (fun x => Qleb (fromRecordingStart 0 x
                          (instPacket 7 "Units/Allied/E-4" 1500))
                    (f64add (replayCurrentTime x) (f64mul (clampDt 400) 8))). }
    split; assumption.
Defined.

(** X3.  When the new and the previous virtual time of a forward tick
    fall in the same second, the bucket of that second is listed twice
    among the candidates, and every packet of the time frame is handed
    to the dispatcher twice: the packets of the tick are the packets of
    the bucket that lie in the time frame, followed by the same packets
    again. *)
Theorem same_second_dispatches_twice (now dt s : Q) (a : Application) :
  computedReplaySpeed a = Some s -> (0 < s)%Q ->
  secondOf (f64add (replayCurrentTime a) (f64mul (clampDt dt) s))
  = secondOf (prevReplayTime a) ->
  let inFrame p :=
    (Qltb (prevReplayTime a) (fromRecordingStart now a p)
     && Qleb (fromRecordingStart now a p)
          (f64add (replayCurrentTime a) (f64mul (clampDt dt) s)))%bool in
  let bucket := bucketAt (groupedReplayPackets a) (prevReplayTime a) in
  replayDispatched now dt a
  = Some (List.filter inFrame bucket ++ List.filter inFrame bucket).
Proof.
  intros Hs Hpos Hsec inFrame bucket.
  unfold replayDispatched, replayCollect. rewrite Hs.
  rewrite replayForEach_forward.
  2:{ unfold speedPositive. rewrite replayAdvance_computed, Hs.
      apply Qltb_lt, Hpos. }
  rewrite replayAdvance_candidates. cbn [app].
  replace (bucketAt (groupedReplayPackets a) (nextReplayTime dt s a))
    with bucket
    by (unfold bucket, bucketAt, nextReplayTime; rewrite Hsec; reflexivity).
  rewrite List.filter_app. f_equal.
  assert (Hext : forall p,
            packetIsInTimeframe now (replayAdvance dt s a) p = inFrame p).
  { intros p. unfold packetIsInTimeframe, inFrame, speedPositive.
    rewrite replayAdvance_computed, Hs.
    replace (Qltb 0 s) with true by (symmetry; apply Qltb_lt, Hpos).
    rewrite replayAdvance_from, replayAdvance_time, replayAdvance_prev.
    apply andb_comm. }
  rewrite !(List.filter_ext _ _ Hext). reflexivity.
Qed.

Lemma same_second_dispatches_twice_witness :
  exists a,
    steps demoStart demoApp = Some a
    /\ replayDispatched 0 900 a
       = Some [instPacket 7 "Units/Allied/E-4" 400;
               instPacket 7 "Units/Allied/E-4" 400].
Proof.
  destruct (steps demoStart demoApp) as [a|] eqn:H;
    [|vm_compute in H; discriminate H].
  exists a. split; [reflexivity|].
  assert (Hs : computedReplaySpeed a = Some 1%Q)
    by by_evaluation H computedReplaySpeed.
  rewrite (same_second_dispatches_twice 0 900 1 a Hs eq_refl).
  - f_equal.
    by_evaluation H
      (fun x =>
         List.filter
           (fun p => (Qltb (prevReplayTime x) (fromRecordingStart 0 x p)
                      && Qleb (fromRecordingStart 0 x p)
                           (f64add (replayCurrentTime x)
                              (f64mul (clampDt 900) 1)))%bool)
           (bucketAt (groupedReplayPackets x) (prevReplayTime x))
         ++ List.filter
              (fun p => (Qltb (prevReplayTime x) (fromRecordingStart 0 x p)
                         && Qleb (fromRecordingStart 0 x p)
                              (f64add (replayCurrentTime x)
                                 (f64mul (clampDt 900) 1)))%bool)
              (bucketAt (groupedReplayPackets x) (prevReplayTime x))).
  - apply Z.eqb_eq.
    by_evaluation H
      (fun x => (secondOf (f64add (replayCurrentTime x)
                             (f64mul (clampDt 900) 1))
                 =? secondOf (prevReplayTime x))%Z).
Defined.

(** ** Ingestion and the start of a replay *)

Lemma resolveChunk_head k p0 rest :
  exists q t l,
    resolveChunk k (p0 :: rest) = q :: l /\ timestamp q = Some t.
Proof.
  unfold resolveChunk. destruct (timestamp p0) as [t0|] eqn:E.
  - exists p0, t0, rest. auto.
  - unfold interpolateTimestamps. cbn [imap].
    eexists _, _, _. split; reflexivity.
Qed.

(** The first packet of the store after chunks of which one is not
    empty, ingested into an empty store, has a timestamp. *)
Lemma ingestChunks_head chunks : forall a,
  replayPackets a = [] ->
  (exists c, In c chunks /\ snd c <> []) ->
  exists q t l,
    replayPackets (ingestChunks chunks a) = q :: l /\ timestamp q = Some t.
Proof.
  induction chunks as [|[now rpcs] chunks IH]; intros a Hempty (c & Hin & Hc);
    [destruct Hin|].
  cbn [ingestChunks]. destruct rpcs as [|p0 more].
  - rewrite settled_nil. apply (IH a Hempty).
    destruct Hin as [<-|Hin]; [cbn in Hc; congruence|].
    exists c. split; assumption.
  - rewrite ingestChunks_store.
    destruct (settled_chunk now (p0 :: more) a) as [-> _]. rewrite Hempty.
    destruct (resolveChunk_head (currentReplayChunkReceive a) p0 more)
      as (q & t & l & -> & Ht).
    cbn [app]. eauto.
Qed.

(** X6.  Once chunks of which at least one is not empty have been
    ingested into an empty store, [beginReplay] neither throws nor logs
    the missing-timestamp error: the first stored packet has a
    timestamp, its own or the synthetic one of its chunk.  The call sets
    [isReplay], sets the recording start and the virtual time to that
    timestamp, and makes and registers the message handler of the
    session; everything else, the previous virtual time and the
    application state among it, is as before: [start()] has been called
    and changes the state only when it is resumed. *)
Theorem beginReplay_after_ingestion (chunks : list (Q * list RPCPacket))
    (session : string) (a : Application) :
  replayPackets a = [] ->
  (exists c, In c chunks /\ snd c <> []) ->
  let a1 := ingestChunks chunks a in
  exists q t,
    head (replayPackets a1) = Some q
    /\ timestamp q = Some t
    /\ beginReplay session a1
       = Returns
         {| replayPackets := replayPackets a1;
            groupedReplayPackets := groupedReplayPackets a1;
            onReplayChunk := onReplayChunk a1; isReplay := true;
            replayStartTime := t;
            currentReplayChunkReceive := currentReplayChunkReceive a1;
            replayCurrentTime := t; prevReplayTime := prevReplayTime a1;
            replaySpeed := replaySpeed a1; entities := entities a1;
            messageHandler := Some session; state := state a1;
            spawnables := spawnables a1; gameList := gameList a1;
            expectedReplayChunks := expectedReplayChunks a1;
            console := console a1; removed := removed a1;
            rpcInstances := rpcInstances a1 ++ [session];
            client := client a1 |}.
Proof.
  intros Hempty Hne a1.
  destruct (ingestChunks_head chunks a Hempty Hne) as (q & t & l & Hl & Ht).
  fold a1 in Hl. exists q, t. split; [rewrite Hl; reflexivity|].
  split; [exact Ht|].
  clearbody a1. destruct a1. cbn in Hl. subst. unfold beginReplay.
  cbn. rewrite Ht. reflexivity.
Qed.

Lemma beginReplay_after_ingestion_witness :
  exists q a2,
    head (replayPackets (ingestChunks [(0%Q, []); (0%Q, demoChunk)]
                           demoReplayApp)) = Some q
    /\ timestamp q = Some 0%Q
    /\ beginReplay "g" (ingestChunks [(0%Q, []); (0%Q, demoChunk)]
                          demoReplayApp) = Returns a2
    /\ (replayStartTime a2 == 0)%Q
    /\ state a2 = welcome
    /\ messageHandler a2 = Some "g".
Proof.
  destruct (beginReplay_after_ingestion [(0%Q, []); (0%Q, demoChunk)] "g"
              demoReplayApp eq_refl)
    as (q & t & Hq & Ht & Hb).
  { exists (0%Q, demoChunk). split; [right; left; reflexivity|discriminate]. }
  assert (E : t = 0%Q).
  { vm_compute in Hq. injection Hq as <-. vm_compute in Ht.
    injection Ht as <-. reflexivity. }
  subst t. exists q. eexists. split; [exact Hq|]. split; [exact Ht|].
  split; [exact Hb|]. cbn [replayStartTime state messageHandler].
  split; [reflexivity|]. split; reflexivity.
Defined.

(** The counter and the callback after chunks, of which the empty ones
    are not counted. *)
Lemma ingestChunks_completion chunks : forall a,
  let arrived :=
    Z.of_nat (List.length
                (List.filter (fun c : Q * list RPCPacket =>
                                match snd c with [] => false | _ => true end)
                   chunks)) in
  expectedReplayChunks (ingestChunks chunks a) = expectedReplayChunks a
  /\ (onReplayChunk a = false ->
      onReplayChunk (ingestChunks chunks a) = false
      /\ currentReplayChunkReceive (ingestChunks chunks a)
         = currentReplayChunkReceive a)
  /\ (onReplayChunk a = true ->
      currentReplayChunkReceive a < expectedReplayChunks a ->
      currentReplayChunkReceive (ingestChunks chunks a)
      = Z.min (currentReplayChunkReceive a + arrived)
              (expectedReplayChunks a)
      /\ onReplayChunk (ingestChunks chunks a)
         = (currentReplayChunkReceive a + arrived
            <? expectedReplayChunks a)%Z).
Proof.
  induction chunks as [|[now rpcs] chunks IH]; intros a;
    cbn [ingestChunks List.filter].
  - cbn [List.length Z.of_nat]. split; [reflexivity|]. split; [auto|].
    intros Hon Hlt. rewrite Z.add_0_r. split.
    + lia.
    + rewrite Hon. symmetry. apply Z.ltb_lt, Hlt.
  - destruct rpcs as [|p0 more]; cbn [snd].
    + rewrite settled_nil. apply IH.
    + destruct (handleReplayChunk_cons now p0 more a)
        as (a1 & E & _ & _ & He1 & Hc1 & Ho1).
      rewrite (settled_cons _ _ _ _ _ E).
      destruct (IH a1) as (He & Hoff & Hon). cbn zeta in Hon.
      split; [congruence|]. split.
      * intros Hf. rewrite Hf in Hc1, Ho1. cbn [andb] in Ho1.
        destruct (Hoff Ho1) as [H1 H2]. split; congruence.
      * intros Ht Hlt. rewrite Ht in Hc1, Ho1. cbn [andb] in Ho1.
        cbn [List.length]. rewrite Nat2Z.inj_succ.
        destruct (Z.eqb_spec (currentReplayChunkReceive a + 1)
                             (expectedReplayChunks a)) as [Heq|Hneq];
          cbn [negb] in Ho1.
        -- destruct (Hoff Ho1) as [H1 H2]. rewrite H1, H2, Hc1. split; [lia|].
           symmetry. apply Z.ltb_ge. lia.
        -- destruct (Hon Ho1) as [H1 H2]; [rewrite Hc1, He1; lia|].
           rewrite H1, H2, Hc1, He1. split; [lia|]. f_equal. lia.
Qed.

(** X7.  After a [requestReplay] that returned, with [n >= 1] chunks
    expected, the chunk counter follows the chunks that arrive with at
    least one packet, up to [n], and stops there: the callback is
    removed by the chunk that makes the counter equal to [n], so the
    completion it signals fires once, and later chunks are stored but no
    longer counted.  A chunk without a packet throws before the callback
    and is not counted. *)
Theorem replay_completion (chunks : list (Q * list RPCPacket))
    (a a0 : Application) :
  1 <= expectedReplayChunks a ->
  requestReplay a = Returns a0 ->
  let arrived :=
    Z.of_nat (List.length
                (List.filter (fun c : Q * list RPCPacket =>
                                match snd c with [] => false | _ => true end)
                   chunks)) in
  currentReplayChunkReceive (ingestChunks chunks a0)
  = Z.min arrived (expectedReplayChunks a)
  /\ onReplayChunk (ingestChunks chunks a0)
     = (arrived <? expectedReplayChunks a)%Z.
Proof.
  intros Hn Hr arrived.
  unfold requestReplay in Hr. destruct (client a); [|discriminate].
  injection Hr as <-.
  destruct (ingestChunks_completion chunks
              (setOnReplayChunk true (setCurrentReplayChunkReceive 0 a)))
    as (_ & _ & Hon).
  apply (Hon eq_refl). cbn. lia.
Qed.

Lemma replay_completion_witness :
  currentReplayChunkReceive
    (ingestChunks (repeat (0%Q, demoChunk) 5 ++ [(0%Q, [])]) demoReplayApp) = 3
  /\ onReplayChunk
       (ingestChunks (repeat (0%Q, demoChunk) 5 ++ [(0%Q, [])]) demoReplayApp)
     = false.
Proof.
  apply (replay_completion (repeat (0%Q, demoChunk) 5 ++ [(0%Q, [])])
           (setExpectedReplayChunks 3 demoClient) demoReplayApp).
  - cbn. lia.
  - reflexivity.
Defined.

(** ** The entity registry *)

Lemma find_app_none {A} (f : A -> bool) l k :
  (forall x, In x l -> f x = false) -> List.find f (l ++ k) = List.find f k.
Proof.
  induction l as [|x l IH]; intros H; [reflexivity|]. cbn [app List.find].
  rewrite (H x (or_introl eq_refl)). apply IH.
  intros y Hy. apply H. right. exact Hy.
Qed.

Lemma not_live_no_match i es :
  ~ In i (map eid es) -> forall e, In e es -> (eid e =? i)%Z = false.
Proof.
  intros H e He. apply Z.eqb_neq. intros E. apply H. rewrite <- E.
  apply in_map, He.
Qed.

(** X8.  Spawn and despawn are inverse on an id that is not live: a
    spawn whose path resolves makes the entity the one [getEntityById]
    finds, with the class of the first matching spawnable, and a
    [NetDestroy] of that id then tears exactly this entity down and
    leaves the live list, in the order it had before the spawn. *)
Theorem spawn_despawn_round_trip (i : Z) (owner pth : string)
    (pos rot : Vector3) (active : bool) (c : EntityClass) (a : Application) :
  ~ In i (liveIds a) ->
  resolveEntityClass (spawnables a) pth = Some c ->
  let e := {| eid := i; ownerId := owner; path := pth; position := pos;
              rotation := rot; isActive := active; unitId := None;
              eclass := ecName c |} in
  let a1 := handleEntitySpawn i owner pth pos rot active a in
  let a2 := NetDestroy (Some (ANum i)) a1 in
  getEntityById i a = None
  /\ getEntityById i a1 = Some e
  /\ entities a2 = entities a
  /\ removed a2 = removed a ++ [e]
  /\ getEntityById i a2 = None.
Proof.
  intros Hfresh Hres e a1 a2.
  pose proof (not_live_no_match i (entities a) Hfresh) as Hno.
  assert (Hnone : getEntityById i a = None)
    by (apply find_absent; exact Hno).
  assert (He1 : entities a1 = entities a ++ [e]).
  { unfold a1, handleEntitySpawn. rewrite Hres. reflexivity. }
  assert (Hd : destroyFirst (Some (ANum i)) (entities a1)
               = Some (e, entities a ++ [])).
  { rewrite He1. apply destroyFirst_split.
    - intros x Hx. rewrite idMatches_num. apply Hno, Hx.
    - rewrite idMatches_num. apply Z.eqb_refl. }
  split; [exact Hnone|]. split.
  - unfold getEntityById. rewrite He1, (find_app_none _ _ _ Hno).
    cbn. rewrite Z.eqb_refl. reflexivity.
  - unfold a2, NetDestroy. rewrite Hd, app_nil_r. cbn.
    split; [reflexivity|]. split; [|exact Hnone].
    unfold a1, handleEntitySpawn. rewrite Hres. reflexivity.
Qed.

Lemma spawn_despawn_round_trip_witness :
  getEntityById 3 (handleEntitySpawn 3 "0" "units/allied/kc-49 " zeroVec
                     zeroVec true (setEntities [demoEntity 1] demoApp))
  = Some {| eid := 3; ownerId := "0"; path := "units/allied/kc-49 ";
            position := zeroVec; rotation := zeroVec; isActive := true;
            unitId := None; eclass := "AIAirVehicle" |}
  /\ entities (NetDestroy (Some (ANum 3))
                 (handleEntitySpawn 3 "0" "units/allied/kc-49 " zeroVec
                    zeroVec true (setEntities [demoEntity 1] demoApp)))
     = [demoEntity 1].
Proof.
  destruct (spawn_despawn_round_trip 3 "0" "units/allied/kc-49 " zeroVec
              zeroVec true AIAirVehicle (setEntities [demoEntity 1] demoApp))
    as (_ & H1 & H2 & _).
  - cbn. intros [E|[]]. discriminate E.
  - vm_compute. reflexivity.
  - split; [exact H1|exact H2].
Defined.

Lemma existsb_eqb_In g l : existsb (String.eqb g) l = true <-> In g l.
Proof.
  rewrite existsb_exists. split.
  - intros (x & Hx & E). apply String.eqb_eq in E. subst x. exact Hx.
  - intros H. exists g. split; [exact H|apply String.eqb_refl].
Qed.

(** X9.  A session switch to a listed lobby tears down every live
    entity, in the order of the list, leaves none and deregisters the
    current message handler.  With a client (an [assign-id] message has
    arrived) it then returns with the message handler of the new session
    made and registered; without one it throws at
    [this.client.subscribe], the entities gone and no new handler made.
    When no listed lobby has the id it throws with nothing changed.  In
    every case the packet store, the clock, the speed index and the
    application state are as before: the [start()] it calls when the
    application is not running changes the state only when it is
    resumed. *)
Theorem subscribe_clears (g : string) (a : Application) :
  let instances := match messageHandler a with
    | Some h => removeOne h (rpcInstances a)
    | None => rpcInstances a
    end in
  (In g (gameList a) ->
   (client a <> None ->
    subscribe g a
    = Returns
            {| replayPackets := replayPackets a;
               groupedReplayPackets := groupedReplayPackets a;
               onReplayChunk := onReplayChunk a; isReplay := isReplay a;
               replayStartTime := replayStartTime a;
               currentReplayChunkReceive := currentReplayChunkReceive a;
               replayCurrentTime := replayCurrentTime a;
               prevReplayTime := prevReplayTime a;
               replaySpeed := replaySpeed a; entities := [];
               messageHandler := Some g; state := state a;
               spawnables := spawnables a; gameList := gameList a;
               expectedReplayChunks := expectedReplayChunks a;
               console := console a; removed := removed a ++ entities a;
               rpcInstances := instances ++ [g]; client := client a |})
   /\ (client a = None ->
       subscribe g a
       = Throws
         {| replayPackets := replayPackets a;
            groupedReplayPackets := groupedReplayPackets a;
            onReplayChunk := onReplayChunk a; isReplay := isReplay a;
            replayStartTime := replayStartTime a;
            currentReplayChunkReceive := currentReplayChunkReceive a;
            replayCurrentTime := replayCurrentTime a;
            prevReplayTime := prevReplayTime a;
            replaySpeed := replaySpeed a; entities := [];
            messageHandler := messageHandler a; state := state a;
            spawnables := spawnables a; gameList := gameList a;
            expectedReplayChunks := expectedReplayChunks a;
            console := console a; removed := removed a ++ entities a;
            rpcInstances := instances; client := client a |}))
  /\ (~ In g (gameList a) -> subscribe g a = Throws a).
Proof.
  intros instances. unfold subscribe. split; intros H.
  - replace (existsb (String.eqb g) (gameList a)) with true
      by (symmetry; apply existsb_eqb_In, H).
    unfold instances. clear instances H.
    destruct a as [rp grp orc ir rst crc rct prt rs es mh st sp gl erc co
                   rm ri cl].
    cbn. split; intros Hc; destruct mh, cl; try congruence; reflexivity.
  - destruct (existsb (String.eqb g) (gameList a)) eqn:E; [|reflexivity].
    exfalso. apply existsb_eqb_In in E. exact (H E).
Qed.

Lemma subscribe_clears_witness :
  (exists a',
     subscribe "lobby"
       (CreateLobby "lobby"
          (setEntities [demoEntity 1; demoEntity 2] demoClient))
     = Returns a'
     /\ entities a' = []
     /\ removed a' = [demoEntity 1; demoEntity 2]
     /\ messageHandler a' = Some "lobby")
  /\ (exists a',
        subscribe "lobby"
          (CreateLobby "lobby"
             (setEntities [demoEntity 1; demoEntity 2] demoApp))
        = Throws a'
        /\ entities a' = []
        /\ messageHandler a' = None)
  /\ subscribe "other" demoClient = Throws demoClient.
Proof.
  destruct (subscribe_clears "lobby"
              (CreateLobby "lobby"
                 (setEntities [demoEntity 1; demoEntity 2] demoClient)))
    as [H _].
  destruct H as [H1 _]; [left; reflexivity|].
  destruct (subscribe_clears "lobby"
              (CreateLobby "lobby"
                 (setEntities [demoEntity 1; demoEntity 2] demoApp)))
    as [H _].
  destruct H as [_ H2]; [left; reflexivity|].
  destruct (subscribe_clears "other" demoClient) as [_ Hn].
  split; [|split].
  - eexists. split; [apply H1; discriminate|]. repeat split; reflexivity.
  - eexists. split; [apply H2; reflexivity|]. split; reflexivity.
  - apply Hn. intros [].
Defined.

Lemma setFirstUnitId_ids e u es :
  map eid (setFirstUnitId e u es) = map eid es.
Proof.
  induction es as [|x es IH]; [reflexivity|]. cbn [setFirstUnitId].
  destruct (eid x =? e)%Z; cbn [map]; [reflexivity|]. rewrite IH. reflexivity.
Qed.

Lemma setFirstUnitId_find e u es :
  List.find (fun x => (eid x =? e)%Z) (setFirstUnitId e u es)
  = option_map (setUnitId u) (List.find (fun x => (eid x =? e)%Z) es).
Proof.
  induction es as [|x es IH]; [reflexivity|]. cbn [setFirstUnitId List.find].
  destruct (eid x =? e)%Z eqn:E; cbn [List.find].
  - change (eid (setUnitId u x)) with (eid x). rewrite E. reflexivity.
  - rewrite E. exact IH.
Qed.

Lemma setFirstUnitId_absent e u es :
  List.find (fun x => (eid x =? e)%Z) es = None -> setFirstUnitId e u es = es.
Proof.
  induction es as [|x es IH]; [reflexivity|]. cbn [setFirstUnitId List.find].
  destruct (eid x =? e)%Z; [discriminate|]. intros H. rewrite (IH H).
  reflexivity.
Qed.

(** X10.  [SetEntityUnitID] never adds, removes or reorders entities.
    The entity that [getEntityById] finds gets the unit id, and a lookup
    by that unit id then finds an entity; for an id that is not live the
    call changes nothing. *)
Theorem SetEntityUnitID_lookup (i u : Z) (a : Application) :
  liveIds (SetEntityUnitID i u a) = liveIds a
  /\ getEntityById i (SetEntityUnitID i u a)
     = option_map (setUnitId u) (getEntityById i a)
  /\ (getEntityById i a = None -> SetEntityUnitID i u a = a)
  /\ (getEntityById i a <> None ->
      exists e, getEntityByUnitId u (SetEntityUnitID i u a) = Some e
                /\ unitId e = Some u).
Proof.
  unfold SetEntityUnitID, liveIds, getEntityById, getEntityByUnitId.
  cbn [entities setEntities].
  split; [apply setFirstUnitId_ids|]. split; [apply setFirstUnitId_find|].
  split.
  - intros H. rewrite (setFirstUnitId_absent _ _ _ H). destruct a; reflexivity.
  - intros H.
    destruct (List.find (fun x => (eid x =? i)%Z) (entities a)) as [e0|] eqn:E;
      [|congruence].
    pose proof (setFirstUnitId_find i u (entities a)) as Hf. rewrite E in Hf.
    apply List.find_some in Hf as [Hin _].
    destruct (List.find
                (fun e => match unitId e with
                          | Some v => (v =? u)%Z
                          | None => false
                          end)
                (setFirstUnitId i u (entities a))) as [e|] eqn:Eu.
    + exists e. split; [reflexivity|].
      apply List.find_some in Eu as [_ Hu].
      destruct (unitId e) as [v|]; [|discriminate].
      apply Z.eqb_eq in Hu. congruence.
    + exfalso.
      pose proof (List.find_none _ _ Eu _ Hin) as Hn. cbn in Hn.
      rewrite Z.eqb_refl in Hn. discriminate.
Qed.

Lemma SetEntityUnitID_lookup_witness :
  getEntityById 2
    (SetEntityUnitID 2 40 (setEntities [demoEntity 1; demoEntity 2] demoApp))
  = Some (setUnitId 40 (demoEntity 2))
  /\ SetEntityUnitID 9 40 (setEntities [demoEntity 1; demoEntity 2] demoApp)
     = setEntities [demoEntity 1; demoEntity 2] demoApp.
Proof.
  destruct (SetEntityUnitID_lookup 2 40
              (setEntities [demoEntity 1; demoEntity 2] demoApp))
    as (_ & H2 & _).
  destruct (SetEntityUnitID_lookup 9 40
              (setEntities [demoEntity 1; demoEntity 2] demoApp))
    as (_ & _ & H9 & _).
  split; [exact H2|]. apply H9. reflexivity.
Defined.

(** ** Speed keys *)

Lemma handleKeyDown_state key a : state (handleKeyDown key a) = state a.
Proof.
  unfold handleKeyDown. destruct (state a) eqn:E; try exact E.
  destruct (String.eqb key "ArrowLeft"), (String.eqb key "ArrowRight");
    cbn; repeat match goal with
                | |- context [if ?c then _ else _] => destruct c
                end; exact E.
Qed.

Lemma pressKeys_cons k keys a :
  pressKeys (k :: keys) a = pressKeys keys (handleKeyDown k a).
Proof. reflexivity. Qed.

(** X11.  While the application is running, [k] presses of the right
    arrow move the speed index [i] to [min (i + k) 12] and [k] presses
    of the left arrow to [max (i - k) 0]; in any other state key presses
    leave the application as it is. *)
Theorem arrow_presses (k : nat) (a : Application) :
  speedInRange a ->
  (state a = running ->
   replaySpeed (pressKeys (repeat "ArrowRight" k) a)
   = Z.min (replaySpeed a + Z.of_nat k) 12
   /\ replaySpeed (pressKeys (repeat "ArrowLeft" k) a)
      = Z.max (replaySpeed a - Z.of_nat k) 0)
  /\ (state a <> running -> forall keys, pressKeys keys a = a).
Proof.
  unfold speedInRange. rewrite REPLAY_SPEEDS_length. intros Hr. split.
  - intros Hrun. split.
    + revert a Hr Hrun. induction k as [|k IH]; intros a Hr Hrun.
      * cbn. lia.
      * cbn [repeat]. rewrite pressKeys_cons, IH.
        -- unfold handleKeyDown. rewrite Hrun. cbn. lia.
        -- unfold handleKeyDown. rewrite Hrun. cbn. lia.
        -- rewrite handleKeyDown_state. exact Hrun.
    + revert a Hr Hrun. induction k as [|k IH]; intros a Hr Hrun.
      * cbn. lia.
      * cbn [repeat]. rewrite pressKeys_cons, IH.
        -- unfold handleKeyDown. rewrite Hrun. cbn. lia.
        -- unfold handleKeyDown. rewrite Hrun. cbn. lia.
        -- rewrite handleKeyDown_state. exact Hrun.
  - intros Hst keys. induction keys as [|key keys IH]; [reflexivity|].
    rewrite pressKeys_cons.
    replace (handleKeyDown key a) with a; [exact IH|].
    unfold handleKeyDown. destruct (state a); congruence.
Qed.

Lemma arrow_presses_witness :
  replaySpeed (pressKeys (repeat "ArrowRight" 3) (setState running demoApp))
  = 10
  /\ replaySpeed (pressKeys (repeat "ArrowLeft" 9) (setState running demoApp))
     = 0
  /\ pressKeys ["ArrowLeft"; "ArrowRight"] demoApp = demoApp.
Proof.
  destruct (arrow_presses 3 (setState running demoApp)) as [[H1 _] _];
    [unfold speedInRange; cbn; lia | reflexivity |].
  destruct (arrow_presses 9 (setState running demoApp)) as [[_ H2] _];
    [unfold speedInRange; cbn; lia | reflexivity |].
  destruct (arrow_presses 0 demoApp) as [_ H3];
    [unfold speedInRange; cbn; lia |].
  split; [exact H1|]. split; [exact H2|]. apply H3. discriminate.
Defined.

(** ** Spawn rules *)

Lemma isSpace_lowerCodeUnit c : isSpace (lowerCodeUnit c) = isSpace c.
Proof. destruct c as [[] [] [] [] [] [] [] []]; reflexivity. Qed.

Lemma lowerCodeUnit_idem c : lowerCodeUnit (lowerCodeUnit c) = lowerCodeUnit c.
Proof. destruct c as [[] [] [] [] [] [] [] []]; reflexivity. Qed.

Lemma toLowerCase_idem s : toLowerCase (toLowerCase s) = toLowerCase s.
Proof.
  induction s as [|c s IH]; [reflexivity|]. cbn [toLowerCase].
  rewrite lowerCodeUnit_idem, IH. reflexivity.
Qed.

Lemma toLowerCase_length s : String.length (toLowerCase s) = String.length s.
Proof.
  induction s as [|c s IH]; [reflexivity|]. cbn [toLowerCase String.length].
  rewrite IH. reflexivity.
Qed.

Lemma trimStart_toLowerCase s :
  trimStart (toLowerCase s) = toLowerCase (trimStart s).
Proof.
  induction s as [|c s IH]; [reflexivity|]. cbn [toLowerCase trimStart].
  rewrite isSpace_lowerCodeUnit. destruct (isSpace c); [exact IH|reflexivity].
Qed.

Lemma trimEnd_toLowerCase s :
  trimEnd (toLowerCase s) = toLowerCase (trimEnd s).
Proof.
  induction s as [|c s IH]; [reflexivity|]. cbn [toLowerCase trimEnd].
  rewrite IH, isSpace_lowerCodeUnit.
  destruct (trimEnd s) as [|d r]; cbn [toLowerCase].
  - destruct (isSpace c); reflexivity.
  - reflexivity.
Qed.

Lemma trim_toLowerCase s : trim (toLowerCase s) = toLowerCase (trim s).
Proof.
  unfold trim. rewrite trimStart_toLowerCase. apply trimEnd_toLowerCase.
Qed.

Lemma trimEnd_space s : trimEnd (String.append s " ") = trimEnd s.
Proof.
  induction s as [|c s IH]; [reflexivity|].
  change (String.append (String c s) " ")
    with (String c (String.append s " ")).
  cbn [trimEnd]. rewrite IH. reflexivity.
Qed.

Lemma trimStart_append_space s :
  trimEnd (trimStart (String.append s " ")) = trimEnd (trimStart s).
Proof.
  induction s as [|c s IH]; [reflexivity|].
  change (String.append (String c s) " ")
    with (String c (String.append s " ")).
  cbn [trimStart]. destruct (isSpace c); [exact IH|].
  apply (trimEnd_space (String c s)).
Qed.

(** [trim] takes code units away, and none from a string it leaves as
    long as it was. *)
Lemma trimStart_length s :
  (String.length (trimStart s) <= String.length s)%nat
  /\ (String.length (trimStart s) = String.length s -> trimStart s = s).
Proof.
  induction s as [|c s [IH1 IH2]]; [split; reflexivity|].
  cbn [trimStart]. destruct (isSpace c); [|split; reflexivity].
  cbn [String.length]. split; lia.
Qed.

Lemma trimEnd_length s :
  (String.length (trimEnd s) <= String.length s)%nat
  /\ (String.length (trimEnd s) = String.length s -> trimEnd s = s).
Proof.
  induction s as [|c s [IH1 IH2]]; [split; reflexivity|].
  cbn [trimEnd]. destruct (trimEnd s) as [|d r] eqn:E.
  - destruct (isSpace c); cbn [String.length] in *; split; try lia.
    intros H. destruct s; [reflexivity|cbn [String.length] in H; lia].
  - cbn [String.length] in *. split; [lia|].
    intros H. rewrite IH2; [reflexivity|lia].
Qed.

Lemma trim_length s : String.length (trim s) = String.length s -> trim s = s.
Proof.
  unfold trim. intros H.
  destruct (trimStart_length s) as [H1 H2].
  destruct (trimEnd_length (trimStart s)) as [H3 H4].
  rewrite H4 by lia. apply H2. lia.
Qed.

Lemma trimEnd_idem s : trimEnd (trimEnd s) = trimEnd s.
Proof.
  induction s as [|c s IH]; [reflexivity|]. cbn [trimEnd].
  destruct (trimEnd s) as [|d r] eqn:E.
  - destruct (isSpace c) eqn:Ec; [reflexivity|]. cbn [trimEnd].
    rewrite Ec. reflexivity.
  - cbn [trimEnd] in IH |- *. rewrite IH. reflexivity.
Qed.

Lemma trimStart_fixed s : trimStart (trimStart s) = trimStart s.
Proof.
  induction s as [|c s IH]; [reflexivity|]. cbn [trimStart].
  destruct (isSpace c) eqn:Ec; [exact IH|]. cbn [trimStart].
  rewrite Ec. reflexivity.
Qed.

Lemma trimStart_trimEnd s :
  trimStart s = s -> trimStart (trimEnd s) = trimEnd s.
Proof.
  destruct s as [|c s]; [reflexivity|]. cbn [trimStart].
  destruct (isSpace c) eqn:Ec.
  - intros H. exfalso. destruct (trimStart_length s) as [Hl _].
    rewrite H in Hl. cbn [String.length] in Hl. lia.
  - intros _. cbn [trimEnd].
    destruct (trimEnd s); rewrite ?Ec; cbn [trimStart]; rewrite Ec;
      reflexivity.
Qed.

Lemma trim_idem s : trim (trim s) = trim s.
Proof.
  unfold trim.
  rewrite (trimStart_trimEnd (trimStart s) (trimStart_fixed s)).
  apply trimEnd_idem.
Qed.

(** A string that is equal, letters lowered, to a trimmed string has no
    surrounding white space itself. *)
Lemma lowered_trimmed q p :
  toLowerCase q = toLowerCase (trim p) -> trim q = q.
Proof.
  intros H. apply trim_length.
  rewrite <- (toLowerCase_length (trim q)), <- trim_toLowerCase, H,
    trim_toLowerCase, trim_idem, <- H.
  apply toLowerCase_length.
Qed.

(** X12.  Against a list of spawn paths, a path matches exactly when the
    list has a path that equals it, letters lowered, once the white
    space around the path to match is trimmed.  So a path matches
    whatever the case of its letters and whatever spaces surround it,
    and a listed path without surrounding white space matches its own
    class.  The listed paths themselves are lowered but not trimmed: a
    class that lists only a path with white space around it matches no
    path at all. *)
Theorem spawn_list_matching (c : EntityClass) (paths : list string)
    (p : string) :
  spawnFor c = SpawnList paths ->
  (spawnMatch c p = true
   <-> exists q, In q paths /\ toLowerCase q = toLowerCase (trim p))
  /\ spawnMatch c (toLowerCase p) = spawnMatch c p
  /\ spawnMatch c (String " " p) = spawnMatch c p
  /\ spawnMatch c (String.append p " ") = spawnMatch c p
  /\ (In p paths -> trim p = p -> spawnMatch c p = true)
  /\ (forall q, paths = [q] -> trim q <> q -> spawnMatch c p = false).
Proof.
  intros H. unfold spawnMatch. rewrite H.
  assert (Hiff : existsb (String.eqb (toLowerCase (trim p)))
                   (map toLowerCase paths) = true
                 <-> exists q, In q paths
                               /\ toLowerCase q = toLowerCase (trim p)).
  { rewrite existsb_exists. split.
    - intros (x & Hx & E). apply in_map_iff in Hx as (q & <- & Hq).
      apply String.eqb_eq in E. exists q. split; [exact Hq|]. symmetry.
      exact E.
    - intros (q & Hq & E). exists (toLowerCase q).
      split; [apply in_map, Hq|]. rewrite E. apply String.eqb_refl. }
  split; [exact Hiff|].
  split; [rewrite trim_toLowerCase, toLowerCase_idem; reflexivity|].
  split; [reflexivity|].
  split; [unfold trim; rewrite trimStart_append_space; reflexivity|].
  split.
  - intros Hin Ht. apply Hiff. exists p. rewrite Ht. auto.
  - intros q -> Hq. apply not_true_is_false. intros E.
    apply Hiff in E as (q' & [<-|[]] & E).
    apply Hq, (lowered_trimmed _ _ E).
Qed.

Lemma spawn_list_matching_witness :
  spawnMatch AIAirVehicle "Units/Allied/KC-49" = true
  /\ spawnMatch AIAirVehicle (toLowerCase "Units/Allied/KC-49") = true
  /\ spawnMatch AIAirVehicle " Units/Allied/KC-49" = true
  /\ spawnMatch {| ecName := "Padded"; spawnFor := SpawnList ["Units/X "] |}
       "Units/X " = false.
Proof.
  destruct (spawn_list_matching AIAirVehicle _ "Units/Allied/KC-49" eq_refl)
    as (_ & H1 & H2 & _ & H4 & _).
  destruct (spawn_list_matching
              {| ecName := "Padded"; spawnFor := SpawnList ["Units/X "] |}
              _ "Units/X " eq_refl) as (_ & _ & _ & _ & _ & H5).
  assert (Hm : spawnMatch AIAirVehicle "Units/Allied/KC-49" = true).
  { apply H4; [|reflexivity]. cbn. tauto. }
  split; [exact Hm|]. split; [rewrite H1; exact Hm|].
  split; [rewrite H2; exact Hm|].
  apply (H5 "Units/X " eq_refl). discriminate.
Defined.

(** ** Frames and lobbies *)

(** X13.  A binary frame is taken for a replay chunk exactly when it
    begins with the six bytes of REPLAY, and the chunk handed on is the
    frame without them: framing a payload and routing it gives the
    payload back.  Every other frame, and so every frame shorter than
    six bytes, goes to the dispatcher unchanged. *)
Theorem replay_frame_round_trip (bytes payload : list ascii) :
  routeBinary (list_ascii_of_string "REPLAY" ++ payload)
  = ToReplayChunk payload
  /\ (routeBinary bytes = ToReplayChunk payload ->
      bytes = list_ascii_of_string "REPLAY" ++ payload)
  /\ ((List.length bytes < 6)%nat -> routeBinary bytes = ToHandlePacket bytes)
  /\ (forall b, routeBinary bytes = ToHandlePacket b -> b = bytes).
Proof.
  split; [reflexivity|]. unfold routeBinary.
  destruct (String.eqb_spec
              (string_of_list_ascii (firstn (String.length "REPLAY") bytes))
              "REPLAY") as [E|E].
  - apply (f_equal list_ascii_of_string) in E.
    rewrite list_ascii_of_string_of_list_ascii in E.
    split; [|split].
    + intros [= <-]. rewrite <- E. symmetry. apply firstn_skipn.
    + intros Hlen. exfalso.
      apply (f_equal (@List.length ascii)) in E.
      rewrite length_firstn in E.
      change (String.length "REPLAY") with 6%nat in E.
      change (List.length (list_ascii_of_string "REPLAY")) with 6%nat in E.
      lia.
    + discriminate.
  - split; [discriminate|]. split; [reflexivity|]. intros b [= <-]. reflexivity.
Qed.

Lemma replay_frame_round_trip_witness :
  routeBinary (list_ascii_of_string "REPLAYxyz")
  = ToReplayChunk (list_ascii_of_string "xyz")
  /\ routeBinary (list_ascii_of_string "REPL")
     = ToHandlePacket (list_ascii_of_string "REPL").
Proof.
  destruct (replay_frame_round_trip (list_ascii_of_string "REPL")
              (list_ascii_of_string "xyz")) as (H1 & _ & H3 & _).
  split; [exact H1|]. apply H3. cbn. lia.
Defined.

Lemma CreateLobby_list g a :
  gameList (CreateLobby g a)
  = if existsb (String.eqb g) (gameList a) then gameList a
    else gameList a ++ [g].
Proof.
  unfold CreateLobby. destruct (existsb _ (gameList a)); reflexivity.
Qed.

Lemma CreateLobby_client g a : client (CreateLobby g a) = client a.
Proof.
  unfold CreateLobby. destruct (existsb _ (gameList a)); reflexivity.
Qed.

(** X14.  [CreateLobby] lists a lobby id once: the id is listed after
    the call, a second call for it changes nothing, ids listed before
    keep their place, and a list without duplicates stays so.  A
    [subscribe] to the id then finds the lobby: it returns when the
    application has a client, and without one it throws only at
    [this.client.subscribe], the entities already torn down. *)
Theorem CreateLobby_once (g : string) (a : Application) :
  In g (gameList (CreateLobby g a))
  /\ CreateLobby g (CreateLobby g a) = CreateLobby g a
  /\ (exists l, gameList (CreateLobby g a) = gameList a ++ l)
  /\ (NoDup (gameList a) -> NoDup (gameList (CreateLobby g a)))
  /\ (client a <> None ->
      exists a', subscribe g (CreateLobby g a) = Returns a'
                 /\ messageHandler a' = Some g)
  /\ (client a = None ->
      exists a', subscribe g (CreateLobby g a) = Throws a'
                 /\ entities a' = []
                 /\ removed a' = removed a ++ entities a
                 /\ gameList a' = gameList (CreateLobby g a)).
Proof.
  assert (Hin : In g (gameList (CreateLobby g a))).
  { rewrite CreateLobby_list.
    destruct (existsb (String.eqb g) (gameList a)) eqn:E.
    - apply existsb_eqb_In, E.
    - apply in_or_app. right. left. reflexivity. }
  split; [exact Hin|]. split; [|split; [|split; [|split]]].
  - unfold CreateLobby at 1.
    replace (existsb (String.eqb g) (gameList (CreateLobby g a))) with true
      by (symmetry; apply existsb_eqb_In, Hin).
    reflexivity.
  - rewrite CreateLobby_list.
    destruct (existsb (String.eqb g) (gameList a));
      [exists []; rewrite app_nil_r|exists [g]]; reflexivity.
  - intros Hnd. rewrite CreateLobby_list.
    destruct (existsb (String.eqb g) (gameList a)) eqn:E; [exact Hnd|].
    apply NoDup_app. split; [exact Hnd|]. split; [|apply NoDup_singleton].
    intros x Hx Hx'. apply list_elem_of_In in Hx, Hx'.
    destruct Hx' as [<-|[]].
    apply existsb_eqb_In in Hx. congruence.
  - intros Hc. unfold subscribe.
    replace (existsb (String.eqb g) (gameList (CreateLobby g a))) with true
      by (symmetry; apply existsb_eqb_In, Hin).
    cbn zeta.
    assert (Hc' : client (CreateLobby g a) <> None)
      by (rewrite CreateLobby_client; exact Hc).
    destruct (messageHandler _); cbn in Hc' |- *;
      destruct (client (CreateLobby g a)); try congruence;
      eexists; split; reflexivity.
  - intros Hc. unfold subscribe.
    replace (existsb (String.eqb g) (gameList (CreateLobby g a))) with true
      by (symmetry; apply existsb_eqb_In, Hin).
    cbn zeta.
    assert (Hc' : client (CreateLobby g a) = None)
      by (rewrite CreateLobby_client; exact Hc).
    assert (He : entities (CreateLobby g a) = entities a
                 /\ removed (CreateLobby g a) = removed a).
    { unfold CreateLobby. destruct (existsb _ (gameList a));
        split; reflexivity. }
    destruct He as [He Hr].
    destruct (messageHandler _); cbn; rewrite Hc'; eexists;
      (split; [reflexivity|]); cbn; rewrite He, Hr; repeat split; reflexivity.
Qed.

Lemma CreateLobby_once_witness :
  NoDup (gameList (CreateLobby "a" (CreateLobby "b" (CreateLobby "a" demoApp))))
  /\ (exists a', subscribe "a" (CreateLobby "a" demoClient) = Returns a'
                 /\ messageHandler a' = Some "a").
Proof.
  destruct (CreateLobby_once "a" (CreateLobby "b" (CreateLobby "a" demoApp)))
    as (_ & _ & _ & H & _).
  destruct (CreateLobby_once "a" demoClient) as (_ & _ & _ & _ & Hs & _).
  split; [|apply Hs; discriminate].
  apply H. vm_compute. apply NoDup_cons. split; [|apply NoDup_singleton].
  intros Hin. apply list_elem_of_In in Hin. destruct Hin as [E|[]].
  discriminate E.
Defined.
(** * The unit trail *)

Lemma hideExcess_spec target : forall line hidden h1 l1,
  0 <= target ->
  SimpleUnitTrail.hideExcess target hidden line = (h1, l1) ->
  h1 ++ l1 = hidden ++ line
  /\ Z.of_nat (List.length l1) = Z.min (Z.of_nat (List.length line)) target.
Proof.
  induction line as [|p line IH]; intros hidden h1 l1 Ht H;
    cbn [SimpleUnitTrail.hideExcess] in H.
  - injection H as <- <-. split; [reflexivity|]. cbn. lia.
  - destruct (Z.ltb_spec target (Z.of_nat (List.length (p :: line)))) as [Hlt|Hge].
    + destruct (IH _ _ _ Ht H) as [E L]. split.
      * rewrite E, <- app_assoc. reflexivity.
      * rewrite L. cbn [List.length] in *. lia.
    + injection H as <- <-. split; [reflexivity|]. lia.
Qed.

Lemma restoreHidden_spec target : forall hr line hr' l',
  Z.of_nat (List.length line) <= target ->
  SimpleUnitTrail.restoreHidden target hr line = (hr', l') ->
  rev hr' ++ l' = rev hr ++ line
  /\ Z.of_nat (List.length l')
     = Z.min target (Z.of_nat (List.length hr + List.length line)).
Proof.
  induction hr as [|p hr IH]; intros line hr' l' Hle H;
    cbn [SimpleUnitTrail.restoreHidden] in H.
  - injection H as <- <-. split; [reflexivity|]. cbn [List.length]. lia.
  - destruct (Z.ltb_spec (Z.of_nat (List.length line)) target) as [Hlt|Hge].
    + destruct (IH (p :: line) hr' l') as [E L];
        [cbn [List.length]; lia | exact H |].
      split.
      * rewrite E. cbn [rev]. rewrite <- app_assoc. reflexivity.
      * rewrite L. cbn [List.length]. lia.
    + injection H as <- <-. split; [reflexivity|]. cbn [List.length]. lia.
Qed.

(** The two trimming loops lose no point and reorder none. *)
Lemma trim_conserves (target : Z)
    (hidden line hidden' line' : list SimpleUnitTrail.UnitTrailPoint) :
  0 <= target ->
  SimpleUnitTrail.trim target hidden line = (hidden', line') ->
  hidden' ++ line' = hidden ++ line
  /\ Z.of_nat (List.length line')
     = Z.min target (Z.of_nat (List.length (hidden ++ line))).
Proof.
  intros Ht. unfold SimpleUnitTrail.trim.
  destruct (SimpleUnitTrail.hideExcess target hidden line) as [h1 l1] eqn:E1.
  destruct (SimpleUnitTrail.restoreHidden target (rev h1) l1)
    as [hr l2] eqn:E2.
  intros [= <- <-].
  destruct (hideExcess_spec _ _ _ _ _ Ht E1) as [H1 L1].
  assert (Hle : Z.of_nat (List.length l1) <= target) by lia.
  destruct (restoreHidden_spec _ _ _ _ _ Hle E2) as [H2 L2].
  rewrite rev_involutive in H2. split; [congruence|].
  rewrite L2, length_rev, <- length_app, H1. reflexivity.
Qed.

(** X15.  A run of an initialised trail with a target length that is not
    negative returns, and its trimming loses no point and reorders none:
    the hidden points followed by the visible ones are the sequence the
    trail had after following the entity.  Afterwards the number of
    visible points is the target, or the number of all points when there
    are fewer than the target, and a trail that shares its line with the
    cache leaves the line in the cache.  A trail that was never
    initialised is left as it is. *)
Theorem trail_run_trims (now : Q) (pos : Vector3) (n : Z)
    (t : SimpleUnitTrail.Trail)
    (cache : gmap Z (list SimpleUnitTrail.UnitTrailPoint)) :
  0 <= n ->
  (SimpleUnitTrail.hasInit t = true ->
   exists t' cache',
     SimpleUnitTrail.run now pos (Some n) t cache = Some (t', cache')
     /\ SimpleUnitTrail.hiddenLinePoints t' ++ SimpleUnitTrail.linePoints t'
        = SimpleUnitTrail.hiddenLinePoints t
          ++ SimpleUnitTrail.linePoints (SimpleUnitTrail.follow now pos t)
     /\ Z.of_nat (List.length (SimpleUnitTrail.linePoints t'))
        = Z.min n
            (Z.of_nat
               (List.length
                  (SimpleUnitTrail.hiddenLinePoints t
                   ++ SimpleUnitTrail.linePoints
                        (SimpleUnitTrail.follow now pos t))))
     /\ (SimpleUnitTrail.sharesCache t = true ->
         cache' !! SimpleUnitTrail.entityId t
         = Some (SimpleUnitTrail.linePoints t')))
  /\ (SimpleUnitTrail.hasInit t = false ->
      SimpleUnitTrail.run now pos (Some n) t cache = Some (t, cache)).
Proof.
  intros Hn. unfold SimpleUnitTrail.run. split; intros Hi; rewrite Hi;
    [|reflexivity].
  cbn [negb]. destruct (Z.ltb_spec n 0) as [|_]; [lia|].
  set (t1 := SimpleUnitTrail.follow now pos t).
  assert (Hh : SimpleUnitTrail.hiddenLinePoints t1
               = SimpleUnitTrail.hiddenLinePoints t).
  { unfold t1, SimpleUnitTrail.follow.
    destruct (Qltb _ _), (Nat.ltb _ _); reflexivity. }
  assert (Hid : SimpleUnitTrail.entityId t1 = SimpleUnitTrail.entityId t).
  { unfold t1, SimpleUnitTrail.follow.
    destruct (Qltb _ _), (Nat.ltb _ _); reflexivity. }
  assert (Hsh : SimpleUnitTrail.sharesCache t1 = SimpleUnitTrail.sharesCache t).
  { unfold t1, SimpleUnitTrail.follow.
    destruct (Qltb _ _), (Nat.ltb _ _); reflexivity. }
  destruct (SimpleUnitTrail.trim n (SimpleUnitTrail.hiddenLinePoints t1)
              (SimpleUnitTrail.linePoints t1)) as [hidden line] eqn:E.
  destruct (trim_conserves _ _ _ _ _ Hn E) as [Hc Hl].
  eexists _, _. split; [reflexivity|].
  cbn [SimpleUnitTrail.hiddenLinePoints SimpleUnitTrail.linePoints].
  rewrite <- Hh. split; [exact Hc|]. split; [exact Hl|].
  intros Hs. unfold SimpleUnitTrail.sync.
  cbn [SimpleUnitTrail.sharesCache SimpleUnitTrail.entityId
       SimpleUnitTrail.linePoints].
  rewrite Hsh, Hs, Hid. apply lookup_insert_eq.
Qed.

Lemma trail_run_trims_witness :
  exists t' cache',
    SimpleUnitTrail.run 1000 zeroVec (Some 2)
      {| SimpleUnitTrail.entityId := 7;
         SimpleUnitTrail.linePoints :=
           [ {| SimpleUnitTrail.position := zeroVec;
                SimpleUnitTrail.time := 100 |};
             {| SimpleUnitTrail.position := zeroVec;
                SimpleUnitTrail.time := 300 |};
             {| SimpleUnitTrail.position := zeroVec;
                SimpleUnitTrail.time := 500 |} ];
         SimpleUnitTrail.hiddenLinePoints := [];
         SimpleUnitTrail.hasInit := true;
         SimpleUnitTrail.lastTrailTime := 500;
         SimpleUnitTrail.sharesCache := false |} ∅
    = Some (t', cache')
    /\ Z.of_nat (List.length (SimpleUnitTrail.linePoints t')) = 2
    /\ List.length (SimpleUnitTrail.hiddenLinePoints t') = 2%nat.
Proof.
  destruct (trail_run_trims 1000 zeroVec 2
    {| SimpleUnitTrail.entityId := 7;
       SimpleUnitTrail.linePoints :=
         [ {| SimpleUnitTrail.position := zeroVec;
              SimpleUnitTrail.time := 100 |};
           {| SimpleUnitTrail.position := zeroVec;
              SimpleUnitTrail.time := 300 |};
           {| SimpleUnitTrail.position := zeroVec;
              SimpleUnitTrail.time := 500 |} ];
       SimpleUnitTrail.hiddenLinePoints := [];
       SimpleUnitTrail.hasInit := true;
       SimpleUnitTrail.lastTrailTime := 500;
       SimpleUnitTrail.sharesCache := false |} ∅ ltac:(lia)) as [H _].
  destruct (H eq_refl) as (t' & cache' & Hr & Hc & Hl & _).
  exists t', cache'. split; [exact Hr|]. split; [exact Hl|].
  vm_compute in Hr. injection Hr as <- _. reflexivity.
Defined.

Lemma rewind_spec now : forall lineRev,
  lineRev <> [] ->
  exists dropped p rest,
    lineRev = dropped ++ p :: rest
    /\ SimpleUnitTrail.rewind now lineRev = p :: rest
    /\ (forall q, In q dropped -> (now < SimpleUnitTrail.time q)%Q)
    /\ (rest = [] \/ (SimpleUnitTrail.time p <= now)%Q).
Proof.
  induction lineRev as [|p rest IH]; intros Hne; [congruence|].
  cbn [SimpleUnitTrail.rewind]. destruct rest as [|q rest'].
  - exists [], p, []. repeat split; auto. intros x [].
  - destruct (Qltb now (SimpleUnitTrail.time p)) eqn:E.
    + destruct IH as (dropped & p' & rest'' & Hl & Hr & Hd & Hp);
        [discriminate|].
      exists (p :: dropped), p', rest''. rewrite Hl. split; [reflexivity|].
      split; [rewrite <- Hl; exact Hr|]. split; [|exact Hp].
      intros x [<-|Hx]; [apply Qltb_lt, E|apply Hd, Hx].
    + exists [], p, (q :: rest'). repeat split; auto.
      * intros x [].
      * right. apply Qltb_ge, E.
Qed.

(** X16.  After the first part of a run, a trail that had a visible
    point, or was extended, ends with a point at the position of the
    entity; that point is the only one left or does not lie after the
    current time, the points before it are the oldest ones of the line
    in their order, and every point that was popped lay after the
    current time. *)
Theorem trail_follow_rewinds (now : Q) (pos : Vector3)
    (t : SimpleUnitTrail.Trail) :
  let line0 :=
    if Qltb SimpleUnitTrail.TRAIL_RATE
         (f64sub now (SimpleUnitTrail.lastTrailTime t))
    then SimpleUnitTrail.linePoints t
         ++ [{| SimpleUnitTrail.position := pos;
                SimpleUnitTrail.time := now |}]
    else SimpleUnitTrail.linePoints t in
  line0 <> [] ->
  exists kept last popped,
    line0 = kept ++ last :: popped
    /\ SimpleUnitTrail.linePoints (SimpleUnitTrail.follow now pos t)
       = kept ++ [{| SimpleUnitTrail.position := pos;
                     SimpleUnitTrail.time := SimpleUnitTrail.time last |}]
    /\ (forall q, In q popped -> (now < SimpleUnitTrail.time q)%Q)
    /\ (kept = [] \/ (SimpleUnitTrail.time last <= now)%Q).
Proof.
  intros line0 Hne.
  assert (Hline : SimpleUnitTrail.linePoints (SimpleUnitTrail.follow now pos t)
                  = rev (SimpleUnitTrail.moveLast pos
                           (SimpleUnitTrail.rewind now (rev line0)))).
  { unfold SimpleUnitTrail.follow, line0, SimpleUnitTrail.extendTrail.
    destruct (Qltb SimpleUnitTrail.TRAIL_RATE _);
      destruct (Nat.ltb _ _); reflexivity. }
  destruct (rewind_spec now (rev line0)) as (dropped & p & rest & Hl & Hr & Hd & Hp).
  { intros E. apply Hne. rewrite <- (rev_involutive line0), E. reflexivity. }
  exists (rev rest), p, (rev dropped). split; [|split; [|split]].
  - rewrite <- (rev_involutive line0), Hl, rev_app_distr. cbn [rev].
    rewrite <- app_assoc. reflexivity.
  - rewrite Hline, Hr. reflexivity.
  - intros q Hq. apply Hd. apply in_rev. exact Hq.
  - destruct Hp as [->|Hp]; [left; reflexivity|right; exact Hp].
Qed.

Lemma trail_follow_rewinds_witness :
  SimpleUnitTrail.linePoints
    (SimpleUnitTrail.follow 250 zeroVec
       {| SimpleUnitTrail.entityId := 7;
          SimpleUnitTrail.linePoints :=
            [ {| SimpleUnitTrail.position := zeroVec;
                 SimpleUnitTrail.time := 100 |};
              {| SimpleUnitTrail.position := zeroVec;
                 SimpleUnitTrail.time := 300 |};
              {| SimpleUnitTrail.position := zeroVec;
                 SimpleUnitTrail.time := 500 |} ];
          SimpleUnitTrail.hiddenLinePoints := [];
          SimpleUnitTrail.hasInit := true;
          SimpleUnitTrail.lastTrailTime := 500;
          SimpleUnitTrail.sharesCache := false |})
  = [ {| SimpleUnitTrail.position := zeroVec; SimpleUnitTrail.time := 100 |} ].
Proof.
  destruct (trail_follow_rewinds 250 zeroVec
    {| SimpleUnitTrail.entityId := 7;
       SimpleUnitTrail.linePoints :=
         [ {| SimpleUnitTrail.position := zeroVec;
              SimpleUnitTrail.time := 100 |};
           {| SimpleUnitTrail.position := zeroVec;
              SimpleUnitTrail.time := 300 |};
           {| SimpleUnitTrail.position := zeroVec;
              SimpleUnitTrail.time := 500 |} ];
       SimpleUnitTrail.hiddenLinePoints := [];
       SimpleUnitTrail.hasInit := true;
       SimpleUnitTrail.lastTrailTime := 500;
       SimpleUnitTrail.sharesCache := false |})
    as (kept & last & popped & _ & Hl & _).
  - vm_compute. discriminate.
  - vm_compute. reflexivity.
Defined.

(** X17.  [reset] of a trail with visible points keeps every point: the
    hidden points followed by the visible ones become the visible line,
    which is the array the cache now holds, and no point stays hidden.
    With no visible point nothing is saved: the hidden points are
    dropped and the line is what the cache held before. *)
Theorem trail_reset_keeps_points (now : Q) (t : SimpleUnitTrail.Trail)
    (cache : gmap Z (list SimpleUnitTrail.UnitTrailPoint)) :
  let t' := (SimpleUnitTrail.reset now t cache).1 in
  let cache' := (SimpleUnitTrail.reset now t cache).2 in
  SimpleUnitTrail.hiddenLinePoints t' = []
  /\ SimpleUnitTrail.hasInit t' = true
  /\ SimpleUnitTrail.lastTrailTime t' = now
  /\ (SimpleUnitTrail.linePoints t <> [] ->
      SimpleUnitTrail.linePoints t'
      = SimpleUnitTrail.hiddenLinePoints t ++ SimpleUnitTrail.linePoints t
      /\ cache' !! SimpleUnitTrail.entityId t
         = Some (SimpleUnitTrail.linePoints t')
      /\ SimpleUnitTrail.sharesCache t' = true)
  /\ (SimpleUnitTrail.linePoints t = [] ->
      cache' = cache
      /\ SimpleUnitTrail.linePoints t'
         = default [] (cache !! SimpleUnitTrail.entityId t)).
Proof.
  unfold SimpleUnitTrail.reset, SimpleUnitTrail.remove, SimpleUnitTrail.init.
  cbn [fst snd SimpleUnitTrail.entityId SimpleUnitTrail.linePoints
       SimpleUnitTrail.hiddenLinePoints].
  destruct (SimpleUnitTrail.linePoints t) as [|p line] eqn:E.
  - destruct (cache !! SimpleUnitTrail.entityId t) as [points|] eqn:Ec;
      cbn; repeat split; try reflexivity; intros; congruence.
  - rewrite lookup_insert_eq. cbn.
    split; [reflexivity|]. split; [reflexivity|]. split; [reflexivity|].
    split.
    + intros _. split; [reflexivity|].
      split; reflexivity.
    + intros H. discriminate H.
Qed.

Lemma trail_reset_keeps_points_witness :
  SimpleUnitTrail.linePoints
    (SimpleUnitTrail.reset 900
       {| SimpleUnitTrail.entityId := 7;
          SimpleUnitTrail.linePoints :=
            [ {| SimpleUnitTrail.position := zeroVec;
                 SimpleUnitTrail.time := 500 |} ];
          SimpleUnitTrail.hiddenLinePoints :=
            [ {| SimpleUnitTrail.position := zeroVec;
                 SimpleUnitTrail.time := 100 |} ];
          SimpleUnitTrail.hasInit := true;
          SimpleUnitTrail.lastTrailTime := 500;
          SimpleUnitTrail.sharesCache := false |} ∅).1
  = [ {| SimpleUnitTrail.position := zeroVec; SimpleUnitTrail.time := 100 |};
      {| SimpleUnitTrail.position := zeroVec; SimpleUnitTrail.time := 500 |} ].
Proof.
  destruct (trail_reset_keeps_points 900
    {| SimpleUnitTrail.entityId := 7;
       SimpleUnitTrail.linePoints :=
         [ {| SimpleUnitTrail.position := zeroVec;
              SimpleUnitTrail.time := 500 |} ];
       SimpleUnitTrail.hiddenLinePoints :=
         [ {| SimpleUnitTrail.position := zeroVec;
              SimpleUnitTrail.time := 100 |} ];
       SimpleUnitTrail.hasInit := true;
       SimpleUnitTrail.lastTrailTime := 500;
       SimpleUnitTrail.sharesCache := false |} ∅) as (_ & _ & _ & H & _).
  destruct H as (H & _); [discriminate|]. exact H.
Defined.

(** * The text overlay *)

Lemma toInt32_range x : - 2 ^ 31 <= TextOverlay.toInt32 x < 2 ^ 31.
Proof.
  unfold TextOverlay.toInt32.
  pose proof (Z.mod_pos_bound (x + 2 ^ 31) (2 ^ 32) ltac:(lia)). lia.
Qed.

Lemma toInt32_shift x k :
  TextOverlay.toInt32 (x + k * 2 ^ 32) = TextOverlay.toInt32 x.
Proof.
  unfold TextOverlay.toInt32.
  replace (x + k * 2 ^ 32 + 2 ^ 31) with (x + 2 ^ 31 + k * 2 ^ 32) by ring.
  rewrite Z.mod_add by lia. reflexivity.
Qed.

Lemma toInt32_rep x : exists k, TextOverlay.toInt32 x = x + k * 2 ^ 32.
Proof.
  unfold TextOverlay.toInt32. exists (- ((x + 2 ^ 31) / 2 ^ 32)).
  pose proof (Z.div_mod (x + 2 ^ 31) (2 ^ 32) ltac:(lia)). lia.
Qed.

Lemma poly_step_shift codes : forall h k,
  exists k',
    fold_left (fun h c => 31 * h + c) codes (h + k * 2 ^ 32)
    = fold_left (fun h c => 31 * h + c) codes h + k' * 2 ^ 32.
Proof.
  induction codes as [|c codes IH]; intros h k; cbn [fold_left].
  - exists k. reflexivity.
  - replace (31 * (h + k * 2 ^ 32) + c) with (31 * h + c + (31 * k) * 2 ^ 32)
      by ring.
    apply IH.
Qed.

Lemma hashLoop_poly codes : forall h,
  TextOverlay.toInt32 (TextOverlay.hashLoop h codes)
  = TextOverlay.toInt32 (fold_left (fun h c => 31 * h + c) codes h).
Proof.
  induction codes as [|c codes IH]; intros h; [reflexivity|].
  cbn [TextOverlay.hashLoop fold_left]. rewrite IH.
  destruct (toInt32_rep (h * 2 ^ 5)) as [k1 E1].
  destruct (toInt32_rep (TextOverlay.toInt32 (h * 2 ^ 5) - h + c)) as [k2 E2].
  rewrite E2, E1.
  replace (h * 2 ^ 5 + k1 * 2 ^ 32 - h + c + k2 * 2 ^ 32)
    with (31 * h + c + (k1 + k2) * 2 ^ 32) by ring.
  destruct (poly_step_shift codes (31 * h + c) (k1 + k2)) as [k' ->].
  apply toInt32_shift.
Qed.

Lemma toInt32_idem x :
  - 2 ^ 31 <= x < 2 ^ 31 -> TextOverlay.toInt32 x = x.
Proof.
  intros H. unfold TextOverlay.toInt32.
  rewrite Z.mod_small by lia. lia.
Qed.

Lemma hashLoop_range codes : forall h,
  - 2 ^ 31 <= h < 2 ^ 31 ->
  - 2 ^ 31 <= TextOverlay.hashLoop h codes < 2 ^ 31.
Proof.
  induction codes as [|c codes IH]; intros h Hh; [exact Hh|].
  cbn [TextOverlay.hashLoop]. apply IH, toInt32_range.
Qed.

(** X18.  [hashCode] is the polynomial hash with multiplier 31 over the
    code units, reduced to a signed 32-bit integer: the shift, the
    subtraction and the wrap of each turn of the loop amount to
    [31 * hash + chr] modulo 2^32, and the result is always within
    [-2^31, 2^31). *)
Theorem hashCode_polynomial (codes : list Z) :
  TextOverlay.hashCode codes = TextOverlay.toInt32 (TextOverlay.poly31 codes)
  /\ - 2 ^ 31 <= TextOverlay.hashCode codes < 2 ^ 31
  /\ (forall c, TextOverlay.hashCode (codes ++ [c])
                = TextOverlay.toInt32 (31 * TextOverlay.hashCode codes + c)).
Proof.
  assert (Hloop : forall l, TextOverlay.hashCode l = TextOverlay.hashLoop 0 l)
    by (intros [|? ?]; reflexivity).
  assert (Hr : forall l, - 2 ^ 31 <= TextOverlay.hashCode l < 2 ^ 31)
    by (intros l; rewrite Hloop; apply hashLoop_range; lia).
  assert (Hp : forall l, TextOverlay.hashCode l
                         = TextOverlay.toInt32 (TextOverlay.poly31 l)).
  { intros l. rewrite <- (toInt32_idem _ (Hr l)), Hloop.
    apply hashLoop_poly. }
  split; [apply Hp|]. split; [apply Hr|].
  intros c. rewrite (Hp (codes ++ [c])), (Hp codes).
  unfold TextOverlay.poly31. rewrite fold_left_app. cbn [fold_left].
  destruct (toInt32_rep (fold_left (fun h c0 => 31 * h + c0) codes 0))
    as [k ->].
  replace (31 * (fold_left (fun h c0 => 31 * h + c0) codes 0 + k * 2 ^ 32) + c)
    with (31 * fold_left (fun h c0 => 31 * h + c0) codes 0 + c
          + (31 * k) * 2 ^ 32) by ring.
  symmetry. apply toInt32_shift.
Qed.

Lemma elmOverlap_true r1 r2 :
  TextOverlay.elmOverlap r1 r2 = true
  <-> (TextOverlay.top r1 <= TextOverlay.bottom r2
       /\ TextOverlay.left r2 <= TextOverlay.right r1
       /\ TextOverlay.top r2 <= TextOverlay.bottom r1
       /\ TextOverlay.left r1 <= TextOverlay.right r2)%Q.
Proof.
  unfold TextOverlay.elmOverlap.
  rewrite negb_true_iff, !orb_false_iff, !Qltb_ge. tauto.
Qed.

(** X19.  [elmOverlap] does not depend on the order of its arguments.  A
    point that [isInBounds] accepts for two rectangles shows that they
    overlap, and two rectangles with [top <= bottom] and [left <= right]
    overlap exactly when they have a point in common, edges included.
    An overlay without a measured rectangle contains no point. *)
Theorem elmOverlap_geometry (r1 r2 : TextOverlay.DOMRect) :
  TextOverlay.elmOverlap r1 r2 = TextOverlay.elmOverlap r2 r1
  /\ (forall x y,
        TextOverlay.isInBounds (Some r1) x y = true ->
        TextOverlay.isInBounds (Some r2) x y = true ->
        TextOverlay.elmOverlap r1 r2 = true)
  /\ ((TextOverlay.top r1 <= TextOverlay.bottom r1)%Q ->
      (TextOverlay.left r1 <= TextOverlay.right r1)%Q ->
      (TextOverlay.top r2 <= TextOverlay.bottom r2)%Q ->
      (TextOverlay.left r2 <= TextOverlay.right r2)%Q ->
      (TextOverlay.elmOverlap r1 r2 = true
       <-> exists x y,
             (TextOverlay.left r1 <= x <= TextOverlay.right r1
              /\ TextOverlay.top r1 <= y <= TextOverlay.bottom r1
              /\ TextOverlay.left r2 <= x <= TextOverlay.right r2
              /\ TextOverlay.top r2 <= y <= TextOverlay.bottom r2)%Q))
  /\ (forall x y, TextOverlay.isInBounds None x y = false).
Proof.
  split; [|split; [|split]].
  - destruct (TextOverlay.elmOverlap r1 r2) eqn:E1,
             (TextOverlay.elmOverlap r2 r1) eqn:E2; try reflexivity.
    + apply elmOverlap_true in E1.
      assert (H : TextOverlay.elmOverlap r2 r1 = true)
        by (apply elmOverlap_true; tauto). congruence.
    + apply elmOverlap_true in E2.
      assert (H : TextOverlay.elmOverlap r1 r2 = true)
        by (apply elmOverlap_true; tauto). congruence.
  - intros x y H1 H2. unfold TextOverlay.isInBounds in H1, H2.
    rewrite !andb_true_iff, !Qltb_lt in H1, H2.
    apply elmOverlap_true. lra.
  - intros W1 W2 W3 W4. rewrite elmOverlap_true. split.
    + intros (A & B & C & D).
      destruct (Qlt_le_dec (TextOverlay.left r1) (TextOverlay.left r2)),
               (Qlt_le_dec (TextOverlay.top r1) (TextOverlay.top r2));
        [ exists (TextOverlay.left r2), (TextOverlay.top r2)
        | exists (TextOverlay.left r2), (TextOverlay.top r1)
        | exists (TextOverlay.left r1), (TextOverlay.top r2)
        | exists (TextOverlay.left r1), (TextOverlay.top r1) ]; lra.
    + intros (x & y & H). lra.
  - reflexivity.
Qed.

Lemma elmOverlap_geometry_witness :
  TextOverlay.elmOverlap
    {| TextOverlay.top := 0; TextOverlay.bottom := 10;
       TextOverlay.left := 0; TextOverlay.right := 10 |}
    {| TextOverlay.top := 5; TextOverlay.bottom := 20;
       TextOverlay.left := 5; TextOverlay.right := 20 |} = true.
Proof.
  destruct (elmOverlap_geometry
    {| TextOverlay.top := 0; TextOverlay.bottom := 10;
       TextOverlay.left := 0; TextOverlay.right := 10 |}
    {| TextOverlay.top := 5; TextOverlay.bottom := 20;
       TextOverlay.left := 5; TextOverlay.right := 20 |}) as (_ & H & _).
  apply (H 7%Q 8%Q); reflexivity.
Defined.
